(** * Navillera: the batch execution and live-output classification engine

    A shallow embedding of the engine of [navillera.py]: the URL
    normaliser ([_clean_urls] and the de-duplication loop of [start_run]),
    the batch planner ([_build_batches]), the batch runner
    ([_run_next_batch], [_finished_batch], [stop_run]) and the output
    classifier ([_read_output]); and of what stands around it: the
    version helpers ([parse_version], [is_newer]), the options of a run
    ([_build_common_args]) and the loading of URLs into the URL box
    ([load_txt], [dropEvent]).

    Conventions.
    - A Python [str] is a Rocq [string]; one [ascii] stands for one code
      point in the range 0..255, and the [str] methods used by the source
      ([strip], [lower], [splitlines], [startswith], [in]) and its two
      patterns are written out on that range.  Text with other code
      points is outside the model.
    - Python [int]s are [Z]; the three counters only ever grow from [0] and
      are [nat].
    - A time stamp is a rational number of seconds.
    - The widget object [self] is the record [State]; every handler is a
      function on it.  What the handlers ask of the outside world (the
      file system, the clock, [urlparse], the option widgets) is the
      record [Env]. *)

From Stdlib Require Import ZArith QArith Ascii String DecimalString.
From stdpp Require Import base tactics option list gmap strings.

Local Open Scope Z_scope.

(** ** Python string primitives *)

Module Py.

Definition ord (c : ascii) : Z := Z.of_N (N_of_ascii c).

Definition chr (n : Z) : ascii := ascii_of_N (Z.to_N n).

(** [len(s)] *)
Definition len (s : string) : Z := Z.of_nat (String.length s).

Definition between (lo n hi : Z) : bool := (lo <=? n) && (n <=? hi).

(** [str.isspace] on one character: TAB..CR, FS..US, space, NEL, NBSP. *)
Definition isspace (c : ascii) : bool :=
  let n := ord c in
  between 9 n 13 || between 28 n 32 || (n =? 133) || (n =? 160).

(** The line boundaries of [str.splitlines]: LF, VT, FF, CR, FS, GS, RS
    and NEL (LS and PS lie outside the modelled range). *)
Definition islinebreak (c : ascii) : bool :=
  let n := ord c in
  between 10 n 13 || between 28 n 30 || (n =? 133).

(** [str.lower] on one character: A..Z and the upper-case letters of the
    Latin-1 block (all of U+00C0..U+00DE but the multiplication sign). *)
Definition lower_char (c : ascii) : ascii :=
  let n := ord c in
  if between 65 n 90 || (between 192 n 222 && negb (n =? 215))
  then chr (n + 32) else c.

Fixpoint lower (s : string) : string :=
  match s with
  | EmptyString => EmptyString
  | String c s' => String (lower_char c) (lower s')
  end.

Fixpoint lstrip (s : string) : string :=
  match s with
  | EmptyString => EmptyString
  | String c s' => if isspace c then lstrip s' else s
  end.

(** [s.rstrip()]: a character is dropped when it is white space and all
    that follows it was dropped. *)
Fixpoint rstrip (s : string) : string :=
  match s with
  | EmptyString => EmptyString
  | String c s' =>
      match rstrip s' with
      | EmptyString => if isspace c then EmptyString else String c EmptyString
      | r => String c r
      end
  end.

(** [s.strip()] *)
Definition strip (s : string) : string := rstrip (lstrip s).

(** [s.rstrip(chars)] for a one-character [chars]. *)
Fixpoint rstrip_char (x : ascii) (s : string) : string :=
  match s with
  | EmptyString => EmptyString
  | String c s' =>
      match rstrip_char x s' with
      | EmptyString => if Ascii.eqb c x then EmptyString else String c EmptyString
      | r => String c r
      end
  end.

(** [s.startswith(p)] *)
Definition startswith (s p : string) : bool := String.prefix p s.

Fixpoint last_char (s : string) : option ascii :=
  match s with
  | EmptyString => None
  | String c EmptyString => Some c
  | String _ s' => last_char s'
  end.

(** [s.endswith(p)] for a one-character [p]. *)
Definition endswith_char (s : string) (x : ascii) : bool :=
  match last_char s with
  | Some c => Ascii.eqb c x
  | None => false
  end.

(** [s[:-1]] *)
Fixpoint drop_last (s : string) : string :=
  match s with
  | EmptyString => EmptyString
  | String c EmptyString => EmptyString
  | String c s' => String c (drop_last s')
  end.

(** [s[1:-1]] *)
Definition slice_1_m1 (s : string) : string :=
  match s with
  | EmptyString => EmptyString
  | String _ s' => drop_last s'
  end.

(** [needle in hay] *)
Fixpoint contains (needle hay : string) : bool :=
  String.prefix needle hay ||
  match hay with
  | EmptyString => false
  | String _ hay' => contains needle hay'
  end.

Definition LF : ascii := "010"%char.
Definition CR : ascii := "013"%char.

(** [s.splitlines()], with the line being read kept in [acc]: a line
    boundary closes the line, CR LF counts as one boundary, and text
    after the last boundary is a line when it is not empty. *)
Fixpoint splitlines_from (acc s : string) : list string :=
  match s with
  | EmptyString =>
      match acc with EmptyString => [] | _ => [acc] end
  | String c s' =>
      if islinebreak c then
        acc :: match s' with
               | String d s'' =>
                   if Ascii.eqb c CR && Ascii.eqb d LF
                   then splitlines_from EmptyString s''
                   else splitlines_from EmptyString s'
               | EmptyString => splitlines_from EmptyString s'
               end
      else splitlines_from (acc +:+ String c EmptyString) s'
  end.

Definition splitlines (s : string) : list string := splitlines_from EmptyString s.

(** [sep.join(l)] *)
Fixpoint join (sep : string) (l : list string) : string :=
  match l with
  | [] => EmptyString
  | [x] => x
  | x :: l' => x +:+ sep +:+ join sep l'
  end.

(** [l[:i]] *)
Definition slice_to {A} (l : list A) (i : Z) : list A :=
  if 0 <=? i then take (Z.to_nat i) l
  else take (Z.to_nat (Z.of_nat (length l) + i)) l.

(** [l[i]]; [None] stands for [IndexError]. *)
Definition getitem {A} (l : list A) (i : Z) : option A :=
  if 0 <=? i then l !! Z.to_nat i
  else if 0 <=? Z.of_nat (length l) + i then l !! Z.to_nat (Z.of_nat (length l) + i)
  else None.

End Py.

(** ** Batch Planner *)

(** The three locals of the loop of [_build_batches]. *)
Record Plan := mkPlan {
  batches : list (list string);
  cur : list string;
  cur_len : Z
}.

Definition is_empty {A} (l : list A) : bool :=
  match l with [] => true | _ => false end.

(** One iteration of [for u in urls]. *)
Definition plan_step (base_args_len max_cmd_len : Z) (p : Plan) (u : string) : Plan :=
  let add := Py.len u + 1 in
  if negb (is_empty (cur p)) && (max_cmd_len <? cur_len p + add) then
    {| batches := batches p ++ [cur p];
       cur := [u];
       cur_len := base_args_len + Py.len u |}
  else
    {| batches := batches p;
       cur := cur p ++ [u];
       cur_len := cur_len p + add |}.

(** The final [if cur: batches.append(cur)]. *)
Definition plan_flush (p : Plan) : list (list string) :=
  if is_empty (cur p) then batches p else batches p ++ [cur p].

Definition _build_batches (urls : list string) (base_args_len max_cmd_len : Z)
  : list (list string) :=
  plan_flush
    (foldl (plan_step base_args_len max_cmd_len)
       {| batches := []; cur := []; cur_len := base_args_len |} urls).

(** The default of the keyword argument [max_cmd_len]. *)
Definition default_max_cmd_len : Z := 30000.

(** [C + sum(len(u)+1 for u in B)]: the serialised length of an invocation
    with common-argument length [C] and the URLs of [B]. *)
Definition cmd_len (C : Z) (B : list string) : Z :=
  C + foldr (fun u acc => Py.len u + 1 + acc) 0 B.

(** ** The pattern [file_re] of the Output Classifier

    [(?:[A-Za-z]:\\ P+ | / P+) \.(?:jpe?g|png|gif|webp|mp4|webm|mkv|mov|avi)\b]
    compiled with [IGNORECASE | VERBOSE], and its method [search]; [P] is
    the negated class of the pattern, which excludes the colon, the star,
    the question mark, the double quote, the angle brackets, the bar, CR
    and LF.

    The model is the pattern on text of code points below 256.  On other
    text the pattern matches more, which is not modelled: with
    [IGNORECASE] the class of the drive letter and the letters of the
    extensions also match U+0130, U+0131, U+017F and U+212A, and the word
    boundary follows the word characters of all scripts. *)

Module FileRe.

(** [[A-Za-z]] *)
Definition drive_letter (c : ascii) : bool :=
  let n := Py.ord c in Py.between 65 n 90 || Py.between 97 n 122.

(** The negated class [P]. *)
Definition path_char (c : ascii) : bool :=
  negb (bool_decide (c ∈ [":"; "*"; "?"; "034"; "<"; ">"; "|"; Py.CR; Py.LF]%char)).

(** [\w] on the modelled range: the alphanumeric characters and the
    underscore. *)
Definition word_char (c : ascii) : bool :=
  let n := Py.ord c in
  Py.between 48 n 57 || Py.between 65 n 90 || Py.between 97 n 122 || (n =? 95)
  || (n =? 170) || (n =? 181) || (n =? 186)
  || Py.between 178 n 179 || (n =? 185) || Py.between 188 n 190
  || (Py.between 192 n 255 && negb (n =? 215) && negb (n =? 247)).

(** The alternatives of the extension group in the order the matcher
    tries them ([jpe?g] is greedy: [jpeg] before [jpg]). *)
Definition extensions : list string :=
  ["jpeg"; "jpg"; "png"; "gif"; "webp"; "mp4"; "webm"; "mkv"; "mov"; "avi"].

(** A literal of the pattern matched at the head of [s], ignoring case. *)
Fixpoint literal_ci (p s : string) : bool :=
  match p, s with
  | EmptyString, _ => true
  | String a p', String b s' => Ascii.eqb a (Py.lower_char b) && literal_ci p' s'
  | String _ _, EmptyString => false
  end.

Fixpoint drop_chars (n : nat) (s : string) : string :=
  match n, s with
  | S n', String _ s' => drop_chars n' s'
  | _, _ => s
  end.

(** [\b] right after an extension: the text ends or goes on with a
    character that is not a word character. *)
Definition boundary (s : string) : bool :=
  match s with
  | EmptyString => true
  | String c _ => negb (word_char c)
  end.

(** [\.(?:jpe?g|...)\b] at the head of [s]; the number of characters
    matched. *)
Definition ext_at (s : string) : option nat :=
  match s with
  | String "." s' =>
      match find (fun e => literal_ci e s' && boundary (drop_chars (String.length e) s'))
                 extensions with
      | Some e => Some (S (String.length e))
      | None => None
      end
  | _ => None
  end.

(** [P+] followed by the extension: the repetition is
    greedy, so the longest run after which the extension matches wins.
    The result is the number of characters matched. *)
Fixpoint body (s : string) : option nat :=
  match s with
  | EmptyString => None
  | String c s' =>
      if path_char c then
        match body s' with
        | Some n => Some (S n)
        | None => S <$> ext_at s'
        end
      else None
  end.

(** The whole pattern anchored at the head of [s]. *)
Definition match_here (s : string) : option nat :=
  match s with
  | String "/" s' => S <$> body s'
  | String c (String ":" (String "\" s')) =>
      if drive_letter c then (fun n => 3 + n)%nat <$> body s' else None
  | _ => None
  end.

(** [file_re.search(line)], giving [m.group(0)] of the leftmost match. *)
Fixpoint search (s : string) : option string :=
  match match_here s with
  | Some n => Some (String.substring 0 n s)
  | None =>
      match s with
      | EmptyString => None
      | String _ s' => search s'
      end
  end.

End FileRe.

(** ** The engine state *)

(** [self._totals] *)
Record Totals := mkTotals {
  downloaded : nat;
  skipped : nat;
  failed : nat
}.

Definition zero_totals : Totals := mkTotals 0 0 0.

(** The [QProcess] held in [self.proc]: its argument list and whether
    [state() != QProcess.NotRunning]. *)
Record Proc := mkProc {
  arguments : list string;
  running : bool
}.

(** The lines appended to the log widget by [_log]. *)
Inductive LogEntry :=
| LogUpdateCheck (msg : string)          (* written by maybe_check_update *)
| LogSkippedNonUrl (n : nat)             (* Skipped {n} non-URL line(s). *)
| LogRemovedDuplicates (n : Z)           (* Removed {n} duplicate URL(s). *)
| LogQueued (urls nbatches : Z)          (* Queued {urls} URL(s) in {nbatches} batch(es). *)
| LogBatchHeader (i total n : Z)         (* === Batch {i}/{total} - {n} URL(s) === *)
| LogAllDone                             (* All done. *)
| LogStopped                             (* Stopped by user. *)
| LogOutput (text : string)              (* raw tool output *)
| LogBatchFailed (code : Z)              (* Batch failed (exit code {code}) *)
| LogBatchDone (i : Z) (t : Totals).     (* Batch {i} done - totals: ... *)

Record State := mkState {
  proc : option Proc;
  queue : list string;
  _totals : Totals;
  _batch_started_at : Q;
  _batch_urls : list string;
  _batch_index : Z;
  _batches : list (list string);
  _seen_paths : gset string;
  _error_lines : Z;
  (* widgets *)
  sum_totals : Totals;                   (* the three counter labels *)
  sum_progress : Z * Z;                  (* the label done / total *)
  run_btn : bool;                        (* run_btn.isEnabled() *)
  stop_btn : bool;
  log : list LogEntry;
  (* history: every proc.start(), as (common arguments, batch URLs) *)
  started : list (list string * list string)
}.

(** The state built by [__init__] (followed by [_load_settings]). *)
Definition init : State :=
  {| proc := None; queue := []; _totals := zero_totals;
     _batch_started_at := 0%Q; _batch_urls := []; _batch_index := -1;
     _batches := []; _seen_paths := ∅; _error_lines := 0;
     sum_totals := zero_totals; sum_progress := (0, 0);
     run_btn := true; stop_btn := false; log := []; started := [] |}.

(** The result of [os.stat(path)]: the [st_mtime] of the file, the
    exception [FileNotFoundError], or any other exception. *)
Inductive StatResult :=
| StatOk (st_mtime : Q)
| StatNotFound
| StatError.

(** The two attributes that [_clean_urls] reads of a [urlparse] result. *)
Record ParseResult := mkParse {
  scheme : string;
  netloc : string
}.

(** What a handler asks of the outside world while it runs. *)
Record Env := mkEnv {
  urlparse : string -> option ParseResult;   (* [None]: ValueError *)
  os_stat : string -> StatResult;
  time_time : Q;                             (* time.time() *)
  _build_common_args : list string;
  bin_present : bool;
  update_check : list LogEntry               (* what maybe_check_update logs *)
}.

Inductive Exn := ValueError | IndexError.

(** A handler returns with a value or raises; the mutations done on
    [self] before the exception stay. *)
Inductive Res (A : Type) :=
| Ok (a : A) (s : State)
| Raise (e : Exn) (s : State).
Arguments Ok {A} a s.
Arguments Raise {A} e s.

Definition bind {A B} (m : Res A) (k : A -> State -> Res B) : Res B :=
  match m with
  | Ok a s => k a s
  | Raise e s => Raise e s
  end.

Notation "'let*' ( x , s ) := m 'in' k" := (bind m (fun x s => k))
  (at level 10, x name, s name, m at level 100, k at level 200).

(** The state a handler leaves behind, however it ends. *)
Definition final {A} (r : Res A) : State :=
  match r with Ok _ s => s | Raise _ s => s end.

(** *** Field updates *)

Definition set_proc (v : option Proc) (s : State) : State :=
  mkState v (queue s) (_totals s) (_batch_started_at s) (_batch_urls s) (_batch_index s)
    (_batches s) (_seen_paths s) (_error_lines s) (sum_totals s) (sum_progress s)
    (run_btn s) (stop_btn s) (log s) (started s).

Definition set_queue (v : list string) (s : State) : State :=
  mkState (proc s) v (_totals s) (_batch_started_at s) (_batch_urls s) (_batch_index s)
    (_batches s) (_seen_paths s) (_error_lines s) (sum_totals s) (sum_progress s)
    (run_btn s) (stop_btn s) (log s) (started s).

Definition set_totals (v : Totals) (s : State) : State :=
  mkState (proc s) (queue s) v (_batch_started_at s) (_batch_urls s) (_batch_index s)
    (_batches s) (_seen_paths s) (_error_lines s) (sum_totals s) (sum_progress s)
    (run_btn s) (stop_btn s) (log s) (started s).

Definition set_batch (urls : list string) (at_ : Q) (s : State) : State :=
  mkState (proc s) (queue s) (_totals s) at_ urls (_batch_index s)
    (_batches s) (_seen_paths s) (_error_lines s) (sum_totals s) (sum_progress s)
    (run_btn s) (stop_btn s) (log s) (started s).

Definition set_batch_index (v : Z) (s : State) : State :=
  mkState (proc s) (queue s) (_totals s) (_batch_started_at s) (_batch_urls s) v
    (_batches s) (_seen_paths s) (_error_lines s) (sum_totals s) (sum_progress s)
    (run_btn s) (stop_btn s) (log s) (started s).

Definition set_batches (v : list (list string)) (s : State) : State :=
  mkState (proc s) (queue s) (_totals s) (_batch_started_at s) (_batch_urls s) (_batch_index s)
    v (_seen_paths s) (_error_lines s) (sum_totals s) (sum_progress s)
    (run_btn s) (stop_btn s) (log s) (started s).

Definition set_seen_paths (v : gset string) (s : State) : State :=
  mkState (proc s) (queue s) (_totals s) (_batch_started_at s) (_batch_urls s) (_batch_index s)
    (_batches s) v (_error_lines s) (sum_totals s) (sum_progress s)
    (run_btn s) (stop_btn s) (log s) (started s).

Definition set_error_lines (v : Z) (s : State) : State :=
  mkState (proc s) (queue s) (_totals s) (_batch_started_at s) (_batch_urls s) (_batch_index s)
    (_batches s) (_seen_paths s) v (sum_totals s) (sum_progress s)
    (run_btn s) (stop_btn s) (log s) (started s).

Definition set_buttons (run stop : bool) (s : State) : State :=
  mkState (proc s) (queue s) (_totals s) (_batch_started_at s) (_batch_urls s) (_batch_index s)
    (_batches s) (_seen_paths s) (_error_lines s) (sum_totals s) (sum_progress s)
    run stop (log s) (started s).

Definition set_started (v : list (list string * list string)) (s : State) : State :=
  mkState (proc s) (queue s) (_totals s) (_batch_started_at s) (_batch_urls s) (_batch_index s)
    (_batches s) (_seen_paths s) (_error_lines s) (sum_totals s) (sum_progress s)
    (run_btn s) (stop_btn s) (log s) v.

Definition set_log (v : list LogEntry) (s : State) : State :=
  mkState (proc s) (queue s) (_totals s) (_batch_started_at s) (_batch_urls s) (_batch_index s)
    (_batches s) (_seen_paths s) (_error_lines s) (sum_totals s) (sum_progress s)
    (run_btn s) (stop_btn s) v (started s).

(** [self._log(msg)] *)
Definition _log (msg : LogEntry) (s : State) : State := set_log (log s ++ [msg]) s.

(** [self._update_summary_labels(done, total)]: the counter labels show
    the totals of the moment, the progress label shows the pair. *)
Definition _update_summary_labels (done total : Z) (s : State) : State :=
  mkState (proc s) (queue s) (_totals s) (_batch_started_at s) (_batch_urls s) (_batch_index s)
    (_batches s) (_seen_paths s) (_error_lines s) (_totals s) (done, total)
    (run_btn s) (stop_btn s) (log s) (started s).

Definition add_downloaded (t : Totals) : Totals := mkTotals (S (downloaded t)) (skipped t) (failed t).
Definition add_skipped (t : Totals) : Totals := mkTotals (downloaded t) (S (skipped t)) (failed t).
Definition add_failed (t : Totals) : Totals := mkTotals (downloaded t) (skipped t) (S (failed t)).

(** [len(l)] of a list. *)
Definition llen {A} (l : list A) : Z := Z.of_nat (length l).

(** [sum(len(b) for b in bs)] *)
Definition sum_len (bs : list (list string)) : Z :=
  foldr (fun b acc => llen b + acc) 0 bs.

(** [self.proc and self.proc.state() != QProcess.NotRunning] *)
Definition proc_running (s : State) : bool :=
  match proc s with
  | Some p => running p
  | None => false
  end.

(** ** URL Normalizer *)

(** [if ln.startswith("<") and ln.endswith(">"): ln = ln[1:-1].strip()] *)
Definition unbracket (ln : string) : string :=
  if Py.startswith ln "<" && Py.endswith_char ln ">"
  then Py.strip (Py.slice_1_m1 ln) else ln.

(** [p.scheme in ("http", "https") and p.netloc] *)
Definition accepted (p : ParseResult) : bool :=
  (String.eqb (scheme p) "http" || String.eqb (scheme p) "https")
  && negb (String.eqb (netloc p) "").

(** The loop [for ln in lines] of [_clean_urls] with its two locals;
    [None] when [urlparse] raises. *)
Fixpoint clean_loop (parse : string -> option ParseResult) (lines : list string)
    (out : list string) (nskipped : nat) : option (list string * nat) :=
  match lines with
  | [] => Some (out, nskipped)
  | ln :: rest =>
      if String.eqb ln "" then clean_loop parse rest out nskipped
      else
        let ln := unbracket ln in
        match parse ln with
        | None => None
        | Some p =>
            if accepted p then clean_loop parse rest (out ++ [ln]) nskipped
            else clean_loop parse rest out (S nskipped)
        end
  end.

Definition _clean_urls (env : Env) (text : string) (s : State) : Res (list string) :=
  let lines := map Py.strip (Py.splitlines text) in
  match clean_loop (urlparse env) lines [] 0 with
  | None => Raise ValueError s
  | Some (out, nskipped) =>
      Ok out (if Nat.eqb nskipped 0 then s else _log (LogSkippedNonUrl nskipped) s)
  end.

(** One iteration of the loop of [start_run] that removes duplicates while
    preserving order; the locals are [urls] and [seen]. *)
Definition dedupe_step (acc : list string * gset string) (u : string)
  : list string * gset string :=
  if bool_decide (u ∈ acc.2) then acc else (acc.1 ++ [u], acc.2 ∪ {[u]}).

Definition dedupe (urls_raw : list string) : list string :=
  (foldl dedupe_step ([], ∅) urls_raw).1.

(** ** Batch Runner *)

Definition _run_next_batch (env : Env) (s : State) : Res unit :=
  let s := set_batch_index (_batch_index s + 1) s in
  let total_batches := llen (_batches s) in
  if total_batches <=? _batch_index s then
    let s := _log LogAllDone s in
    let s := set_buttons true false s in
    Ok () (_update_summary_labels (llen (queue s)) (llen (queue s)) s)
  else
    match Py.getitem (_batches s) (_batch_index s) with
    | None => Raise IndexError s
    | Some b =>
        let s := set_batch b (time_time env) s in
        let s := set_seen_paths ∅ s in
        let s := set_error_lines 0 s in
        let args := _build_common_args env ++ _batch_urls s in
        let s := set_proc (Some (mkProc args false)) s in
        let s := _log (LogBatchHeader (_batch_index s + 1) total_batches (llen (_batch_urls s))) s in
        (* self.proc.start() *)
        let s := set_proc (Some (mkProc args true)) s in
        Ok () (set_started (started s ++ [(_build_common_args env, _batch_urls s)]) s)
    end.

(** The slot of the signal [finished]; [exit_code] is what
    [self.proc.exitCode()] answers. *)
Definition _finished_batch (env : Env) (exit_code : Z) (s : State) : Res unit :=
  let code := match proc s with Some _ => exit_code | None => 0 end in
  let s := if negb (code =? 0)
           then _log (LogBatchFailed code) (set_totals (add_failed (_totals s)) s)
           else s in
  let done_urls := sum_len (Py.slice_to (_batches s) (_batch_index s + 1)) in
  let s := _update_summary_labels done_urls (llen (queue s)) s in
  let s := set_proc None s in
  let s := set_seen_paths ∅ s in
  let s := set_error_lines 0 s in
  let s := _log (LogBatchDone (_batch_index s + 1) (_totals s)) s in
  _run_next_batch env s.

(** What [self.proc.waitForFinished(1500)] does in [stop_run].  The call
    blocks until the process has finished and the signal [finished] has
    been emitted, and then answers [True]; the slot connected to the signal
    in [_run_next_batch], [_finished_batch], runs inside the call.  Or the
    1500 ms pass, and it answers [False]. *)
Inductive WaitResult :=
| WaitFinished (exit_code : Z)
| WaitTimedOut.

(** A slot that raises does not unwind the code that emitted the signal. *)
Definition emit {A} (slot : State -> Res A) (s : State) : State := final (slot s).

Definition stop_run (env : Env) (w : WaitResult) (s : State) : Res unit :=
  let s :=
    if proc_running s then
      (* self.proc.terminate() *)
      let s := match w with
               | WaitFinished exit_code => emit (_finished_batch env exit_code) s
               | WaitTimedOut => (* self.proc.kill() *) s
               end in
      _log LogStopped s
    else s in
  let s := set_queue [] s in
  let s := set_batches [] s in
  let s := set_buttons true false s in
  Ok () (_update_summary_labels 0 0 s).

(** [self.maybe_check_update()]: of the engine state it touches the log
    only. *)
Definition maybe_check_update (env : Env) (s : State) : State :=
  foldl (fun s msg => _log msg s) s (update_check env).

Definition start_run (env : Env) (text : string) (s : State) : Res unit :=
  if negb (bin_present env) then Ok () s
  else
    let s := maybe_check_update env s in
    let* (urls_raw, s) := _clean_urls env text s in
    if is_empty urls_raw then Ok () s
    else
      let urls := dedupe urls_raw in
      let s := if negb (llen urls =? llen urls_raw)
               then _log (LogRemovedDuplicates (llen urls_raw - llen urls)) s
               else s in
      if proc_running s then Ok () s
      else
        let s := set_queue urls s in
        let s := set_totals zero_totals s in
        let s := set_seen_paths ∅ s in
        let s := set_error_lines 0 s in
        let s := set_buttons false true s in
        let s := set_batches
                   (_build_batches urls (Py.len (Py.join " " (_build_common_args env)))
                      default_max_cmd_len) s in
        let s := set_batch_index (-1) s in
        let s := _update_summary_labels 0 (llen (queue s)) s in
        let s := _log (LogQueued (llen (queue s)) (llen (_batches s))) s in
        _run_next_batch env s.

(** ** Output Classifier *)

(** The test on [low] at the head of the loop of [_read_output]. *)
Definition is_error_line (low : string) : bool :=
  Py.contains "error:" low || Py.contains "http error" low
  || Py.contains "forbidden" low || Py.contains "not found" low.

(** [st.st_mtime < (self._batch_started_at + 0.5)] *)
Definition predates (st_mtime batch_started_at : Q) : bool :=
  match (st_mtime ?= batch_started_at + (1 # 2))%Q with
  | Lt => true
  | _ => false
  end.

(** The [try] statement around [os.stat]. *)
Definition probe (env : Env) (path : string) (s : State) : State :=
  match os_stat env path with
  | StatOk st_mtime =>
      if predates st_mtime (_batch_started_at s)
      then set_totals (add_skipped (_totals s)) s
      else set_totals (add_downloaded (_totals s)) s
  | StatNotFound => set_totals (add_downloaded (_totals s)) s
  | StatError => set_totals (add_skipped (_totals s)) s
  end.

(** [sum(len(b) for b in self._batches[: self._batch_index])] *)
Definition done_urls (s : State) : Z :=
  sum_len (Py.slice_to (_batches s) (_batch_index s)).

(** The body of [for raw in data.splitlines()]. *)
Definition classify (env : Env) (s : State) (raw : string) : State :=
  let line := Py.strip raw in
  let low := Py.lower line in
  if is_error_line low then
    let s := set_error_lines (_error_lines s + 1) s in
    let s := set_totals (add_failed (_totals s)) s in
    _update_summary_labels (done_urls s) (llen (queue s)) s
  else
    match FileRe.search line with
    | None => s
    | Some path =>
        if bool_decide (path ∈ _seen_paths s) then s
        else
          let s := set_seen_paths (_seen_paths s ∪ {[path]}) s in
          let s := probe env path s in
          _update_summary_labels (done_urls s) (llen (queue s)) s
    end.

(** The slot of [readyReadStandardOutput]; [data] is the decoded text that
    [readAllStandardOutput] hands over. *)
Definition _read_output (env : Env) (data : string) (s : State) : State :=
  match proc s with
  | None => s
  | Some _ =>
      if String.eqb data "" then s
      else
        let s := _log (LogOutput (Py.rstrip_char Py.LF data)) s in
        foldl (classify env) s (Py.splitlines data)
  end.

(** ** The event loop *)

(** What the toolkit delivers to the widget: a click on Run (with the text
    of the URL box), a click on Stop, a chunk of process output, the end
    of the process. *)
Inductive Event :=
| Run (text : string)
| Stop (w : WaitResult)
| ReadyRead (data : string)
| Finished (exit_code : Z).

Definition handle (s : State) (ev : Env * Event) : State :=
  match ev.2 with
  | Run text => emit (start_run ev.1 text) s
  | Stop w => emit (stop_run ev.1 w) s
  | ReadyRead data => _read_output ev.1 data s
  | Finished exit_code => emit (_finished_batch ev.1 exit_code) s
  end.

Definition run_events (s : State) (evs : list (Env * Event)) : State :=
  foldl handle s evs.

(** ** A sample world

    An [Env] to run the engine on concrete inputs.  [Sample.urlparse] reads
    the scheme and the network location off a URL the way
    [urllib.parse.urlparse] does for text without control characters:
    the scheme is what precedes the first colon when that is a letter
    followed by letters, digits, [+], [-] or [.]; the network location
    follows [//] and ends before the first [/], [?] or [#]; a square
    bracket without its partner raises [ValueError]. *)

Module Sample.

Definition scheme_char (c : ascii) : bool :=
  let n := Py.ord c in
  Py.between 48 n 57 || Py.between 65 n 90 || Py.between 97 n 122
  || bool_decide (c ∈ ["+"; "-"; "."]%char).

Fixpoint all_chars (f : ascii -> bool) (s : string) : bool :=
  match s with
  | EmptyString => true
  | String c s' => f c && all_chars f s'
  end.

(** [url.partition(":")] when the colon is there. *)
Fixpoint split_colon (acc s : string) : option (string * string) :=
  match s with
  | EmptyString => None
  | String c s' =>
      if Ascii.eqb c ":" then Some (acc, s')
      else split_colon (acc +:+ String c EmptyString) s'
  end.

Fixpoint take_netloc (s : string) : string :=
  match s with
  | EmptyString => EmptyString
  | String c s' =>
      if bool_decide (c ∈ ["/"; "?"; "#"]%char) then EmptyString
      else String c (take_netloc s')
  end.

Definition urlparse (url : string) : option ParseResult :=
  let '(sch, rest) :=
    match split_colon EmptyString url with
    | Some (String c pre, post) =>
        if FileRe.drive_letter c && all_chars scheme_char pre
        then (Py.lower (String c pre), post)
        else (EmptyString, url)
    | _ => (EmptyString, url)
    end in
  let nl :=
    match rest with
    | String "/" (String "/" rest') => take_netloc rest'
    | _ => EmptyString
    end in
  if xorb (Py.contains "[" nl) (Py.contains "]" nl) then None
  else Some (mkParse sch nl).

(** A file system with one fresh file, one old file and one unreadable
    path; the clock reads 1000 s. *)
Definition os_stat (path : string) : StatResult :=
  if String.eqb path "/tmp/out/photo.jpg" then StatOk (1001 # 1)
  else if String.eqb path "/tmp/out/old.png" then StatOk (10 # 1)
  else if String.eqb path "/root/secret.gif" then StatError
  else StatNotFound.

Definition env : Env :=
  mkEnv urlparse os_stat (1000 # 1)
    ["--user-agent"; "browser"; "-d"; "/tmp/out"] true [].

Definition NL : string := String Py.LF EmptyString.

(** Scenario A of the specification. *)
Definition scenario_a : string :=
  "https://example.com/a" +:+ NL +:+ "not a url" +:+ NL +:+ "https://example.com/a".

Fixpoint repeat_char (c : ascii) (n : nat) : string :=
  match n with
  | O => EmptyString
  | S n' => String c (repeat_char c n')
  end.

(** 240 URLs, all of different lengths: more than one invocation can
    take. *)
Definition post_url (i : nat) : string :=
  "https://example.com/p/" +:+ repeat_char "a" (S i).

Definition gallery : list string := post_url <$> seq 0 240.

(** The text of the URL box: one URL of the gallery per line. *)
Definition gallery_text : string := Py.join NL gallery.

(** The state while the only batch of a one-URL run is executing. *)
Definition one_batch_running : State :=
  run_events init [(env, Run "https://example.com/a")].

End Sample.

(** ** Version helpers *)

(** More of Python's [str] and [list], as the version helpers use them. *)
Module PyMore.

(** [s.split(sep)] for a one-character [sep], with the piece being read
    kept in [acc]. *)
Fixpoint split_from (sep : ascii) (acc s : string) : list string :=
  match s with
  | EmptyString => [acc]
  | String c s' =>
      if Ascii.eqb c sep then acc :: split_from sep EmptyString s'
      else split_from sep (acc +:+ String c EmptyString) s'
  end.

Definition split (sep : ascii) (s : string) : list string := split_from sep EmptyString s.

(** [s.split(sep, 1)[0]]: the text before the first [sep]. *)
Fixpoint before (sep : ascii) (s : string) : string :=
  match s with
  | EmptyString => EmptyString
  | String c s' => if Ascii.eqb c sep then EmptyString else String c (before sep s')
  end.

(** The characters [0] to [9]. *)
Definition decimal (c : ascii) : bool := Py.between 48 (Py.ord c) 57.

(** [str.isdigit] on one character: the decimal digits and the superscript
    digits one, two and three. *)
Definition isdigit_char (c : ascii) : bool :=
  let n := Py.ord c in Py.between 48 n 57 || Py.between 178 n 179 || (n =? 185).

Fixpoint all_chars (f : ascii -> bool) (s : string) : bool :=
  match s with
  | EmptyString => true
  | String c s' => f c && all_chars f s'
  end.

(** [x.isdigit()] *)
Definition isdigit (x : string) : bool :=
  negb (String.eqb x EmptyString) && all_chars isdigit_char x.

Fixpoint int_from (acc : Z) (x : string) : option Z :=
  match x with
  | EmptyString => Some acc
  | String c x' => if decimal c then int_from (10 * acc + (Py.ord c - 48)) x' else None
  end.

(** CPython's default limit on the digits of a converted string. *)
Definition max_str_digits : Z := 4300.

(** [int(x)] for a string [x] of digit characters; [None] stands for
    [ValueError], which a superscript digit raises, and so does a string
    of more than [max_str_digits] digits. *)
Definition int (x : string) : option Z :=
  if String.eqb x EmptyString then None
  else if max_str_digits <? Py.len x then None
  else int_from 0 x.

(** [a > b] on lists of integers. *)
Fixpoint list_gt (a b : list Z) : bool :=
  match a, b with
  | [], _ => false
  | _ :: _, [] => true
  | x :: a', y :: b' => if x =? y then list_gt a' b' else y <? x
  end.

End PyMore.

(** [[int(x) for x in xs]]; the first [ValueError] ends it. *)
Fixpoint ints (xs : list string) : option (list Z) :=
  match xs with
  | [] => Some []
  | x :: xs' =>
      match PyMore.int x with
      | None => None
      | Some n =>
          match ints xs' with
          | None => None
          | Some l => Some (n :: l)
          end
      end
  end.

(** The local function [parts] of [is_newer]. *)
Definition parts (v : string) : option (list Z) :=
  ints (List.filter PyMore.isdigit (PyMore.split "." (PyMore.before "-" v))).

(** [is_newer(ver_local, ver_remote)]: the remote parts are computed
    first; any exception gives [False]. *)
Definition is_newer (ver_local ver_remote : string) : bool :=
  match parts ver_remote with
  | None => false
  | Some r =>
      match parts ver_local with
      | None => false
      | Some l => PyMore.list_gt r l
      end
  end.

(** The pattern [_re_ver] and its method [search]: between two word
    boundaries, two or more runs of decimal digits separated by single
    dots.  Each run of digits is taken whole (a shorter one
    would be followed by a digit, where neither a dot nor a word boundary
    matches); the groups after the second are given up from the right
    until a word boundary follows.

    The model is the pattern on text of code points below 256, where the
    digit class is [0] to [9].  On other text the digit class also holds
    the decimal digits of other scripts, which is not modelled. *)
Module VerRe.

Inductive phase :=
| First      (* in the first run of digits *)
| Dot1       (* after the first dot *)
| Later      (* in a later run of digits *)
| DotN.      (* after a later dot *)

(** The match anchored at the head of the text, read from [pos] on in
    phase [ph]; [best] is the length of the longest match found so far
    that a word boundary follows. *)
Fixpoint scan (s : string) (ph : phase) (best : option nat) (pos : nat) : option nat :=
  match s with
  | EmptyString => match ph with Later => Some pos | _ => best end
  | String c s' =>
      match ph with
      | First =>
          if PyMore.decimal c then scan s' First best (S pos)
          else if Ascii.eqb c "." then scan s' Dot1 best (S pos)
          else None
      | Dot1 =>
          if PyMore.decimal c then scan s' Later best (S pos) else None
      | Later =>
          if PyMore.decimal c then scan s' Later best (S pos)
          else if Ascii.eqb c "." then scan s' DotN (Some pos) (S pos)
          else if FileRe.word_char c then best
          else Some pos
      | DotN =>
          if PyMore.decimal c then scan s' Later best (S pos) else best
      end
  end.

Definition match_here (s : string) : option nat :=
  match s with
  | String c _ => if PyMore.decimal c then scan s First None 0 else None
  | EmptyString => None
  end.

(** The leftmost match; [prev_word] tells whether the character before
    the head is a word character, in which case no match starts here. *)
Fixpoint search_from (prev_word : bool) (s : string) : option string :=
  match s with
  | EmptyString => None
  | String c s' =>
      match (if prev_word then None else match_here s) with
      | Some n => Some (String.substring 0 n s)
      | None => search_from (FileRe.word_char c) s'
      end
  end.

Definition search (s : string) : option string := search_from false s.

End VerRe.

(** [parse_version(text)]; [text] may be [None]. *)
Definition parse_version (text : option string) : option string :=
  VerRe.search (default EmptyString text).

(** ** The options of a run *)

Module Ui.

(** The widgets that [_build_common_args] reads, by what they hold. *)
Record Options := mkOptions {
  ua_use_browser : bool;        (* QCheckBox.isChecked() *)
  ua_edit : string;             (* QLineEdit.text() *)
  cookies_file_edit : string;
  output_dir_edit : string;
  filter_combo : string;        (* QComboBox.currentText() *)
  retries_spin : Z;             (* QSpinBox.value() *)
  timeout_spin : Z;
  sleep_spin : Z
}.

(** [self.ua_use_browser.setChecked(True)] *)
Definition check_ua_use_browser (w : Options) : Options :=
  mkOptions true (ua_edit w) (cookies_file_edit w) (output_dir_edit w)
            (filter_combo w) (retries_spin w) (timeout_spin w) (sleep_spin w).

(** [str(n)] on an integer. *)
Definition str (n : Z) : string := NilZero.string_of_int (Z.to_int n).

(** [args += [flag, value]] under a condition. *)
Definition add_if (cond : bool) (flag value : string) (args : list string) : list string :=
  if cond then args ++ [flag; value] else args.

(** [self._build_common_args()].  Beside the arguments it gives whether
    the warning box was shown, and the widgets, whose check box it may
    have set; [downloads] is the default output folder,
    [str(user_downloads_dir() / "gallery-dl")]. *)
Definition _build_common_args (downloads : string) (w : Options)
    : list string * bool * Options :=
  let '(args, warned, w) :=
    if ua_use_browser w then (["--user-agent"; "browser"], false, w)
    else
      let ua := Py.strip (ua_edit w) in
      if String.eqb ua "" then (["--user-agent"; "browser"], true, check_ua_use_browser w)
      else (["--user-agent"; ua], false, w) in
  let cookies_file := Py.strip (cookies_file_edit w) in
  let args := add_if (negb (String.eqb cookies_file "")) "--cookies" cookies_file args in
  let out_dir := Py.strip (output_dir_edit w) in
  let out_dir := if String.eqb out_dir "" then downloads else out_dir in
  let args := args ++ ["-d"; out_dir] in
  let flt := filter_combo w in
  let args :=
    if String.eqb flt "Images" then args ++ ["--filter"; "extension in ('jpg','jpeg','png')"]
    else if String.eqb flt "Videos" then args ++ ["--filter"; "extension in ('mp4','webm')"]
    else args in
  let retries := retries_spin w in
  let args := add_if (negb (retries =? 0)) "--retries" (str retries) args in
  let timeout := timeout_spin w in
  let args := add_if (negb (timeout =? 0)) "--http-timeout" (str timeout) args in
  let sleep := sleep_spin w in
  let args := add_if (negb (sleep =? 0)) "--sleep-request" (str sleep) args in
  (args, warned, w).

(** The options of gallery-dl that the function may give, in its order. *)
Definition flags : list string :=
  ["--user-agent"; "--cookies"; "-d"; "--filter"; "--retries"; "--http-timeout";
   "--sleep-request"].

(** A list of options with their values, as command line arguments. *)
Definition flatten (ps : list (string * string)) : list string :=
  flat_map (fun p => [fst p; snd p]) ps.

End Ui.

(** ** Loading URLs into the box *)

Module Box.

(** The truth value of a string. *)
Definition nonempty (ln : string) : bool := negb (String.eqb ln "").

(** [[ln.strip() for ln in lines if ln.strip()]] *)
Definition stripped (lines : list string) : list string :=
  map Py.strip (List.filter (fun ln => nonempty (Py.strip ln)) lines).

(** [s.endswith(suffix)] *)
Fixpoint endswith (s suffix : string) : bool :=
  String.eqb s suffix ||
  match s with
  | EmptyString => false
  | String _ s' => endswith s' suffix
  end.

Definition NBSP : ascii := "160"%char.

(** [self.urls.toPlainText()] on the document [doc] of the URL box, the
    text that [setPlainText] was given or that the user typed: as the
    toolkit documents it, a no-break space comes back as a space.  (The
    separators U+2028 and U+2029, which come back as line feeds, lie
    outside the modelled range.) *)
Fixpoint toPlainText (doc : string) : string :=
  match doc with
  | EmptyString => EmptyString
  | String c doc' =>
      String (if Ascii.eqb c NBSP then " "%char else c) (toPlainText doc')
  end.

(** What the user is told. *)
Inductive Notice :=
| Loaded (n : Z) (name : string)   (* log: Loaded n URL(s) from name *)
| ReadFailed                       (* the message box of load_txt *)
| DropFailed                       (* log: Failed to read dropped file *)
| Added (n : Z).                   (* log: Added n URL(s) via drag-and-drop. *)

(** [load_txt].  [picked] is [None] when the dialog gave no path;
    otherwise it holds the base name of the path and what reading gave:
    the lines of [f.readlines()], or [None] for an exception.  [doc] is
    the document of the URL box; the result is the document after the
    call (what [setPlainText] was given, when it was called) and the
    notices. *)
Definition load_txt (picked : option (string * option (list string))) (doc : string)
    : string * list Notice :=
  match picked with
  | None => (doc, [])
  | Some (name, None) => (doc, [ReadFailed])
  | Some (name, Some lines) =>
      let new_lines := map Py.strip lines in
      let existing := stripped (Py.splitlines (toPlainText doc)) in
      let merged :=
        existing ++ List.filter (fun ln => nonempty ln && negb (bool_decide (ln ∈ existing)))
                                new_lines in
      (Py.join (String Py.LF "") merged, [Loaded (llen new_lines) name])
  end.

(** One URL of the dropped data; [content] is what reading the file gives,
    its lines or [None] for an exception. *)
Record DroppedUrl := mkDroppedUrl {
  isLocalFile : bool;
  toLocalFile : string;
  content : option (list string)
}.

(** The dropped data; [text] is [None] when [hasText()] is false. *)
Record MimeData := mkMimeData {
  urls : list DroppedUrl;
  text : option string
}.

(** The loop of [dropEvent] over [md.urls()]. *)
Definition drop_step (acc : list string * list Notice) (u : DroppedUrl)
    : list string * list Notice :=
  let '(added, notes) := acc in
  if isLocalFile u then
    if endswith (Py.lower (toLocalFile u)) ".txt" then
      match content u with
      | Some lines => (added ++ stripped lines, notes)
      | None => (added, notes ++ [DropFailed])
      end
    else (added, notes)
  else (added, notes).

(** [dropEvent], on the document [doc] of the URL box. *)
Definition dropEvent (md : MimeData) (doc : string) : string * list Notice :=
  let '(added, notes) := foldl drop_step ([], []) (urls md) in
  let added :=
    match text md with
    | Some t => added ++ stripped (Py.splitlines t)
    | None => added
    end in
  match added with
  | [] => (doc, notes)
  | _ :: _ =>
      let existing := stripped (Py.splitlines (toPlainText doc)) in
      let dedup := existing ++ List.filter (fun ln => negb (bool_decide (ln ∈ existing))) added in
      (Py.join (String Py.LF "") dedup, notes ++ [Added (llen added)])
  end.

End Box.

(** * Invariants and specification-level notions *)

(** ** Batch Planner *)

(** The URLs held by a plan, closed batches first. *)
Definition plan_urls (p : Plan) : list string := concat (batches p) ++ cur p.

(** No closed batch is empty. *)
Definition closed_nonempty (p : Plan) : Prop := Forall (λ B, B ≠ []) (batches p).

(** The batch that will come first in the result. *)
Definition first_batch (p : Plan) : option (list string) := head (batches p ++ [cur p]).

(** While the first batch is being filled the running total is its
    serialised length, and a first batch of two or more URLs fits. *)
Definition first_fits (base_args_len max_cmd_len : Z) (p : Plan) : Prop :=
  (batches p = [] → cur_len p = cmd_len base_args_len (cur p)) ∧
  (∀ B, first_batch p = Some B → (2 ≤ length B)%nat → cmd_len base_args_len B ≤ max_cmd_len).

(** ** Batch Runner *)

(** Every planned batch and every process started so far holds a URL. *)
Definition launches_ok (s : State) : Prop :=
  Forall (λ B, B ≠ []) (_batches s) ∧ Forall (λ l : list string * list string, l.2 ≠ []) (started s).

(** The state of an aborted run: nothing queued, nothing planned, the
    progress label reads 0 / 0. *)
Definition aborted (s : State) : Prop :=
  queue s = [] ∧ _batches s = [] ∧ sum_progress s = (0, 0).

Definition is_run (ev : Env * Event) : bool :=
  match ev.2 with Run _ => true | _ => false end.

(** The state of [stop_run] after its [if] statement. *)
Definition stop_pre (env : Env) (w : WaitResult) (s : State) : State :=
  if proc_running s then
    _log LogStopped (match w with
                     | WaitFinished exit_code => emit (_finished_batch env exit_code) s
                     | WaitTimedOut => s
                     end)
  else s.

(** The exit code that [_finished_batch] goes by. *)
Definition seen_code (exit_code : Z) (s : State) : Z :=
  match proc s with Some _ => exit_code | None => 0 end.

(** The totals after the test on the exit code. *)
Definition finished_totals (exit_code : Z) (s : State) : Totals :=
  if negb (seen_code exit_code s =? 0) then add_failed (_totals s) else _totals s.

(** The state of [_finished_batch] when it calls [_run_next_batch]. *)
Definition finished_pre (exit_code : Z) (s : State) : State :=
  mkState None (queue s) (finished_totals exit_code s) (_batch_started_at s) (_batch_urls s)
    (_batch_index s) (_batches s) ∅ 0 (finished_totals exit_code s)
    (sum_len (Py.slice_to (_batches s) (_batch_index s + 1)), llen (queue s))
    (run_btn s) (stop_btn s)
    (log s ++ (if negb (seen_code exit_code s =? 0)
               then [LogBatchFailed (seen_code exit_code s)] else [])
           ++ [LogBatchDone (_batch_index s + 1) (finished_totals exit_code s)])
    (started s).

(** The three ways [_run_next_batch] ends: no batch is left, the next
    batch [b] is started, or indexing raises. *)
Definition all_done (s : State) : State :=
  mkState (proc s) (queue s) (_totals s) (_batch_started_at s) (_batch_urls s)
    (_batch_index s + 1) (_batches s) (_seen_paths s) (_error_lines s)
    (_totals s) (llen (queue s), llen (queue s)) true false
    (log s ++ [LogAllDone]) (started s).

Definition launched (env : Env) (b : list string) (s : State) : State :=
  mkState (Some (mkProc (_build_common_args env ++ b) true))
    (queue s) (_totals s) (time_time env) b (_batch_index s + 1)
    (_batches s) ∅ 0 (sum_totals s) (sum_progress s) (run_btn s) (stop_btn s)
    (log s ++ [LogBatchHeader (_batch_index s + 2) (llen (_batches s)) (llen b)])
    (started s ++ [(_build_common_args env, b)]).

(** The state of [start_run] when it calls [_run_next_batch], for the
    accepted lines [out] and [nskipped] rejected ones. *)
Definition queued (env : Env) (out : list string) (nskipped : nat) (s : State) : State :=
  let urls := dedupe out in
  let bs := _build_batches urls (Py.len (Py.join " " (_build_common_args env)))
              default_max_cmd_len in
  mkState (proc s) urls zero_totals (_batch_started_at s) (_batch_urls s) (-1) bs ∅ 0
    zero_totals (0, llen urls) false true
    (log s ++ update_check env
       ++ (if Nat.eqb nskipped 0 then [] else [LogSkippedNonUrl nskipped])
       ++ (if negb (llen urls =? llen out)
           then [LogRemovedDuplicates (llen out - llen urls)] else [])
       ++ [LogQueued (llen urls) (llen bs)])
    (started s).

(** The fields that the classifier never writes. *)
Definition runner_view (s : State)
  : option Proc * list string * Q * list string * Z * list (list string) * (bool * bool)
    * list LogEntry * list (list string * list string) :=
  (proc s, queue s, _batch_started_at s, _batch_urls s, _batch_index s, _batches s,
   (run_btn s, stop_btn s), log s, started s).

(** ** URL Normalizer *)

Definition nonblank (ln : string) : bool := negb (String.eqb ln "").

(** The lines that reach [urlparse]: the trimmed lines that are not
    empty, without their angle brackets. *)
Definition candidates (text : string) : list string :=
  map unbracket (List.filter nonblank (map Py.strip (Py.splitlines text))).

(** A candidate is a URL when [urlparse] gives it the scheme http or https
    and a network location. *)
Definition is_url (parse : string -> option ParseResult) (u : string) : bool :=
  match parse u with
  | Some p => accepted p
  | None => false
  end.






(** The invariant of the de-duplication loop: [seen] holds what [urls]
    holds, and [urls] has no duplicate. *)
Definition dedupe_inv (acc : list string * gset string) : Prop :=
  NoDup acc.1 ∧ ∀ u, u ∈ acc.2 ↔ u ∈ acc.1.

(** ** Output Classifier *)

(** The text of the needles of the error test. *)
Definition error_needles : list string := ["error:"; "http error"; "forbidden"; "not found"].

(** The chunks of a process stream handed one by one to [_read_output]. *)
Definition feed (env : Env) (chunks : list string) (s : State) : State :=
  foldl (λ st data, _read_output env data st) s chunks.

(** The text of a stream of chunks. *)
Definition text_of (chunks : list string) : string := foldr String.append EmptyString chunks.

(** A chunk that stops at the end of a line. *)
Definition ends_line (data : string) : Prop := Py.endswith_char data Py.LF = true.

(** What classification leaves in the aggregator: the counters, the
    per-batch helpers and the summary labels. *)
Definition outcome (s : State) : Totals * Z * gset string * Totals * (Z * Z) :=
  (_totals s, _error_lines s, _seen_paths s, sum_totals s, sum_progress s).

(** The totals after the [try] statement around [os.stat]. *)
Definition probe_totals (env : Env) (path : string) (s : State) : Totals :=
  match os_stat env path with
  | StatOk st_mtime =>
      if predates st_mtime (_batch_started_at s)
      then add_skipped (_totals s) else add_downloaded (_totals s)
  | StatNotFound => add_downloaded (_totals s)
  | StatError => add_skipped (_totals s)
  end.

(** The state after a line was counted: new totals, new seen paths and
    error-line count, labels brought up to date. *)
Definition counted (t : Totals) (seen : gset string) (nerr : Z) (s : State) : State :=
  mkState (proc s) (queue s) t (_batch_started_at s) (_batch_urls s) (_batch_index s)
    (_batches s) seen nerr t (done_urls s, llen (queue s))
    (run_btn s) (stop_btn s) (log s) (started s).

(** The chunks of a batch handed to [_read_output], each with the world
    as it is when the chunk arrives. *)
Definition feed_in (chunks : list (Env * string)) (s : State) : State :=
  foldl (λ st d, _read_output d.1 d.2 st) s chunks.

(** ** Further notions *)

(** The running total never lags the serialised length of the open batch
    by more than the one separator that a seeded batch leaves out; an open
    batch of two or more URLs was tested against the budget; closed
    batches of two or more URLs are at most one over it. *)
Definition near_budget (C M : Z) (p : Plan) : Prop :=
  cmd_len C (cur p) ≤ cur_len p + 1 ∧
  ((2 ≤ length (cur p))%nat → cur_len p ≤ M) ∧
  Forall (λ B, (2 ≤ length B)%nat → cmd_len C B ≤ M + 1) (batches p).

(** What the engine keeps true of its plan and its progress label. *)
Definition consistent (s : State) : Prop :=
  concat (_batches s) = queue s ∧ NoDup (queue s) ∧
  0 ≤ (sum_progress s).1 ≤ (sum_progress s).2.

(** No counter of [t] is above its counterpart in [t']. *)
Definition totals_le (t t' : Totals) : Prop :=
  (downloaded t ≤ downloaded t')%nat ∧ (skipped t ≤ skipped t')%nat ∧
  (failed t ≤ failed t')%nat.

(** The lines of a chunk that the classifier takes for errors. *)
Definition error_count (lines : list string) : nat :=
  length (List.filter (λ raw, is_error_line (Py.lower (Py.strip raw))) lines).

(** An event of a run that nobody interrupts: output or the end of a
    process. *)
Definition is_progress (ev : Env * Event) : bool :=
  match ev.2 with ReadyRead _ | Finished _ => true | _ => false end.

Definition is_finished (ev : Env * Event) : bool :=
  match ev.2 with Finished _ => true | _ => false end.

(** A run of the plan [bs] over the queue [q] in which the processes
    started since [st0] are the first batches of the plan, one more than
    have finished. *)
Definition running_plan (bs : list (list string)) (q : list string)
    (st0 : list (list string)) (s : State) : Prop :=
  0 ≤ _batch_index s ∧ _batches s = bs ∧ queue s = q ∧
  (started s).*2 = st0 ++ take (Z.to_nat (_batch_index s + 1)) bs ∧
  (llen bs ≤ _batch_index s →
     proc s = None ∧ sum_progress s = (llen q, llen q) ∧ run_btn s = true ∧ stop_btn s = false).

(** A non-empty run of the characters [0] to [9]. *)
Definition digits (x : string) : bool :=
  negb (String.eqb x EmptyString) && PyMore.all_chars PyMore.decimal x.

(** The texts that take the pattern [_re_ver] from phase [ph] to its end:
    runs of digits separated by single dots, closed by a run of digits
    other than the first. *)
Fixpoint accepts (ph : VerRe.phase) (t : string) : bool :=
  match t with
  | EmptyString => match ph with VerRe.Later => true | _ => false end
  | String c t' =>
      match ph with
      | VerRe.First =>
          if PyMore.decimal c then accepts VerRe.First t'
          else Ascii.eqb c "." && accepts VerRe.Dot1 t'
      | VerRe.Later =>
          if PyMore.decimal c then accepts VerRe.Later t'
          else Ascii.eqb c "." && accepts VerRe.DotN t'
      | VerRe.Dot1 | VerRe.DotN => PyMore.decimal c && accepts VerRe.Later t'
      end
  end.

(** A text without a line boundary. *)
Definition one_line (s : string) : bool :=
  PyMore.all_chars (fun c => negb (Py.islinebreak c)) s.

(** A line as the URL box keeps it: not empty, without a line boundary,
    and stripped. *)
Definition kept_line (x : string) : Prop :=
  Box.nonempty x = true ∧ one_line x = true ∧ Py.strip x = x.

(** A text without a no-break space. *)
Definition plain (s : string) : bool :=
  PyMore.all_chars (fun c => negb (Ascii.eqb c Box.NBSP)) s.

(** A line that comes back from the URL box as it went in. *)
Definition stable_line (x : string) : Prop := kept_line x ∧ plain x = true.

(** A path as [file_re] finds it: a root, a stem of characters of the
    class [P], a dot and an extension of the list, in any case. *)
Definition media_path (p : string) : Prop :=
  ∃ root stem ext,
    p = root +:+ stem +:+ String "." ext ∧
    (root = "/" ∨ ∃ c, FileRe.drive_letter c = true ∧ root = String c ":\") ∧
    stem ≠ "" ∧ PyMore.all_chars FileRe.path_char stem = true ∧
    Py.lower ext ∈ FileRe.extensions.

(** The labels are up to date: the counters shown are the totals, and the
    total shown in the progress label is the length of the queue. *)
Definition labels_fresh (s : State) : Prop :=
  sum_totals s = _totals s ∧ (sum_progress s).2 = llen (queue s).

(** A text given by its code points.  The [str] methods and the two
    patterns are written out for code points below 256; what the
    patterns do with text beyond that range (where the digit class also
    holds the decimal digits of other scripts, and where ignoring case
    lets letters of the patterns match U+0130, U+0131, U+017F and U+212A)
    is not modelled. *)
Module Latin1.

Definition in_range (cps : list Z) : bool :=
  forallb (fun c => (0 <=? c) && (c <? 256)) cps.

Definition text (cps : list Z) : string :=
  fold_right (fun c s => String (Py.chr c) s) EmptyString cps.

End Latin1.

(** * Properties *)

(** ** Batch Planner *)

Section Planner.

Variables base_args_len max_cmd_len : Z.

Local Abbreviation step := (plan_step base_args_len max_cmd_len).
Local Abbreviation first_fits := (first_fits base_args_len max_cmd_len).

Lemma is_empty_true {A} (l : list A) : is_empty l = true ↔ l = [].
Proof. by destruct l. Qed.

Lemma is_empty_false {A} (l : list A) : is_empty l = false ↔ l ≠ [].
Proof. by destruct l. Qed.

Lemma plan_step_urls p u : plan_urls (step p u) = plan_urls p ++ [u].
Proof.
  unfold plan_urls, plan_step.
  destruct (negb (is_empty (cur p)) && _); simpl.
  - by rewrite concat_app, <- !app_assoc; simpl; rewrite app_nil_r.
  - by rewrite app_assoc.
Qed.

Lemma plan_fold_urls urls p : plan_urls (foldl step p urls) = plan_urls p ++ urls.
Proof.
  revert p; induction urls as [|u urls IH]; intros p; simpl.
  - by rewrite app_nil_r.
  - by rewrite IH, plan_step_urls, <- app_assoc.
Qed.

Lemma plan_flush_urls p : concat (plan_flush p) = plan_urls p.
Proof.
  unfold plan_flush, plan_urls.
  destruct (cur p); simpl; [by rewrite app_nil_r|].
  by rewrite concat_app; simpl; rewrite app_nil_r.
Qed.

Lemma build_batches_concat urls :
  concat (_build_batches urls base_args_len max_cmd_len) = urls.
Proof. unfold _build_batches. by rewrite plan_flush_urls, plan_fold_urls. Qed.

Lemma plan_step_nonempty p u : closed_nonempty p → closed_nonempty (step p u).
Proof.
  unfold closed_nonempty, plan_step; intros H.
  destruct (is_empty (cur p)) eqn:E; simpl; [done|].
  destruct (max_cmd_len <? _); simpl; [|done].
  apply Forall_app; split; [done|].
  apply Forall_singleton. by apply is_empty_false.
Qed.

Lemma plan_fold_nonempty urls p :
  closed_nonempty p → closed_nonempty (foldl step p urls).
Proof.
  revert p; induction urls as [|u urls IH]; intros p H; simpl; [done|].
  by apply IH, plan_step_nonempty.
Qed.

Lemma plan_flush_nonempty p :
  closed_nonempty p → Forall (λ B, B ≠ []) (plan_flush p).
Proof.
  unfold closed_nonempty, plan_flush; intros H.
  destruct (is_empty (cur p)) eqn:E; [done|].
  apply Forall_app; split; [done|].
  apply Forall_singleton. by apply is_empty_false.
Qed.

Lemma build_batches_nonempty urls :
  Forall (λ B, B ≠ []) (_build_batches urls base_args_len max_cmd_len).
Proof.
  apply plan_flush_nonempty, plan_fold_nonempty. by apply Forall_nil.
Qed.

Lemma plan_step_count p u :
  (length (plan_flush (step p u)) ≤ S (length (plan_flush p)))%nat.
Proof.
  unfold plan_flush, plan_step.
  destruct (cur p) as [|x c]; simpl.
  - rewrite length_app; simpl; lia.
  - destruct (max_cmd_len <? _); simpl; rewrite ?length_app; simpl; lia.
Qed.

Lemma plan_fold_count urls p :
  (length (plan_flush (foldl step p urls)) ≤ length (plan_flush p) + length urls)%nat.
Proof.
  revert p; induction urls as [|u urls IH]; intros p; simpl; [lia|].
  pose proof (IH (step p u)). pose proof (plan_step_count p u). lia.
Qed.

Lemma build_batches_count urls :
  (length (_build_batches urls base_args_len max_cmd_len) ≤ length urls)%nat.
Proof.
  unfold _build_batches.
  etrans; [apply plan_fold_count|]. simpl. lia.
Qed.

Lemma build_batches_nil urls :
  _build_batches urls base_args_len max_cmd_len = [] → urls = [].
Proof.
  intros H. rewrite <- (build_batches_concat urls). by rewrite H.
Qed.

Lemma cmd_len_snoc C B u : cmd_len C (B ++ [u]) = cmd_len C B + (Py.len u + 1).
Proof.
  unfold cmd_len. induction B as [|x B IH]; simpl; lia.
Qed.

Lemma plan_step_first_fits p u : first_fits p → first_fits (step p u).
Proof.
  unfold first_fits, first_batch, plan_step; intros [Hlen Hfit].
  destruct (is_empty (cur p)) eqn:E; simpl.
  - apply is_empty_true in E. split.
    + intros Hb. rewrite cmd_len_snoc, Hlen by done. done.
    + intros B HB Hn. destruct (batches p) as [|B0 bs] eqn:Eb.
      * simpl in HB. injection HB as <-. rewrite E in Hn. simpl in Hn. lia.
      * apply Hfit; [|done]. simpl in *. done.
  - destruct (max_cmd_len <? cur_len p + (Py.len u + 1)) eqn:Hover; simpl.
    + split.
      * intros Hb. by destruct (batches p).
      * intros B HB Hn. apply Hfit; [|done].
        destruct (batches p); simpl in *; done.
    + apply Z.ltb_ge in Hover. split.
      * intros Hb. rewrite cmd_len_snoc, Hlen by done. done.
      * intros B HB Hn. destruct (batches p) as [|B0 bs] eqn:Eb.
        -- simpl in HB. injection HB as <-.
           rewrite cmd_len_snoc, <- Hlen by done. done.
        -- apply Hfit; [|done]. simpl in *. done.
Qed.

Lemma plan_fold_first_fits urls p : first_fits p → first_fits (foldl step p urls).
Proof.
  revert p; induction urls as [|u urls IH]; intros p H; simpl; [done|].
  by apply IH, plan_step_first_fits.
Qed.

Lemma plan_flush_first p B rest : plan_flush p = B :: rest → first_batch p = Some B.
Proof.
  unfold plan_flush, first_batch.
  destruct (is_empty (cur p)); intros H.
  - by rewrite H.
  - destruct (batches p); simpl in *; by injection H as -> _.
Qed.

Lemma build_batches_first_fits urls B rest :
  _build_batches urls base_args_len max_cmd_len = B :: rest →
  (2 ≤ length B)%nat →
  cmd_len base_args_len B ≤ max_cmd_len.
Proof.
  intros H Hn.
  assert (Hinv : first_fits (foldl step (mkPlan [] [] base_args_len) urls)).
  { apply plan_fold_first_fits. split; [intros _; simpl; unfold cmd_len; simpl; lia|].
    intros B0 HB0 Hn0. injection HB0 as <-. simpl in Hn0. lia. }
  destruct Hinv as [_ Hfit]. apply Hfit; [|done].
  by eapply plan_flush_first.
Qed.

End Planner.

(** Two states with the same fields are the same state. *)
Lemma state_eq s s' :
  proc s = proc s' → queue s = queue s' → _totals s = _totals s' →
  _batch_started_at s = _batch_started_at s' → _batch_urls s = _batch_urls s' →
  _batch_index s = _batch_index s' → _batches s = _batches s' →
  _seen_paths s = _seen_paths s' → _error_lines s = _error_lines s' →
  sum_totals s = sum_totals s' → sum_progress s = sum_progress s' →
  run_btn s = run_btn s' → stop_btn s = stop_btn s' → log s = log s' →
  started s = started s' → s = s'.
Proof. destruct s, s'; simpl; intros; by subst. Qed.

(** ** Batch Runner *)

Lemma getitem_elem_of {A} (l : list A) (i : Z) (x : A) : Py.getitem l i = Some x → x ∈ l.
Proof.
  unfold Py.getitem. intros H.
  destruct (0 <=? i); [by eapply list_elem_of_lookup_2|].
  destruct (0 <=? _); [by eapply list_elem_of_lookup_2|done].
Qed.

Lemma getitem_nonneg {A} (l : list A) (i : Z) :
  0 ≤ i → Py.getitem l i = l !! Z.to_nat i.
Proof. unfold Py.getitem. intros H. apply Z.leb_le in H. by rewrite H. Qed.

Lemma sum_len_nil i : sum_len (Py.slice_to [] i) = 0.
Proof. unfold Py.slice_to. by destruct (0 <=? i); rewrite take_nil. Qed.

(** The three ways [_run_next_batch] ends, with the state each leaves. *)
Lemma run_next_batch_cases env s :
  _run_next_batch env s =
    if llen (_batches s) <=? _batch_index s + 1 then Ok () (all_done s)
    else match Py.getitem (_batches s) (_batch_index s + 1) with
         | Some b => Ok () (launched env b s)
         | None => Raise IndexError (set_batch_index (_batch_index s + 1) s)
         end.
Proof.
  unfold _run_next_batch. cbn [_batches _batch_index set_batch_index].
  destruct (_ <=? _); [done|].
  destruct (Py.getitem _ _) as [b|]; [|done].
  f_equal. apply state_eq; cbn; try done.
  do 3 f_equal. lia.
Qed.

(** When a batch is left it starts one process on it, with a fresh set of
    seen paths. *)
Lemma run_next_batch_some env s b :
  -1 ≤ _batch_index s →
  _batches s !! Z.to_nat (_batch_index s + 1) = Some b →
  _run_next_batch env s = Ok () (launched env b s).
Proof.
  intros Hi Hb. rewrite run_next_batch_cases.
  pose proof (lookup_lt_Some _ _ _ Hb) as Hlt.
  destruct (llen (_batches s) <=? _batch_index s + 1) eqn:E.
  { apply Z.leb_le in E. unfold llen in E. lia. }
  rewrite getitem_nonneg by lia. by rewrite Hb.
Qed.

(** What it does when none is left. *)
Lemma run_next_batch_none env s :
  llen (_batches s) ≤ _batch_index s + 1 →
  _run_next_batch env s = Ok () (all_done s).
Proof.
  intros H. rewrite run_next_batch_cases.
  apply Z.leb_le in H. by rewrite H.
Qed.

Lemma run_next_batch_totals env s : _totals (final (_run_next_batch env s)) = _totals s.
Proof.
  rewrite run_next_batch_cases.
  destruct (_ <=? _); [done|]. by destruct (Py.getitem _ _).
Qed.

Lemma finished_batch_eq env exit_code s :
  _finished_batch env exit_code s = _run_next_batch env (finished_pre exit_code s).
Proof.
  unfold _finished_batch. f_equal.
  unfold finished_pre, finished_totals, seen_code.
  destruct (negb _); apply state_eq; cbn; try done.
  by rewrite <- app_assoc.
Qed.

Lemma run_next_batch_launches_ok env s :
  launches_ok s → launches_ok (final (_run_next_batch env s)).
Proof.
  intros [Hb Hs]. rewrite run_next_batch_cases.
  destruct (_ <=? _); [done|].
  destruct (Py.getitem _ _) as [b|] eqn:E; [|done].
  split; [done|]. cbn. apply Forall_app; split; [done|].
  apply Forall_singleton. cbn.
  apply getitem_elem_of in E.
  by eapply Forall_forall in Hb.
Qed.

Lemma finished_batch_launches_ok env code s :
  launches_ok s → launches_ok (final (_finished_batch env code s)).
Proof.
  intros H. rewrite finished_batch_eq.
  by apply run_next_batch_launches_ok.
Qed.

(** Logging leaves the engine alone. *)
Lemma log_frame m s :
  proc (_log m s) = proc s ∧ queue (_log m s) = queue s ∧ _totals (_log m s) = _totals s ∧
  _batch_index (_log m s) = _batch_index s ∧ _batches (_log m s) = _batches s ∧
  sum_progress (_log m s) = sum_progress s ∧ started (_log m s) = started s ∧
  _seen_paths (_log m s) = _seen_paths s.
Proof. done. Qed.

Lemma started_log m s : started (_log m s) = started s.
Proof. done. Qed.

Lemma stop_run_eq env w s :
  stop_run env w s =
    Ok () (let s1 := stop_pre env w s in
           mkState (proc s1) [] (_totals s1) (_batch_started_at s1) (_batch_urls s1)
             (_batch_index s1) [] (_seen_paths s1) (_error_lines s1) (_totals s1) (0, 0)
             true false (log s1) (started s1)).
Proof. reflexivity. Qed.

Lemma stop_run_launches_ok env w s :
  launches_ok s → launches_ok (final (stop_run env w s)).
Proof.
  intros H. rewrite stop_run_eq. cbn [final]. cbv zeta.
  split; cbn [_batches started]; [by apply Forall_nil|].
  unfold stop_pre. destruct (proc_running s); [|apply H].
  rewrite started_log.
  destruct w; [|apply H].
  exact (proj2 (finished_batch_launches_ok env exit_code s H)).
Qed.

(** ** Frame properties: what a handler leaves alone *)

Lemma classify_frame env s raw : runner_view (classify env s raw) = runner_view s.
Proof.
  unfold classify, probe, runner_view.
  destruct (is_error_line _); [done|].
  destruct (FileRe.search _) as [path|]; [|done].
  destruct (bool_decide _); [done|].
  destruct (os_stat env path) as [m| |]; simpl; [|done..].
  by destruct (predates _ _).
Qed.

Lemma classify_all_frame env lines s :
  runner_view (foldl (classify env) s lines) = runner_view s.
Proof.
  revert s; induction lines as [|raw lines IH]; intros s; simpl; [done|].
  by rewrite IH, classify_frame.
Qed.

Lemma read_output_frame env data s :
  (proc (_read_output env data s), queue (_read_output env data s),
   _batch_index (_read_output env data s), _batches (_read_output env data s),
   started (_read_output env data s))
  = (proc s, queue s, _batch_index s, _batches s, started s).
Proof.
  unfold _read_output.
  destruct (proc s) eqn:Ep; [|by rewrite Ep].
  destruct (String.eqb data ""); [by rewrite Ep|].
  pose proof (classify_all_frame env (Py.splitlines data)
                (_log (LogOutput (Py.rstrip_char Py.LF data)) s)) as H.
  unfold runner_view in H. cbn in H.
  injection H as Hp Hq _ _ Hi Hb _ _ _ Hs.
  by rewrite Hp, Hq, Hi, Hb, Hs, Ep.
Qed.

Lemma maybe_check_update_log env s :
  maybe_check_update env s = set_log (log s ++ update_check env) s.
Proof.
  unfold maybe_check_update.
  generalize (update_check env) as msgs. intros msgs.
  revert s; induction msgs as [|m msgs IH]; intros s; simpl.
  - unfold set_log. rewrite app_nil_r. by destruct s.
  - rewrite IH. unfold _log, set_log. simpl. by rewrite <- app_assoc.
Qed.

(** [_clean_urls] writes to the log only. *)
Lemma clean_urls_log env text s :
  ∃ l, final (_clean_urls env text s) = set_log l s.
Proof.
  unfold _clean_urls.
  destruct (clean_loop _ _ _ _) as [[out n]|]; simpl.
  - destruct (Nat.eqb n 0); [|by eexists].
    exists (log s). by destruct s.
  - exists (log s). by destruct s.
Qed.

Lemma dedupe_step_fst acc u :
  (dedupe_step acc u).1 = acc.1 ++ (if bool_decide (u ∈ acc.2) then [] else [u]).
Proof.
  unfold dedupe_step. destruct (bool_decide _); simpl; [by rewrite app_nil_r|done].
Qed.

Lemma build_batches_lookup_0 urls C M :
  urls ≠ [] → ∃ B, _build_batches urls C M !! 0%nat = Some B.
Proof.
  intros H. destruct (_build_batches urls C M) as [|B bs] eqn:E.
  - by apply build_batches_nil in E.
  - by exists B.
Qed.

Lemma start_run_launches_ok env text s :
  launches_ok s → launches_ok (final (start_run env text s)).
Proof.
  intros [Hb Hs]. unfold start_run.
  destruct (bin_present env); simpl; [|done].
  rewrite maybe_check_update_log.
  destruct (clean_urls_log env text (set_log (log s ++ update_check env) s)) as [l Hl].
  destruct (_clean_urls _ _ _) as [out s1|e s1]; simpl in *; subst s1; [|done].
  destruct (is_empty out); [done|].
  destruct (negb _); simpl.
  - destruct (proc_running _); [done|].
    apply run_next_batch_launches_ok. split; simpl; [|done].
    apply build_batches_nonempty.
  - destruct (proc_running _); [done|].
    apply run_next_batch_launches_ok. split; simpl; [|done].
    apply build_batches_nonempty.
Qed.

Lemma handle_launches_ok s ev : launches_ok s → launches_ok (handle s ev).
Proof.
  intros H. destruct ev as [env [text|w|data|code]]; unfold handle, emit; simpl.
  - by apply start_run_launches_ok.
  - by apply stop_run_launches_ok.
  - pose proof (read_output_frame env data s) as E.
    injection E as _ _ _ E1 E2. unfold launches_ok. by rewrite E1, E2.
  - by apply finished_batch_launches_ok.
Qed.

Lemma run_events_launches_ok evs s : launches_ok s → launches_ok (run_events s evs).
Proof.
  unfold run_events.
  revert s; induction evs as [|ev evs IH]; intros s H; simpl; [done|].
  by apply IH, handle_launches_ok.
Qed.

(** ** [start_run] when it goes ahead *)

Lemma proc_running_set_log l s : proc_running (set_log l s) = proc_running s.
Proof. done. Qed.

Lemma start_run_eq env text s out nskipped :
  bin_present env = true →
  clean_loop (urlparse env) (map Py.strip (Py.splitlines text)) [] 0 = Some (out, nskipped) →
  out ≠ [] →
  proc_running s = false →
  start_run env text s = _run_next_batch env (queued env out nskipped s).
Proof.
  intros Hbin Hclean Hout Hrun.
  unfold start_run, _clean_urls. rewrite Hbin, Hclean. cbn [negb bind].
  destruct out as [|u out']; [done|]. cbn [is_empty].
  rewrite maybe_check_update_log.
  unfold queued. cbv zeta.
  destruct (Nat.eqb nskipped 0), (negb (llen (dedupe (u :: out')) =? llen (u :: out')));
    unfold _log; rewrite ?proc_running_set_log, Hrun;
    f_equal; apply state_eq; cbn; rewrite ?app_nil_r, <- ?app_assoc; done.
Qed.

(** ** URL Normalizer *)


Lemma filter_nonblank_cons ln lines :
  List.filter nonblank (ln :: lines) =
    if String.eqb ln "" then List.filter nonblank lines else ln :: List.filter nonblank lines.
Proof. simpl. unfold nonblank at 1. by destruct (String.eqb ln ""). Qed.

Lemma clean_loop_returns parse lines out n :
  (∀ u, u ∈ map unbracket (List.filter nonblank lines) → parse u ≠ None) →
  clean_loop parse lines out n =
    Some (out ++ List.filter (is_url parse) (map unbracket (List.filter nonblank lines)),
          (n + length (List.filter (λ u, negb (is_url parse u))
                         (map unbracket (List.filter nonblank lines))))%nat).
Proof.
  revert out n; induction lines as [|ln lines IH]; intros out n Hp.
  - simpl. by rewrite app_nil_r, Nat.add_0_r.
  - rewrite filter_nonblank_cons in *. cbn [clean_loop].
    destruct (String.eqb ln "") eqn:E; [by apply IH|].
    cbn [map List.filter] in *.
    destruct (parse (unbracket ln)) as [p|] eqn:Ep.
    + assert (Hu : is_url parse (unbracket ln) = accepted p) by (unfold is_url; by rewrite Ep).
      rewrite Hu.
      destruct (accepted p); cbn [negb].
      * rewrite IH by (intros u Hin; apply Hp; by right).
        by rewrite <- app_assoc.
      * rewrite IH by (intros u Hin; apply Hp; by right).
        cbn [length]. f_equal. f_equal. lia.
    + exfalso. by apply (Hp (unbracket ln)); [left|].
Qed.

Lemma clean_loop_raises parse lines out n :
  clean_loop parse lines out n = None →
  ∃ u, u ∈ map unbracket (List.filter nonblank lines) ∧ parse u = None.
Proof.
  revert out n; induction lines as [|ln lines IH]; intros out n; [done|].
  rewrite filter_nonblank_cons. cbn [clean_loop].
  destruct (String.eqb ln "") eqn:E; [apply IH|]. cbn [map].
  destruct (parse (unbracket ln)) as [p|] eqn:Ep.
  - destruct (accepted p); intros H; apply IH in H as (u & Hu & Hn);
      exists u; (split; [by right|done]).
  - intros _. exists (unbracket ln). split; [by left|done].
Qed.

Lemma dedupe_step_inv acc u : dedupe_inv acc → dedupe_inv (dedupe_step acc u).
Proof.
  intros [Hnd Hseen]. unfold dedupe_step.
  destruct (bool_decide (u ∈ acc.2)) eqn:E; [done|].
  apply bool_decide_eq_false in E. split; simpl.
  - apply NoDup_app. split_and!; [done| |apply NoDup_singleton].
    intros x Hx Hx'. apply list_elem_of_singleton in Hx' as ->. by apply E, Hseen.
  - intros x. rewrite elem_of_union, elem_of_singleton, elem_of_app, list_elem_of_singleton.
    by rewrite Hseen.
Qed.

Lemma dedupe_fold_inv l acc : dedupe_inv acc → dedupe_inv (foldl dedupe_step acc l).
Proof.
  revert acc; induction l as [|u l IH]; intros acc H; simpl; [done|].
  by apply IH, dedupe_step_inv.
Qed.

Lemma dedupe_fold_elem l acc x :
  x ∈ (foldl dedupe_step acc l).2 ↔ x ∈ acc.2 ∨ x ∈ l.
Proof.
  revert acc; induction l as [|u l IH]; intros acc; simpl.
  - rewrite elem_of_nil. tauto.
  - rewrite IH, elem_of_cons. unfold dedupe_step.
    destruct (bool_decide (u ∈ acc.2)) eqn:E; simpl.
    + apply bool_decide_eq_true in E. split; [tauto|].
      intros [?|[->|?]]; tauto.
    + rewrite elem_of_union, elem_of_singleton. tauto.
Qed.

Lemma dedupe_inv_init : dedupe_inv ([], ∅).
Proof. split; simpl; [apply NoDup_nil_2|]. intros u. by rewrite elem_of_nil, elem_of_empty. Qed.

Lemma dedupe_NoDup l : NoDup (dedupe l).
Proof. exact (proj1 (dedupe_fold_inv l _ dedupe_inv_init)). Qed.

Lemma dedupe_elem_of l x : x ∈ dedupe l ↔ x ∈ l.
Proof.
  unfold dedupe.
  destruct (dedupe_fold_inv l _ dedupe_inv_init) as [_ H].
  rewrite <- H, dedupe_fold_elem. simpl. rewrite elem_of_empty. tauto.
Qed.

(** An element is kept exactly when nothing before it equals it. *)
Lemma dedupe_snoc l x :
  dedupe (l ++ [x]) = dedupe l ++ (if bool_decide (x ∈ l) then [] else [x]).
Proof.
  unfold dedupe. rewrite foldl_snoc, dedupe_step_fst.
  f_equal.
  rewrite (bool_decide_ext (x ∈ (foldl dedupe_step ([], ∅) l).2) (x ∈ l)); [done|].
  rewrite dedupe_fold_elem. simpl. rewrite elem_of_empty. tauto.
Qed.

Lemma dedupe_nil : dedupe [] = [].
Proof. done. Qed.

Lemma dedupe_id l : NoDup l → dedupe l = l.
Proof.
  induction l as [|x l IH] using rev_ind; intros H; [done|].
  apply NoDup_app in H as (Hl & Hx & _).
  rewrite dedupe_snoc, IH by done.
  rewrite bool_decide_eq_false_2; [done|].
  intros Hin. apply (Hx x Hin). by apply list_elem_of_singleton.
Qed.

Lemma dedupe_not_nil l : l ≠ [] → dedupe l ≠ [].
Proof.
  destruct l as [|x l]; [done|]. intros _ H.
  assert (Hx : x ∈ dedupe (x :: l)) by (apply dedupe_elem_of; by left).
  rewrite H in Hx. by apply elem_of_nil in Hx.
Qed.

(** [start_run] on input with at least one URL, while nothing runs: the
    first batch is started. *)
Lemma start_run_ok env text s out nskipped :
  bin_present env = true →
  clean_loop (urlparse env) (map Py.strip (Py.splitlines text)) [] 0 = Some (out, nskipped) →
  out ≠ [] →
  proc_running s = false →
  ∃ b, _batches (queued env out nskipped s) !! 0%nat = Some b ∧
       start_run env text s = Ok () (launched env b (queued env out nskipped s)).
Proof.
  intros Hbin Hclean Hout Hrun.
  destruct (build_batches_lookup_0 (dedupe out)
              (Py.len (Py.join " " (_build_common_args env))) default_max_cmd_len)
    as [b Hb]; [by apply dedupe_not_nil|].
  exists b. split; [done|].
  rewrite (start_run_eq env text s out nskipped) by done.
  by apply run_next_batch_some.
Qed.

(** ** [splitlines] and chunks that end with a line *)

Lemma last_char_cons c d s : Py.last_char (String c (String d s)) = Py.last_char (String d s).
Proof. done. Qed.

Lemma splitlines_from_cons2 acc c d s :
  Py.splitlines_from acc (String c (String d s)) =
    if Py.islinebreak c then
      acc :: (if Ascii.eqb c Py.CR && Ascii.eqb d Py.LF
              then Py.splitlines_from EmptyString s
              else Py.splitlines_from EmptyString (String d s))
    else Py.splitlines_from (acc +:+ String c EmptyString) (String d s).
Proof. done. Qed.

Lemma splitlines_from_app_aux b n :
  ∀ a acc, (String.length a ≤ n)%nat → Py.last_char a = Some Py.LF →
    Py.splitlines_from acc (a +:+ b) = Py.splitlines_from acc a ++ Py.splitlines b.
Proof.
  induction n as [|n IH]; intros a acc Hn Hlast.
  { destruct a; [done|simpl in Hn; lia]. }
  destruct a as [|c a']; [done|].
  destruct a' as [|d a''].
  - injection Hlast as ->. simpl.
    destruct b; done.
  - rewrite last_char_cons in Hlast.
    change ((String c (String d a'')) +:+ b) with (String c (String d (a'' +:+ b))).
    rewrite !splitlines_from_cons2.
    change (String d (a'' +:+ b)) with (String d a'' +:+ b).
    destruct (Py.islinebreak c) eqn:Ec.
    + destruct (Ascii.eqb c Py.CR && Ascii.eqb d Py.LF) eqn:Ecr.
      * rewrite <- app_comm_cons. f_equal.
        destruct a'' as [|e a3]; [done|].
        rewrite last_char_cons in Hlast.
        apply IH; [simpl in *; lia|done].
      * rewrite <- app_comm_cons. f_equal.
        apply IH; [simpl in *; lia|done].
    + apply IH; [simpl in *; lia|done].
Qed.

Lemma splitlines_app a b :
  ends_line a → Py.splitlines (a +:+ b) = Py.splitlines a ++ Py.splitlines b.
Proof.
  unfold ends_line, Py.endswith_char, Py.splitlines. intros H.
  destruct (Py.last_char a) as [c|] eqn:E; [|done].
  apply Ascii.eqb_eq in H as ->.
  by apply (splitlines_from_app_aux b (String.length a)).
Qed.

Lemma append_empty_r s : s +:+ EmptyString = s.
Proof.
  induction s as [|c s IH]; [done|].
  change (String c (s +:+ EmptyString) = String c s). by rewrite IH.
Qed.

Lemma splitlines_text_of chunks last :
  Forall ends_line chunks →
  Py.splitlines (text_of (chunks ++ [last])) =
    concat (map Py.splitlines chunks) ++ Py.splitlines last.
Proof.
  induction 1 as [|a chunks Ha _ IH]; simpl.
  - unfold text_of. simpl. by rewrite append_empty_r.
  - rewrite <- app_assoc, <- IH. by apply splitlines_app.
Qed.

(** ** Output Classifier: the four outcomes of a line *)

Lemma classify_error env s raw :
  is_error_line (Py.lower (Py.strip raw)) = true →
  classify env s raw =
    counted (add_failed (_totals s)) (_seen_paths s) (_error_lines s + 1) s.
Proof. intros H. unfold classify. by rewrite H. Qed.

Lemma classify_noise env s raw :
  is_error_line (Py.lower (Py.strip raw)) = false →
  FileRe.search (Py.strip raw) = None →
  classify env s raw = s.
Proof. intros H1 H2. unfold classify. by rewrite H1, H2. Qed.

Lemma classify_seen env s raw path :
  is_error_line (Py.lower (Py.strip raw)) = false →
  FileRe.search (Py.strip raw) = Some path →
  path ∈ _seen_paths s →
  classify env s raw = s.
Proof.
  intros H1 H2 H3. unfold classify. rewrite H1, H2.
  by rewrite bool_decide_eq_true_2.
Qed.

Lemma classify_new env s raw path :
  is_error_line (Py.lower (Py.strip raw)) = false →
  FileRe.search (Py.strip raw) = Some path →
  path ∉ _seen_paths s →
  classify env s raw =
    counted (probe_totals env path s) (_seen_paths s ∪ {[path]}) (_error_lines s) s.
Proof.
  intros H1 H2 H3. unfold classify. rewrite H1, H2.
  rewrite bool_decide_eq_false_2 by done.
  unfold probe, probe_totals, counted.
  destruct (os_stat env path) as [m| |]; cbn [_batch_started_at set_seen_paths];
    [destruct (predates _ _)|..]; apply state_eq; done.
Qed.

(** A line changes the totals by at most one count. *)
Lemma classify_totals env s raw :
  _totals (classify env s raw) ∈
    [_totals s; add_failed (_totals s); add_downloaded (_totals s); add_skipped (_totals s)].
Proof.
  destruct (is_error_line (Py.lower (Py.strip raw))) eqn:E1.
  { rewrite classify_error by done. cbn. set_solver. }
  destruct (FileRe.search (Py.strip raw)) as [path|] eqn:E2.
  2:{ rewrite classify_noise by done. set_solver. }
  destruct (decide (path ∈ _seen_paths s)) as [Hin|Hnin].
  { rewrite (classify_seen env s raw path) by done. set_solver. }
  rewrite (classify_new env s raw path) by done. cbn.
  unfold probe_totals.
  destruct (os_stat env path) as [m| |]; [destruct (predates _ _)|..]; set_solver.
Qed.

(** The set of seen paths only grows while a batch runs. *)
Lemma classify_seen_mono env s raw : _seen_paths s ⊆ _seen_paths (classify env s raw).
Proof.
  destruct (is_error_line (Py.lower (Py.strip raw))) eqn:E1.
  { by rewrite classify_error. }
  destruct (FileRe.search (Py.strip raw)) as [path|] eqn:E2.
  2:{ by rewrite classify_noise. }
  destruct (decide (path ∈ _seen_paths s)) as [Hin|Hnin].
  { by rewrite (classify_seen env s raw path). }
  rewrite (classify_new env s raw path) by done. cbn. set_solver.
Qed.

Lemma classify_all_seen_mono env lines s :
  _seen_paths s ⊆ _seen_paths (foldl (classify env) s lines).
Proof.
  revert s; induction lines as [|raw lines IH]; intros s; simpl; [done|].
  etrans; [apply (classify_seen_mono env s raw)|apply IH].
Qed.

Lemma read_output_seen_mono env data s :
  _seen_paths s ⊆ _seen_paths (_read_output env data s).
Proof.
  unfold _read_output. destruct (proc s); [|done].
  destruct (String.eqb data ""); [done|].
  etrans; [|apply classify_all_seen_mono]. done.
Qed.

(** The classifier does not read the log. *)
Lemma classify_set_log env l s raw :
  classify env (set_log l s) raw = set_log l (classify env s raw).
Proof.
  destruct (is_error_line (Py.lower (Py.strip raw))) eqn:E1.
  { by rewrite !classify_error. }
  destruct (FileRe.search (Py.strip raw)) as [path|] eqn:E2.
  2:{ by rewrite !classify_noise. }
  destruct (decide (path ∈ _seen_paths s)) as [Hin|Hnin].
  { by rewrite !(classify_seen _ _ raw path). }
  by rewrite !(classify_new _ _ raw path).
Qed.

Lemma classify_all_set_log env l lines s :
  foldl (classify env) (set_log l s) lines = set_log l (foldl (classify env) s lines).
Proof.
  revert s; induction lines as [|raw lines IH]; intros s; simpl; [done|].
  by rewrite classify_set_log, IH.
Qed.

Lemma set_log_set_log l l' s : set_log l (set_log l' s) = set_log l s.
Proof. done. Qed.

Lemma classify_all_proc env lines s : proc (foldl (classify env) s lines) = proc s.
Proof.
  pose proof (classify_all_frame env lines s) as H. unfold runner_view in H.
  by injection H.
Qed.

(** With a process at hand, a chunk is classified line by line; only the
    log tells that it came as a chunk. *)
Lemma read_output_lines env data s :
  proc s ≠ None →
  set_log [] (_read_output env data s) =
    foldl (classify env) (set_log [] s) (Py.splitlines data).
Proof.
  intros Hp. unfold _read_output. destruct (proc s); [|done].
  destruct (String.eqb data "") eqn:E.
  - apply String.eqb_eq in E as ->. done.
  - unfold _log.
    by rewrite (classify_all_set_log env (log s ++ _)), set_log_set_log,
      (classify_all_set_log env []).
Qed.

Lemma read_output_proc env data s : proc (_read_output env data s) = proc s.
Proof. pose proof (read_output_frame env data s) as H. by injection H. Qed.

Lemma feed_lines env chunks s :
  proc s ≠ None →
  set_log [] (feed env chunks s) =
    foldl (classify env) (set_log [] s) (concat (map Py.splitlines chunks)).
Proof.
  unfold feed.
  revert s; induction chunks as [|d chunks IH]; intros s Hp; simpl; [done|].
  rewrite IH by (by rewrite read_output_proc).
  by rewrite read_output_lines, foldl_app.
Qed.

Lemma feed_no_proc env chunks s : proc s = None → feed env chunks s = s.
Proof.
  intros Hp. unfold feed. induction chunks as [|d chunks IH]; simpl; [done|].
  unfold _read_output at 2. by rewrite Hp.
Qed.

(** * The claims *)

(** ** Batch Planner *)

(** C2.  The batches of a plan, concatenated in order, are the URL list
    that was planned, whatever the base-argument length and the budget;
    and when [start_run] goes ahead on the text of the URL box, the
    concatenation of the batches it plans is the de-duplicated list of the
    URLs the normalizer accepted, which is also the queue. *)
Theorem plan_concat_is_input (urls : list string) (C M : Z)
    (env : Env) (text : string) (s : State) (out : list string) (nskipped : nat) :
  concat (_build_batches urls C M) = urls ∧
  (bin_present env = true →
   proc_running s = false →
   clean_loop (urlparse env) (map Py.strip (Py.splitlines text)) [] 0 = Some (out, nskipped) →
   out ≠ [] →
   ∃ s', start_run env text s = Ok () s' ∧
         concat (_batches s') = dedupe out ∧ queue s' = dedupe out).
Proof.
  split; [apply build_batches_concat|].
  intros Hbin Hrun Hclean Hout.
  destruct (start_run_ok env text s out nskipped) as (b & Hb & ->); [done..|].
  eexists; split; [done|]. cbn.
  split; [apply build_batches_concat|done].
Qed.

Lemma plan_concat_is_input_witness :
  ∃ s', start_run Sample.env Sample.scenario_a init = Ok () s' ∧
        concat (_batches s') = dedupe ["https://example.com/a"; "https://example.com/a"] ∧
        queue s' = dedupe ["https://example.com/a"; "https://example.com/a"].
Proof.
  apply (proj2 (plan_concat_is_input [] 0 0 Sample.env Sample.scenario_a init
                  ["https://example.com/a"; "https://example.com/a"] 1));
    [reflexivity|reflexivity|vm_compute; reflexivity|discriminate].
Defined.

(** C3, as stated, fails: with common-argument length 29990 and budget
    30000 the URL https://x.com/1 is planned into a batch of its own whose
    serialised length is 30006, although the URL is only 15 characters
    long. *)
Lemma plan_budget_counterexample :
  ∃ B, B ∈ _build_batches ["https://x.com/1"; "https://x.com/2"] 29990 30000 ∧
       ¬ (cmd_len 29990 B ≤ 30000 ∨ ∃ u, B = [u] ∧ 30000 < Py.len u).
Proof.
  exists ["https://x.com/1"]. split; [vm_compute; by left|].
  intros [H|(u & [= <-] & H)]; vm_compute in H; [by apply H|done].
Qed.

(** C3, amended.  The first batch of a plan, when it holds two or more
    URLs, stays within the budget: C + sum(len(u)+1 for u in B) <= M.  A
    batch of a single URL is exempt whatever the length of the URL: the
    first URL of a batch is always accepted, so that a lone URL is planned
    as one batch for every base-argument length and budget. *)
Theorem first_batch_within_budget (urls : list string) (C M : Z) (B : list string)
    (rest : list (list string)) (u : string) :
  (_build_batches urls C M = B :: rest →
   (2 ≤ length B)%nat →
   cmd_len C B ≤ M) ∧
  _build_batches [u] C M = [[u]].
Proof. split; [apply build_batches_first_fits|reflexivity]. Qed.

Lemma first_batch_within_budget_witness :
  cmd_len 0 ["aaaa"; "bbbb"] ≤ 10.
Proof.
  apply (proj1 (first_batch_within_budget ["aaaa"; "bbbb"; "cc"] 0 10 ["aaaa"; "bbbb"]
                  [["cc"]] ""));
    [vm_compute; reflexivity|simpl; lia].
Defined.

(** A batch that is opened by closing the one before starts its running
    total at [base_args_len + len(u)], one short of what [add] counts: the
    second batch below is kept although its serialised length is 11. *)
Lemma seeded_batch_one_over :
  _build_batches ["aaaaaaaaa"; "bbbb"; "ccccc"] 0 10 = [["aaaaaaaaa"]; ["bbbb"; "ccccc"]] ∧
  cmd_len 0 ["bbbb"; "ccccc"] = 11.
Proof. split; vm_compute; reflexivity. Qed.

(** C10.  No batch of a plan is empty, a plan has at most as many batches
    as URLs, and whatever the toolkit delivers to the widget, every
    process it starts is given at least one URL. *)
Theorem batches_never_empty (urls : list string) (C M : Z) (evs : list (Env * Event)) :
  Forall (λ B, B ≠ []) (_build_batches urls C M) ∧
  (length (_build_batches urls C M) ≤ length urls)%nat ∧
  Forall (λ l : list string * list string, l.2 ≠ []) (started (run_events init evs)).
Proof.
  split_and!.
  - apply build_batches_nonempty.
  - apply build_batches_count.
  - apply (run_events_launches_ok evs init). split; apply Forall_nil_2.
Qed.

(** ** Batch Runner *)

(** C7.  When the process of a batch ends with an exit code other than
    zero, [failed] grows by exactly one and the other counters stay; with
    exit code zero the totals stay as they are; and in both cases the next
    batch, when there is one, is started. *)
Theorem exit_code_counts_one_failure (env : Env) (exit_code : Z) (s : State)
    (b : list string) :
  (proc s ≠ None → exit_code ≠ 0 →
     failed (_totals (final (_finished_batch env exit_code s))) = (failed (_totals s) + 1)%nat ∧
     downloaded (_totals (final (_finished_batch env exit_code s))) = downloaded (_totals s) ∧
     skipped (_totals (final (_finished_batch env exit_code s))) = skipped (_totals s)) ∧
  (exit_code = 0 →
     _totals (final (_finished_batch env exit_code s)) = _totals s) ∧
  (-1 ≤ _batch_index s →
   _batches s !! Z.to_nat (_batch_index s + 1) = Some b →
   ∃ s', _finished_batch env exit_code s = Ok () s' ∧
         proc s' = Some (mkProc (_build_common_args env ++ b) true) ∧
         started s' = started s ++ [(_build_common_args env, b)] ∧
         _batch_index s' = _batch_index s + 1).
Proof.
  rewrite finished_batch_eq, run_next_batch_totals. cbn [_totals finished_pre].
  unfold finished_totals, seen_code. split_and!.
  - intros Hp Hc. destruct (proc s); [|done].
    rewrite (proj2 (Z.eqb_neq _ _) Hc). cbn [negb add_failed failed downloaded skipped].
    split_and!; [lia|done|done].
  - intros ->. by destruct (proc s).
  - intros Hi Hb.
    rewrite (run_next_batch_some env (finished_pre exit_code s) b) by done.
    by eexists.
Qed.

(** ** Cancellation *)

(** When the process ends within the grace period and a batch is left,
    [stop_run] itself starts the next batch: the slot [_finished_batch]
    runs inside [waitForFinished], before the batches are dropped. *)
Lemma stop_run_starts_next env exit_code s b :
  proc_running s = true →
  -1 ≤ _batch_index s →
  _batches s !! Z.to_nat (_batch_index s + 1) = Some b →
  started (final (stop_run env (WaitFinished exit_code) s))
    = started s ++ [(_build_common_args env, b)] ∧
  proc (final (stop_run env (WaitFinished exit_code) s))
    = Some (mkProc (_build_common_args env ++ b) true) ∧
  _batches (final (stop_run env (WaitFinished exit_code) s)) = [] ∧
  queue (final (stop_run env (WaitFinished exit_code) s)) = [] ∧
  sum_progress (final (stop_run env (WaitFinished exit_code) s)) = (0, 0) ∧
  _totals (final (stop_run env (WaitFinished exit_code) s)) = finished_totals exit_code s.
Proof.
  intros Hrun Hi Hb.
  rewrite stop_run_eq. unfold stop_pre, emit. rewrite Hrun.
  rewrite finished_batch_eq.
  rewrite (run_next_batch_some env (finished_pre exit_code s) b) by done.
  done.
Qed.

(** When no process runs, or the process has to be killed, [stop_run]
    leaves the totals and starts nothing; the run is aborted. *)
Lemma stop_run_aborts env w s :
  proc_running s = false ∨ w = WaitTimedOut →
  aborted (final (stop_run env w s)) ∧
  _totals (final (stop_run env w s)) = _totals s ∧
  started (final (stop_run env w s)) = started s.
Proof.
  intros H. rewrite stop_run_eq. unfold stop_pre, aborted.
  destruct (proc_running s); [|done].
  destruct H as [?| ->]; done.
Qed.

Lemma classify_aborted env s raw : aborted s → aborted (classify env s raw).
Proof.
  intros (Hq & Hb & Hp). unfold aborted.
  assert (Hd : (done_urls s, llen (queue s)) = (0, 0)).
  { unfold done_urls. by rewrite Hb, Hq, sum_len_nil. }
  destruct (is_error_line (Py.lower (Py.strip raw))) eqn:E1.
  { rewrite classify_error by done. by cbn. }
  destruct (FileRe.search (Py.strip raw)) as [path|] eqn:E2.
  2:{ by rewrite classify_noise. }
  destruct (decide (path ∈ _seen_paths s)) as [Hin|Hnin].
  { by rewrite (classify_seen env s raw path). }
  rewrite (classify_new env s raw path) by done. by cbn.
Qed.

Lemma classify_all_aborted env lines s : aborted s → aborted (foldl (classify env) s lines).
Proof.
  revert s; induction lines as [|raw lines IH]; intros s H; simpl; [done|].
  by apply IH, classify_aborted.
Qed.

Lemma read_output_aborted env data s : aborted s → aborted (_read_output env data s).
Proof.
  intros H. unfold _read_output. destruct (proc s); [|done].
  destruct (String.eqb data ""); [done|].
  by apply classify_all_aborted.
Qed.

Lemma finished_batch_aborted env exit_code s :
  aborted s →
  aborted (final (_finished_batch env exit_code s)) ∧
  started (final (_finished_batch env exit_code s)) = started s.
Proof.
  intros (Hq & Hb & Hp). rewrite finished_batch_eq, run_next_batch_cases.
  cbn [_batches _batch_index finished_pre]. rewrite Hb.
  unfold aborted.
  destruct (llen [] <=? _batch_index s + 1); cbn; [by rewrite Hq|].
  replace (Py.getitem [] (_batch_index s + 1)) with (@None (list string)).
  - cbn. by rewrite Hq, Hb, sum_len_nil.
  - unfold Py.getitem. by repeat case_match.
Qed.

(** Once a run is aborted it stays so, and no process is started, until
    the user clicks Run again. *)
Lemma aborted_stays evs s :
  forallb (λ ev, negb (is_run ev)) evs = true →
  aborted s →
  aborted (run_events s evs) ∧ started (run_events s evs) = started s.
Proof.
  unfold run_events.
  revert s; induction evs as [|[env ev] evs IH]; intros s Hev Hs; simpl; [done|].
  simpl in Hev. apply andb_true_iff in Hev as [Hev1 Hev].
  assert (aborted (handle s (env, ev)) ∧ started (handle s (env, ev)) = started s)
    as [Ha Hst].
  { unfold handle, emit; destruct ev as [text|w|data|code]; cbn [fst snd]; [done| | |].
    - rewrite stop_run_eq. unfold stop_pre. cbn.
      destruct (proc_running s); [|by destruct Hs as (? & ? & ?)].
      rewrite started_log. destruct w; [|done]. unfold emit.
      destruct (finished_batch_aborted env exit_code s Hs) as [_ ->]. done.
    - split; [by apply read_output_aborted|].
      pose proof (read_output_frame env data s) as H. by injection H.
    - by apply finished_batch_aborted. }
  destruct (IH _ Hev Ha) as [? ->]. done.
Qed.

(** The kill path of [stop_run]: whatever follows short of a new run, no
    further process is started and the progress label stays at 0 / 0. *)
Lemma stop_by_kill_discards env w s evs :
  proc_running s = false ∨ w = WaitTimedOut →
  forallb (λ ev, negb (is_run ev)) evs = true →
  started (run_events (final (stop_run env w s)) evs) = started s ∧
  sum_progress (run_events (final (stop_run env w s)) evs) = (0, 0) ∧
  _batches (run_events (final (stop_run env w s)) evs) = [] ∧
  _totals (final (stop_run env w s)) = _totals s.
Proof.
  intros Hw Hev.
  destruct (stop_run_aborts env w s Hw) as (Ha & Ht & Hs).
  destruct (aborted_stays evs _ Hev Ha) as ((Hq & Hb & Hp) & Hst).
  by rewrite Hst, Hs.
Qed.

(** *** A run of two batches *)

Lemma gallery_cleaned :
  clean_loop Sample.urlparse (map Py.strip (Py.splitlines Sample.gallery_text)) [] 0
    = Some (Sample.gallery, 0%nat).
Proof. vm_compute. reflexivity. Qed.

Lemma length_append s1 s2 :
  String.length (s1 +:+ s2) = (String.length s1 + String.length s2)%nat.
Proof.
  induction s1 as [|c s1 IH]; [done|].
  change (S (String.length (s1 +:+ s2)) = S (String.length s1 + String.length s2)).
  by rewrite IH.
Qed.

Lemma length_repeat_char c n : String.length (Sample.repeat_char c n) = n.
Proof. induction n as [|n IH]; [done|]. simpl. by rewrite IH. Qed.

Lemma post_url_inj : Inj (=) (=) Sample.post_url.
Proof.
  intros i j H. apply (f_equal String.length) in H.
  unfold Sample.post_url in H. rewrite !length_append, !length_repeat_char in H. lia.
Qed.

Lemma gallery_nodup : NoDup Sample.gallery.
Proof. apply (@NoDup_fmap_2 _ _ Sample.post_url post_url_inj), NoDup_seq. Qed.

Lemma gallery_not_nil : Sample.gallery ≠ [].
Proof. intros H. apply (f_equal length) in H. vm_compute in H. discriminate. Qed.

Lemma gallery_batches :
  _build_batches Sample.gallery 32 default_max_cmd_len
    = [take 222 Sample.gallery; drop 222 Sample.gallery].
Proof. vm_compute. reflexivity. Qed.

Lemma gallery_queued_batches :
  _batches (queued Sample.env Sample.gallery 0 init)
    = [take 222 Sample.gallery; drop 222 Sample.gallery].
Proof.
  unfold queued. cbv zeta. cbn [_batches].
  rewrite (dedupe_id _ gallery_nodup).
  change (Py.len (Py.join " " (_build_common_args Sample.env))) with 32.
  apply gallery_batches.
Qed.

Lemma run_events_one s ev : run_events s [ev] = handle s ev.
Proof. reflexivity. Qed.

Lemma run_events_two s ev1 ev2 : run_events s [ev1; ev2] = handle (run_events s [ev1]) ev2.
Proof. reflexivity. Qed.

Lemma handle_run s env text : handle s (env, Run text) = final (start_run env text s).
Proof. reflexivity. Qed.

Lemma handle_stop s env w : handle s (env, Stop w) = final (stop_run env w s).
Proof. reflexivity. Qed.

(** After a click on Run with the gallery in the URL box, the first of
    two batches is running. *)
Lemma gallery_running :
  run_events init [(Sample.env, Run Sample.gallery_text)]
    = launched Sample.env (take 222 Sample.gallery) (queued Sample.env Sample.gallery 0 init).
Proof.
  rewrite run_events_one, handle_run.
  rewrite (start_run_eq Sample.env Sample.gallery_text init Sample.gallery 0);
    [|reflexivity|apply gallery_cleaned|apply gallery_not_nil|reflexivity].
  rewrite (run_next_batch_some Sample.env (queued Sample.env Sample.gallery 0 init)
             (take 222 Sample.gallery)).
  - reflexivity.
  - cbn [_batch_index queued]. lia.
  - rewrite gallery_queued_batches. reflexivity.
Qed.

(** C1: the code at the failing input.  The gallery is in the URL box, the
    user clicks Run and, while the first batch runs, Stop; the tool exits
    within the grace period (here on the signal, with status 15).  When
    [stop_run] returns, the process of the second batch is running: it was
    started from inside [waitForFinished] by [_finished_batch], before the
    batches were dropped.  The batches are then gone and the progress
    label reads 0 / 0, and the failed count has grown by one. *)
Theorem stop_starts_next_batch :
  started (run_events init [(Sample.env, Run Sample.gallery_text)])
    = [(_build_common_args Sample.env, take 222 Sample.gallery)] ∧
  started (run_events init [(Sample.env, Run Sample.gallery_text);
                            (Sample.env, Stop (WaitFinished 15))])
    = [(_build_common_args Sample.env, take 222 Sample.gallery);
       (_build_common_args Sample.env, drop 222 Sample.gallery)] ∧
  proc (run_events init [(Sample.env, Run Sample.gallery_text);
                         (Sample.env, Stop (WaitFinished 15))])
    = Some (mkProc (_build_common_args Sample.env ++ drop 222 Sample.gallery) true) ∧
  _batches (run_events init [(Sample.env, Run Sample.gallery_text);
                             (Sample.env, Stop (WaitFinished 15))]) = [] ∧
  sum_progress (run_events init [(Sample.env, Run Sample.gallery_text);
                                 (Sample.env, Stop (WaitFinished 15))]) = (0, 0) ∧
  _totals (run_events init [(Sample.env, Run Sample.gallery_text);
                            (Sample.env, Stop (WaitFinished 15))]) = mkTotals 0 0 1.
Proof.
  rewrite run_events_two, handle_stop, gallery_running.
  destruct (stop_run_starts_next Sample.env 15
              (launched Sample.env (take 222 Sample.gallery)
                 (queued Sample.env Sample.gallery 0 init))
              (drop 222 Sample.gallery))
    as (H1 & H2 & H3 & _ & H5 & H6).
  - reflexivity.
  - cbn [_batch_index launched queued]. lia.
  - cbn [_batches _batch_index launched].
    rewrite gallery_queued_batches. reflexivity.
  - rewrite H1, H2, H3, H5, H6. cbn [started launched queued init app].
    split_and!; reflexivity.
Qed.

Lemma exit_code_counts_one_failure_witness :
  (_totals Sample.one_batch_running = mkTotals 0 0 0 ∧
   failed (_totals (final (_finished_batch Sample.env 1 Sample.one_batch_running))) = 1%nat ∧
   downloaded (_totals (final (_finished_batch Sample.env 1 Sample.one_batch_running))) = 0%nat ∧
   skipped (_totals (final (_finished_batch Sample.env 1 Sample.one_batch_running))) = 0%nat) ∧
  ∃ s', _finished_batch Sample.env 1 (run_events init [(Sample.env, Run Sample.gallery_text)])
          = Ok () s' ∧
        proc s' = Some (mkProc (_build_common_args Sample.env ++ drop 222 Sample.gallery) true) ∧
        started s' = started (run_events init [(Sample.env, Run Sample.gallery_text)])
                       ++ [(_build_common_args Sample.env, drop 222 Sample.gallery)] ∧
        _batch_index s'
          = _batch_index (run_events init [(Sample.env, Run Sample.gallery_text)]) + 1.
Proof.
  split.
  - assert (H0 : _totals Sample.one_batch_running = mkTotals 0 0 0)
      by (vm_compute; reflexivity).
    destruct (proj1 (exit_code_counts_one_failure Sample.env 1 Sample.one_batch_running []))
      as (Hf & Hd & Hs); [vm_compute; discriminate|lia|].
    split_and!.
    + exact H0.
    + rewrite Hf, H0. reflexivity.
    + rewrite Hd, H0. reflexivity.
    + rewrite Hs, H0. reflexivity.
  - apply (proj2 (proj2 (exit_code_counts_one_failure Sample.env 1
                           (run_events init [(Sample.env, Run Sample.gallery_text)])
                           (drop 222 Sample.gallery))));
      rewrite gallery_running; cbn [_batches _batch_index launched].
    + cbn [_batch_index queued]. lia.
    + rewrite gallery_queued_batches. reflexivity.
Defined.

(** ** Output Classifier *)

(** C4, as stated, fails: the line 403 Forbidden counts one failure when
    it arrives whole and none when it arrives in two chunks; no partial
    line is kept from one chunk to the next. *)
Lemma chunk_boundary_counterexample :
  _totals (feed Sample.env ["403 Forb"; "idden"] Sample.one_batch_running) = mkTotals 0 0 0 ∧
  _totals (_read_output Sample.env (text_of ["403 Forb"; "idden"]) Sample.one_batch_running)
    = mkTotals 0 0 1.
Proof. split; vm_compute; reflexivity. Qed.

(** C4, amended.  [_read_output] splits every chunk into lines on its own.
    When every chunk but the last ends with a line feed, feeding the
    chunks in order leaves the same totals, error-line count, seen paths
    and summary labels as feeding their whole text as one chunk. *)
Theorem chunks_on_line_ends_agree (env : Env) (s : State) (chunks : list string)
    (last : string) :
  Forall ends_line chunks →
  outcome (feed env (chunks ++ [last]) s)
    = outcome (_read_output env (text_of (chunks ++ [last])) s).
Proof.
  intros Hends.
  destruct (proc s) as [p|] eqn:Hp.
  - assert (Hs : proc s ≠ None) by (by rewrite Hp).
    assert (H : set_log [] (feed env (chunks ++ [last]) s)
                = set_log [] (_read_output env (text_of (chunks ++ [last])) s)).
    { rewrite feed_lines, read_output_lines by done.
      rewrite splitlines_text_of by done.
      by rewrite map_app, concat_app; simpl; rewrite app_nil_r. }
    change (outcome (set_log [] (feed env (chunks ++ [last]) s))
            = outcome (set_log [] (_read_output env (text_of (chunks ++ [last])) s))).
    by rewrite H.
  - rewrite feed_no_proc by done. unfold _read_output. by rewrite Hp.
Qed.

Lemma chunks_on_line_ends_agree_witness :
  outcome (feed Sample.env (["403 Forbidden" +:+ Sample.NL] ++ ["Downloading /tmp/out/photo.jpg"])
             Sample.one_batch_running)
    = outcome (_read_output Sample.env
                 (text_of (["403 Forbidden" +:+ Sample.NL] ++ ["Downloading /tmp/out/photo.jpg"]))
                 Sample.one_batch_running).
Proof.
  apply (chunks_on_line_ends_agree Sample.env Sample.one_batch_running
           ["403 Forbidden" +:+ Sample.NL] "Downloading /tmp/out/photo.jpg").
  apply Forall_singleton. vm_compute. reflexivity.
Defined.

(** C6.  A line whose lowercased form contains one of the four needles
    makes [failed] one more than it was and leaves [downloaded] and
    [skipped] as they were, and it is not looked at further: the set of
    seen paths stays as it is.  And whatever the line, no counter goes
    down and the three counters together grow by at most one: a line
    counts for at most one counter. *)
Theorem error_line_counts_failed (env : Env) (s : State) (raw needle : string) :
  (needle ∈ error_needles →
   Py.contains needle (Py.lower (Py.strip raw)) = true →
   failed (_totals (classify env s raw)) = (failed (_totals s) + 1)%nat ∧
   downloaded (_totals (classify env s raw)) = downloaded (_totals s) ∧
   skipped (_totals (classify env s raw)) = skipped (_totals s) ∧
   _seen_paths (classify env s raw) = _seen_paths s) ∧
  ((downloaded (_totals s) ≤ downloaded (_totals (classify env s raw)))%nat ∧
   (skipped (_totals s) ≤ skipped (_totals (classify env s raw)))%nat ∧
   (failed (_totals s) ≤ failed (_totals (classify env s raw)))%nat ∧
   (downloaded (_totals (classify env s raw)) + skipped (_totals (classify env s raw))
      + failed (_totals (classify env s raw))
    ≤ downloaded (_totals s) + skipped (_totals s) + failed (_totals s) + 1)%nat).
Proof.
  split.
  - intros Hn Hc.
    rewrite classify_error.
    + cbn [_totals _seen_paths counted add_failed failed downloaded skipped].
      split_and!; [lia|done..].
    + unfold is_error_line, error_needles in *.
      rewrite !elem_of_cons, elem_of_nil in Hn.
      destruct Hn as [->|[->|[->|[->|[]]]]]; rewrite Hc; by rewrite ?orb_true_r.
  - pose proof (classify_totals env s raw) as H.
    rewrite !elem_of_cons, elem_of_nil in H.
    destruct H as [->|[->|[->|[->|[]]]]];
      cbn [add_failed add_downloaded add_skipped failed downloaded skipped];
      split_and!; lia.
Qed.

Lemma error_line_counts_failed_witness :
  _totals Sample.one_batch_running = mkTotals 0 0 0 ∧
  failed (_totals (classify Sample.env Sample.one_batch_running "403 Forbidden")) = 1%nat ∧
  downloaded (_totals (classify Sample.env Sample.one_batch_running "403 Forbidden")) = 0%nat ∧
  skipped (_totals (classify Sample.env Sample.one_batch_running "403 Forbidden")) = 0%nat ∧
  _seen_paths (classify Sample.env Sample.one_batch_running "403 Forbidden")
    = _seen_paths Sample.one_batch_running.
Proof.
  assert (H0 : _totals Sample.one_batch_running = mkTotals 0 0 0)
    by (vm_compute; reflexivity).
  destruct (proj1 (error_line_counts_failed Sample.env Sample.one_batch_running
                     "403 Forbidden" "forbidden"))
    as (Hf & Hd & Hs & Hseen).
  - vm_compute. do 2 right. left.
  - vm_compute. reflexivity.
  - split_and!.
    + exact H0.
    + rewrite Hf, H0. reflexivity.
    + rewrite Hd, H0. reflexivity.
    + rewrite Hs, H0. reflexivity.
    + exact Hseen.
Defined.

Lemma predates_lt m t : (m < t + (1 # 2))%Q → predates m t = true.
Proof.
  unfold predates. intros H.
  destruct (m ?= t + (1 # 2))%Q eqn:E; [|done|].
  - apply Qeq_alt in E. rewrite E in H. by apply Qlt_irrefl in H.
  - apply Qgt_alt in E. exfalso. by apply (Qlt_irrefl m), (Qlt_trans _ (t + (1 # 2))).
Qed.

Lemma predates_ge m t : (t + (1 # 2) <= m)%Q → predates m t = false.
Proof.
  unfold predates. intros H.
  destruct (m ?= t + (1 # 2))%Q eqn:E; [done| |done].
  apply Qlt_alt in E. by apply Qle_not_lt in H.
Qed.

(** C5.  A line that is no error line and shows a media path not yet seen
    in the batch is counted by the probe of the file: no such file, one
    more downloaded; a file modified before batch start + 0.5 s, one more
    skipped; a file modified at or after that, one more downloaded; any
    other failure of the probe, one more skipped.  The classifier returns
    a state in every case. *)
Theorem new_path_counts_by_probe (env : Env) (s : State) (raw path : string) :
  is_error_line (Py.lower (Py.strip raw)) = false →
  FileRe.search (Py.strip raw) = Some path →
  path ∉ _seen_paths s →
  (os_stat env path = StatNotFound →
     downloaded (_totals (classify env s raw)) = (downloaded (_totals s) + 1)%nat ∧
     skipped (_totals (classify env s raw)) = skipped (_totals s) ∧
     failed (_totals (classify env s raw)) = failed (_totals s)) ∧
  (∀ m, os_stat env path = StatOk m → (m < _batch_started_at s + (1 # 2))%Q →
     skipped (_totals (classify env s raw)) = (skipped (_totals s) + 1)%nat ∧
     downloaded (_totals (classify env s raw)) = downloaded (_totals s) ∧
     failed (_totals (classify env s raw)) = failed (_totals s)) ∧
  (∀ m, os_stat env path = StatOk m → (_batch_started_at s + (1 # 2) <= m)%Q →
     downloaded (_totals (classify env s raw)) = (downloaded (_totals s) + 1)%nat ∧
     skipped (_totals (classify env s raw)) = skipped (_totals s) ∧
     failed (_totals (classify env s raw)) = failed (_totals s)) ∧
  (os_stat env path = StatError →
     skipped (_totals (classify env s raw)) = (skipped (_totals s) + 1)%nat ∧
     downloaded (_totals (classify env s raw)) = downloaded (_totals s) ∧
     failed (_totals (classify env s raw)) = failed (_totals s)).
Proof.
  intros He Hs Hn. rewrite (classify_new env s raw path) by done.
  cbn [_totals counted]. unfold probe_totals. split_and!.
  - intros ->. cbn [add_downloaded failed downloaded skipped]. split_and!; [lia|done..].
  - intros m -> Hm. rewrite predates_lt by done.
    cbn [add_skipped failed downloaded skipped]. split_and!; [lia|done..].
  - intros m -> Hm. rewrite predates_ge by done.
    cbn [add_downloaded failed downloaded skipped]. split_and!; [lia|done..].
  - intros ->. cbn [add_skipped failed downloaded skipped]. split_and!; [lia|done..].
Qed.

Lemma new_path_counts_by_probe_witness :
  _totals Sample.one_batch_running = mkTotals 0 0 0 ∧
  skipped (_totals (classify Sample.env Sample.one_batch_running
                      "Downloading /tmp/out/old.png")) = 1%nat ∧
  downloaded (_totals (classify Sample.env Sample.one_batch_running
                         "Downloading /tmp/out/old.png")) = 0%nat ∧
  failed (_totals (classify Sample.env Sample.one_batch_running
                     "Downloading /tmp/out/old.png")) = 0%nat.
Proof.
  assert (H0 : _totals Sample.one_batch_running = mkTotals 0 0 0)
    by (vm_compute; reflexivity).
  destruct (proj1 (proj2 (new_path_counts_by_probe Sample.env Sample.one_batch_running
                            "Downloading /tmp/out/old.png" "/tmp/out/old.png"
                            ltac:(vm_compute; reflexivity) ltac:(vm_compute; reflexivity)
                            ltac:(vm_compute; set_solver)))
              (10 # 1)%Q ltac:(vm_compute; reflexivity) ltac:(vm_compute; reflexivity))
    as (Hs & Hd & Hf).
  split_and!.
  - exact H0.
  - rewrite Hs, H0. reflexivity.
  - rewrite Hd, H0. reflexivity.
  - rewrite Hf, H0. reflexivity.
Defined.

Lemma classify_records_path env s raw path :
  is_error_line (Py.lower (Py.strip raw)) = false →
  FileRe.search (Py.strip raw) = Some path →
  path ∈ _seen_paths (classify env s raw).
Proof.
  intros He Hs.
  destruct (decide (path ∈ _seen_paths s)) as [Hin|Hnin].
  - by rewrite (classify_seen env s raw path).
  - rewrite (classify_new env s raw path) by done. cbn. set_solver.
Qed.

Lemma feed_in_seen_mono chunks s : _seen_paths s ⊆ _seen_paths (feed_in chunks s).
Proof.
  unfold feed_in.
  revert s; induction chunks as [|d chunks IH]; intros s; simpl; [done|].
  etrans; [apply (read_output_seen_mono d.1 d.2 s)|apply IH].
Qed.

(** C9.  Within a batch a file path is counted once.  A line that shows a
    path already seen changes nothing; the first line that shows a path
    records it, so that a later line with the same path, whatever output
    of the batch came in between, changes nothing; and the set of seen
    paths is empty again when the next batch is started. *)
Theorem path_counted_once_per_batch (env env' : Env) (s : State) (raw raw' path : string)
    (chunks : list (Env * string)) (b : list string) :
  is_error_line (Py.lower (Py.strip raw)) = false →
  FileRe.search (Py.strip raw) = Some path →
  is_error_line (Py.lower (Py.strip raw')) = false →
  FileRe.search (Py.strip raw') = Some path →
  (path ∈ _seen_paths s → classify env s raw = s) ∧
  classify env' (feed_in chunks (classify env s raw)) raw'
    = feed_in chunks (classify env s raw) ∧
  (-1 ≤ _batch_index s →
   _batches s !! Z.to_nat (_batch_index s + 1) = Some b →
   ∃ s', _run_next_batch env s = Ok () s' ∧ _seen_paths s' = ∅ ∧
         started s' = started s ++ [(_build_common_args env, b)]).
Proof.
  intros He Hs He' Hs'. split_and!.
  - intros Hin. by apply (classify_seen env s raw path).
  - apply (classify_seen env' _ raw' path); [done..|].
    apply (feed_in_seen_mono chunks), (classify_records_path env s raw path); done.
  - intros Hi Hb. rewrite (run_next_batch_some env s b) by done. by eexists.
Qed.

Lemma path_counted_once_per_batch_witness :
  _totals (classify Sample.env
             (feed_in [(Sample.env, "403 Forbidden")]
                (classify Sample.env Sample.one_batch_running "Downloading /tmp/out/photo.jpg"))
             "Saved /tmp/out/photo.jpg")
    = mkTotals 1 0 1.
Proof.
  assert (H1 : is_error_line (Py.lower (Py.strip "Downloading /tmp/out/photo.jpg")) = false)
    by (vm_compute; reflexivity).
  assert (H2 : FileRe.search (Py.strip "Downloading /tmp/out/photo.jpg")
               = Some "/tmp/out/photo.jpg") by (vm_compute; reflexivity).
  assert (H3 : is_error_line (Py.lower (Py.strip "Saved /tmp/out/photo.jpg")) = false)
    by (vm_compute; reflexivity).
  assert (H4 : FileRe.search (Py.strip "Saved /tmp/out/photo.jpg")
               = Some "/tmp/out/photo.jpg") by (vm_compute; reflexivity).
  rewrite (proj1 (proj2 (path_counted_once_per_batch Sample.env Sample.env
                           Sample.one_batch_running
                           "Downloading /tmp/out/photo.jpg" "Saved /tmp/out/photo.jpg"
                           "/tmp/out/photo.jpg" [(Sample.env, "403 Forbidden")] []
                           H1 H2 H3 H4))).
  vm_compute. reflexivity.
Defined.

(** ** URL Normalizer *)

Lemma clean_urls_returns env text s :
  (∀ u, u ∈ candidates text → urlparse env u ≠ None) →
  _clean_urls env text s =
    Ok (List.filter (is_url (urlparse env)) (candidates text))
       (if Nat.eqb (length (List.filter (λ u, negb (is_url (urlparse env) u))
                              (candidates text))) 0
        then s
        else _log (LogSkippedNonUrl
                     (length (List.filter (λ u, negb (is_url (urlparse env) u))
                                (candidates text)))) s).
Proof.
  intros Hp. unfold _clean_urls.
  by rewrite (clean_loop_returns _ _ [] 0%nat Hp).
Qed.














(** * Further properties of the engine *)

(** ** Batch Planner *)

Lemma plan_step_near_budget C M p u : near_budget C M p → near_budget C M (plan_step C M p u).
Proof.
  unfold near_budget, plan_step; intros (Hlen & Hfit & Hclosed).
  destruct (is_empty (cur p)) eqn:E; simpl.
  - apply is_empty_true in E. rewrite E in *. simpl. split_and!; [|lia|done].
    unfold cmd_len in *. simpl in *. lia.
  - destruct (M <? cur_len p + (Py.len u + 1)) eqn:Hover; simpl.
    + split_and!.
      * unfold cmd_len. simpl. lia.
      * lia.
      * apply Forall_app; split; [done|]. apply Forall_singleton. intros Hn.
        specialize (Hfit Hn). lia.
    + apply Z.ltb_ge in Hover. split_and!; [|lia|done].
      rewrite cmd_len_snoc. lia.
Qed.

Lemma plan_fold_near_budget C M urls p :
  near_budget C M p → near_budget C M (foldl (plan_step C M) p urls).
Proof.
  revert p; induction urls as [|u urls IH]; intros p H; simpl; [done|].
  by apply IH, plan_step_near_budget.
Qed.

(** X1.  Every batch of two or more URLs has a serialised length of at
    most the budget plus one. *)
Theorem batch_at_most_one_over (urls : list string) (C M : Z) (B : list string) :
  B ∈ _build_batches urls C M →
  (2 ≤ length B)%nat →
  cmd_len C B ≤ M + 1.
Proof.
  intros HB Hn.
  assert (Hinv : near_budget C M (foldl (plan_step C M) (mkPlan [] [] C) urls)).
  { apply plan_fold_near_budget. split_and!; simpl; [unfold cmd_len; simpl; lia|lia|done]. }
  destruct Hinv as (Hlen & Hfit & Hclosed).
  unfold _build_batches, plan_flush in HB.
  destruct (is_empty _).
  - eapply Forall_forall in Hclosed; [|done]. by apply Hclosed.
  - apply elem_of_app in HB as [HB|HB].
    + eapply Forall_forall in Hclosed; [|done]. by apply Hclosed.
    + apply list_elem_of_singleton in HB as ->. specialize (Hfit Hn). lia.
Qed.

Lemma batch_at_most_one_over_witness : cmd_len 0 ["bbbb"; "ccccc"] ≤ 10 + 1.
Proof.
  apply (batch_at_most_one_over ["aaaaaaaaa"; "bbbb"; "ccccc"] 0 10 ["bbbb"; "ccccc"]);
    [vm_compute; set_solver|simpl; lia].
Defined.

Lemma cmd_len_app_le C l l' : cmd_len C l ≤ cmd_len C (l ++ l').
Proof.
  induction l' as [|u l' IH] using rev_ind; [by rewrite app_nil_r|].
  rewrite app_assoc, cmd_len_snoc. unfold Py.len. lia.
Qed.

Lemma plan_fold_fits C M urls p :
  batches p = [] →
  cur_len p = cmd_len C (cur p) →
  cmd_len C (cur p ++ urls) ≤ M →
  foldl (plan_step C M) p urls = mkPlan [] (cur p ++ urls) (cmd_len C (cur p ++ urls)).
Proof.
  revert p; induction urls as [|u urls IH]; intros p Hb Hl Hfit; simpl.
  - rewrite app_nil_r, <- Hb, <- Hl. by destruct p.
  - assert (Hstep : plan_step C M p u = mkPlan [] (cur p ++ [u]) (cmd_len C (cur p ++ [u]))).
    { unfold plan_step.
      assert ((M <? cur_len p + (Py.len u + 1)) = false) as ->.
      { apply Z.ltb_ge. rewrite Hl, <- cmd_len_snoc.
        etrans; [|exact Hfit].
        replace (cur p ++ u :: urls) with ((cur p ++ [u]) ++ urls)
          by (by rewrite <- app_assoc).
        apply cmd_len_app_le. }
      rewrite andb_false_r, Hb, cmd_len_snoc, Hl. done. }
    rewrite Hstep, IH; simpl; rewrite <- ?app_assoc; done.
Qed.

(** X2.  URLs that fit one invocation are planned as one batch, and an
    empty list as no batch at all. *)
Theorem fitting_urls_make_one_batch (urls : list string) (C M : Z) :
  _build_batches [] C M = [] ∧
  (urls ≠ [] → cmd_len C urls ≤ M → _build_batches urls C M = [urls]).
Proof.
  split; [done|]. intros Hne Hfit. unfold _build_batches.
  rewrite (plan_fold_fits C M urls (mkPlan [] [] C));
    [|done|unfold cmd_len; simpl; lia|done].
  unfold plan_flush. simpl. by destruct urls.
Qed.

Lemma fitting_urls_make_one_batch_witness :
  _build_batches ["https://x.com/1"; "https://x.com/2"] 32 30000
    = [["https://x.com/1"; "https://x.com/2"]].
Proof.
  apply (proj2 (fitting_urls_make_one_batch ["https://x.com/1"; "https://x.com/2"] 32 30000));
    [discriminate|vm_compute; discriminate].
Defined.

Lemma join_snoc l u :
  l ≠ [] → Py.len (Py.join " " (l ++ [u])) = Py.len (Py.join " " l) + (Py.len u + 1).
Proof.
  induction l as [|x l IH]; [done|]. intros _.
  destruct l as [|y l].
  - simpl. unfold Py.len. rewrite !length_append. simpl. lia.
  - change (Py.join " " ((x :: y :: l) ++ [u]))
      with (x +:+ " " +:+ Py.join " " ((y :: l) ++ [u])).
    change (Py.join " " (x :: y :: l)) with (x +:+ " " +:+ Py.join " " (y :: l)).
    unfold Py.len in *. rewrite !length_append.
    specialize (IH ltac:(done)). simpl in *. lia.
Qed.

(** X3.  The planner's formula is the length of the command line: for
    common arguments that are not empty, C + sum(len(u)+1 for u in B),
    with C the length of the joined common arguments, is the length of the
    joined arguments of the process that [_run_next_batch] starts. *)
Theorem cmd_len_is_joined_length (common B : list string) :
  common ≠ [] →
  Py.len (Py.join " " (common ++ B)) = cmd_len (Py.len (Py.join " " common)) B.
Proof.
  intros Hc. induction B as [|u B IH] using rev_ind.
  - rewrite app_nil_r. unfold cmd_len. simpl. lia.
  - rewrite app_assoc, join_snoc, IH, cmd_len_snoc; [done|].
    by destruct common.
Qed.

Lemma cmd_len_is_joined_length_witness :
  Py.len (Py.join " " (_build_common_args Sample.env ++ ["https://x.com/1"]))
    = cmd_len (Py.len (Py.join " " (_build_common_args Sample.env))) ["https://x.com/1"].
Proof. apply cmd_len_is_joined_length. discriminate. Defined.

(** ** URL Normalizer *)

Lemma clean_loop_some parse lines out n r :
  clean_loop parse lines out n = Some r →
  ∀ u, u ∈ map unbracket (List.filter nonblank lines) → parse u ≠ None.
Proof.
  revert out n; induction lines as [|ln lines IH]; intros out n H u Hu.
  - by apply elem_of_nil in Hu.
  - rewrite filter_nonblank_cons in Hu. cbn [clean_loop] in H.
    destruct (String.eqb ln "") eqn:E; [by eapply IH|].
    cbn [map] in Hu. apply elem_of_cons in Hu.
    destruct (parse (unbracket ln)) as [p|] eqn:Ep; [|done].
    destruct Hu as [->|Hu]; [by rewrite Ep|].
    destruct (accepted p); by eapply IH.
Qed.

Lemma filter_split_length {A} (f : A → bool) (l : list A) :
  (length (List.filter f l) + length (List.filter (λ x, negb (f x)) l) = length l)%nat.
Proof. induction l as [|x l IH]; simpl; [done|]. destruct (f x); simpl; lia. Qed.

Lemma filter_all {A} (f : A → bool) (l : list A) :
  Forall (λ x, f x = true) (List.filter f l).
Proof.
  induction l as [|x l IH]; simpl; [done|].
  destruct (f x) eqn:E; [by constructor|done].
Qed.

(** X4.  When [_clean_urls] returns, every line that is not blank is
    either in the result or in the count of skipped lines that it logs,
    and every line of the result passed the test on scheme and network
    location. *)
Theorem clean_urls_accounts_for_lines (env : Env) (text : string) (s s1 : State)
    (out : list string) :
  _clean_urls env text s = Ok out s1 →
  ∃ nskipped,
    (length out + nskipped = length (candidates text))%nat ∧
    Forall (λ u, is_url (urlparse env) u = true) out ∧
    log s1 = log s ++ (if Nat.eqb nskipped 0 then [] else [LogSkippedNonUrl nskipped]).
Proof.
  unfold _clean_urls. intros H.
  destruct (clean_loop _ _ _ _) as [[out' n]|] eqn:E; [|done].
  pose proof (clean_loop_some _ _ _ _ _ E) as Hp.
  rewrite (clean_loop_returns _ _ [] 0%nat Hp) in E.
  injection E as <- <-. injection H as <- <-.
  eexists. split_and!.
  - apply filter_split_length.
  - apply filter_all.
  - simpl. destruct (Nat.eqb _ 0); [by rewrite app_nil_r|done].
Qed.

Lemma clean_urls_accounts_for_lines_witness :
  ∃ nskipped,
    (length ["https://example.com/a"; "https://example.com/a"] + nskipped
       = length (candidates Sample.scenario_a))%nat ∧
    Forall (λ u, is_url Sample.urlparse u = true)
      ["https://example.com/a"; "https://example.com/a"] ∧
    log (_log (LogSkippedNonUrl 1) init)
      = log init ++ (if Nat.eqb nskipped 0 then [] else [LogSkippedNonUrl nskipped]).
Proof.
  apply (clean_urls_accounts_for_lines Sample.env Sample.scenario_a init).
  vm_compute. reflexivity.
Defined.

(** X5.  [_clean_urls] raises exactly when [urlparse] raises on one of the
    lines it is given, and then it has written nothing; otherwise it
    returns. *)
Theorem clean_urls_raises_with_urlparse (env : Env) (text : string) (s : State) :
  ((∃ u, u ∈ candidates text ∧ urlparse env u = None) →
     _clean_urls env text s = Raise ValueError s) ∧
  ((∀ u, u ∈ candidates text → urlparse env u ≠ None) →
     ∃ out s1, _clean_urls env text s = Ok out s1).
Proof.
  split.
  - intros (u & Hu & Hn). unfold _clean_urls.
    destruct (clean_loop _ _ _ _) as [[out n]|] eqn:E; [|done].
    exfalso. by apply (clean_loop_some _ _ _ _ _ E u).
  - intros Hp. rewrite clean_urls_returns by done. by do 2 eexists.
Qed.

Lemma clean_urls_raises_with_urlparse_witness :
  _clean_urls Sample.env "http://[::1/x" init = Raise ValueError init.
Proof.
  apply (proj1 (clean_urls_raises_with_urlparse Sample.env "http://[::1/x" init)).
  exists "http://[::1/x". split; [vm_compute; by left|vm_compute; reflexivity].
Defined.

Lemma dedupe_length_le l : (length (dedupe l) ≤ length l)%nat.
Proof.
  induction l as [|x l IH] using rev_ind; [done|].
  rewrite dedupe_snoc, !length_app. destruct (bool_decide _); simpl; lia.
Qed.

(** X6.  Removing duplicates a second time changes nothing, the result is
    never longer than the input, and it is as long as the input exactly
    when the input has no duplicate: only then [start_run] logs no removed
    duplicates. *)
Theorem dedupe_idempotent (l : list string) :
  dedupe (dedupe l) = dedupe l ∧
  (length (dedupe l) ≤ length l)%nat ∧
  (length (dedupe l) = length l ↔ NoDup l).
Proof.
  split_and!.
  - apply dedupe_id, dedupe_NoDup.
  - apply dedupe_length_le.
  - split; [|by intros H; rewrite dedupe_id].
    induction l as [|x l IH] using rev_ind; [intros _; apply NoDup_nil_2|].
    rewrite dedupe_snoc, !length_app. pose proof (dedupe_length_le l).
    destruct (bool_decide (x ∈ l)) eqn:E; simpl; [lia|]. intros Hlen.
    apply bool_decide_eq_false in E.
    apply NoDup_app. split_and!; [apply IH; lia| |apply NoDup_singleton].
    intros y Hy Hy'. apply list_elem_of_singleton in Hy' as ->. done.
Qed.

Lemma dedupe_idempotent_witness : NoDup ["a"; "b"].
Proof.
  apply (proj1 (proj2 (proj2 (dedupe_idempotent ["a"; "b"])))).
  vm_compute. reflexivity.
Defined.

(** ** Batch Runner *)

Lemma set_log_id s : set_log (log s) s = s.
Proof. by destruct s. Qed.

(** [start_run] either writes to the log only, or queues the accepted
    URLs and goes on to the first batch. *)
Lemma start_run_cases env text s :
  (∃ l, final (start_run env text s) = set_log l s ∧
        (bin_present env = false ∨ proc_running s = true ∨
         (∃ n, clean_loop (urlparse env) (map Py.strip (Py.splitlines text)) [] 0
                 = Some ([], n)) ∨
         clean_loop (urlparse env) (map Py.strip (Py.splitlines text)) [] 0 = None)) ∨
  (∃ out n, bin_present env = true ∧
            clean_loop (urlparse env) (map Py.strip (Py.splitlines text)) [] 0
              = Some (out, n) ∧
            out ≠ [] ∧ proc_running s = false ∧
            start_run env text s = _run_next_batch env (queued env out n s)).
Proof.
  destruct (bin_present env) eqn:Hbin.
  2:{ left. exists (log s). unfold start_run. rewrite Hbin. cbn. rewrite set_log_id. auto. }
  destruct (clean_loop (urlparse env) (map Py.strip (Py.splitlines text)) [] 0)
    as [[out n]|] eqn:Hclean.
  2:{ left. eexists. unfold start_run, _clean_urls. rewrite Hbin, Hclean. cbn.
      rewrite maybe_check_update_log. auto 6. }
  destruct out as [|u out].
  { left. unfold start_run, _clean_urls. rewrite Hbin, Hclean. cbn.
    rewrite maybe_check_update_log.
    destruct (Nat.eqb n 0); eexists; (split; [done|]); eauto 6. }
  destruct (proc_running s) eqn:Hrun.
  - left. unfold start_run, _clean_urls. rewrite Hbin, Hclean. cbn [negb bind is_empty].
    rewrite maybe_check_update_log.
    destruct (Nat.eqb n 0), (negb (llen (dedupe (u :: out)) =? llen (u :: out)));
      unfold _log; rewrite ?proc_running_set_log, Hrun; cbn [final];
      eexists; (split; [done|]); auto.
  - right. exists (u :: out), n. split_and!; [done..|].
    by apply start_run_eq.
Qed.

(** X7.  [start_run] turns a request down without touching the run: with
    the binary missing the state stays as it is, and while a process runs
    or when no line is a URL, nothing but the log changes: nothing is
    queued, planned, reset or started. *)
Theorem start_run_turns_down (env : Env) (text : string) (s : State) :
  (bin_present env = false → start_run env text s = Ok () s) ∧
  ((∀ u, u ∈ candidates text → urlparse env u ≠ None) →
   proc_running s = true ∨ (∀ u, u ∈ candidates text → is_url (urlparse env) u = false) →
   ∃ l, start_run env text s = Ok () (set_log l s)).
Proof.
  split.
  - intros Hbin. unfold start_run. by rewrite Hbin.
  - intros Hp Hwhy.
    destruct (bin_present env) eqn:Hbin.
    2:{ exists (log s). unfold start_run. rewrite Hbin. cbn. by rewrite set_log_id. }
    unfold start_run. rewrite Hbin. cbn [negb].
    rewrite clean_urls_returns by done. cbn [bind].
    rewrite maybe_check_update_log.
    set (out := List.filter (is_url (urlparse env)) (candidates text)).
    set (k := length (List.filter (λ u, negb (is_url (urlparse env) u)) (candidates text))).
    destruct out as [|u out'] eqn:Eout.
    { cbn [is_empty]. destruct (Nat.eqb k 0); by eexists. }
    destruct Hwhy as [Hrun|Hnone].
    + cbn [is_empty].
      destruct (Nat.eqb k 0), (negb (llen (dedupe (u :: out')) =? llen (u :: out')));
        unfold _log; rewrite ?proc_running_set_log, Hrun; by eexists.
    + exfalso.
      assert (Hu : u ∈ List.filter (is_url (urlparse env)) (candidates text))
        by (fold out; rewrite Eout; by left).
      apply list_elem_of_In, filter_In in Hu as [Hu1 Hu2].
      apply list_elem_of_In in Hu1. by rewrite (Hnone u Hu1) in Hu2.
Qed.

Lemma start_run_turns_down_witness :
  ∃ l, start_run Sample.env "not a url" Sample.one_batch_running
         = Ok () (set_log l Sample.one_batch_running).
Proof.
  apply (proj2 (start_run_turns_down Sample.env "not a url" Sample.one_batch_running)).
  - intros u Hu. assert (Hc : candidates "not a url" = ["not a url"]) by (vm_compute; reflexivity).
    rewrite Hc in Hu. apply list_elem_of_singleton in Hu as ->. vm_compute. discriminate.
  - left. vm_compute. reflexivity.
Defined.

Lemma sum_len_concat bs : sum_len bs = llen (concat bs).
Proof.
  unfold llen. induction bs as [|b bs IH]; simpl; [done|].
  rewrite length_app, IH. unfold llen. lia.
Qed.

Lemma sum_len_slice_bounds bs i : 0 ≤ sum_len (Py.slice_to bs i) ≤ sum_len bs.
Proof.
  assert (H : ∀ n, 0 ≤ sum_len (take n bs) ≤ sum_len bs).
  { intros n. rewrite <- (take_drop n bs) at 3.
    rewrite !sum_len_concat, concat_app. unfold llen. rewrite length_app. lia. }
  unfold Py.slice_to. destruct (0 <=? i); apply H.
Qed.

Lemma progress_within s i :
  concat (_batches s) = queue s →
  0 ≤ sum_len (Py.slice_to (_batches s) i) ≤ llen (queue s).
Proof. intros <-. rewrite <- sum_len_concat. apply sum_len_slice_bounds. Qed.

Lemma classify_consistent env s raw : consistent s → consistent (classify env s raw).
Proof.
  intros (Hc & Hn & Hp).
  assert (Hd : 0 ≤ done_urls s ≤ llen (queue s)) by (by apply progress_within).
  destruct (is_error_line (Py.lower (Py.strip raw))) eqn:E1.
  { rewrite classify_error by done. split_and!; cbn; first [done|lia]. }
  destruct (FileRe.search (Py.strip raw)) as [path|] eqn:E2.
  2:{ by rewrite classify_noise. }
  destruct (decide (path ∈ _seen_paths s)) as [Hin|Hnin].
  { by rewrite (classify_seen env s raw path). }
  rewrite (classify_new env s raw path) by done. split_and!; cbn; first [done|lia].
Qed.

Lemma read_output_consistent env data s : consistent s → consistent (_read_output env data s).
Proof.
  intros H. unfold _read_output. destruct (proc s); [|done].
  destruct (String.eqb data ""); [done|].
  generalize (Py.splitlines data). intros lines.
  assert (H' : consistent (_log (LogOutput (Py.rstrip_char Py.LF data)) s)) by done.
  revert H'. generalize (_log (LogOutput (Py.rstrip_char Py.LF data)) s).
  induction lines as [|raw lines IH]; intros s' H'; simpl; [done|].
  by apply IH, classify_consistent.
Qed.

Lemma run_next_batch_consistent env s :
  consistent s → consistent (final (_run_next_batch env s)).
Proof.
  intros (Hc & Hn & Hp). rewrite run_next_batch_cases.
  destruct (_ <=? _).
  - split_and!; [done..|cbn; unfold llen; lia|cbn; lia].
  - by destruct (Py.getitem _ _).
Qed.

Lemma finished_batch_consistent env exit_code s :
  consistent s → consistent (final (_finished_batch env exit_code s)).
Proof.
  intros (Hc & Hn & Hp). rewrite finished_batch_eq.
  apply run_next_batch_consistent.
  pose proof (progress_within s (_batch_index s + 1) Hc).
  split_and!; cbn; first [done|lia].
Qed.

Lemma start_run_consistent env text s :
  consistent s → consistent (final (start_run env text s)).
Proof.
  intros H.
  destruct (start_run_cases env text s) as [(l & -> & _)|(out & n & _ & _ & _ & _ & ->)];
    [done|].
  apply run_next_batch_consistent. split_and!; cbn.
  - apply build_batches_concat.
  - apply dedupe_NoDup.
  - done.
  - unfold llen. lia.
Qed.

Lemma handle_consistent s ev : consistent s → consistent (handle s ev).
Proof.
  intros H. destruct ev as [env [text|w|data|code]]; unfold handle, emit; cbn [fst snd].
  - by apply start_run_consistent.
  - rewrite stop_run_eq. split_and!; cbn; [done|apply NoDup_nil_2|done..].
  - by apply read_output_consistent.
  - by apply finished_batch_consistent.
Qed.

(** X8.  Whatever the toolkit delivers to the widget, the planned batches
    put end to end are the queue, the queue has no duplicate, and the
    progress label never shows more done than there is in total, nor a
    negative number. *)
Theorem engine_stays_consistent (evs : list (Env * Event)) :
  concat (_batches (run_events init evs)) = queue (run_events init evs) ∧
  NoDup (queue (run_events init evs)) ∧
  0 ≤ (sum_progress (run_events init evs)).1 ≤ (sum_progress (run_events init evs)).2.
Proof.
  assert (H : ∀ s, consistent s → consistent (run_events s evs)).
  { unfold run_events. induction evs as [|ev evs IH]; intros s Hs; simpl; [done|].
    by apply IH, handle_consistent. }
  apply H. split_and!; [done|apply NoDup_nil_2|done..].
Qed.

Lemma totals_le_refl t : totals_le t t.
Proof. unfold totals_le. lia. Qed.

Lemma totals_le_trans t1 t2 t3 : totals_le t1 t2 → totals_le t2 t3 → totals_le t1 t3.
Proof. unfold totals_le. lia. Qed.

Lemma classify_totals_le env s raw : totals_le (_totals s) (_totals (classify env s raw)).
Proof.
  pose proof (classify_totals env s raw) as H.
  rewrite !elem_of_cons, elem_of_nil in H.
  destruct H as [->|[->|[->|[->|[]]]]]; unfold totals_le; simpl; lia.
Qed.

Lemma read_output_totals_le env data s :
  totals_le (_totals s) (_totals (_read_output env data s)).
Proof.
  unfold _read_output. destruct (proc s); [|apply totals_le_refl].
  destruct (String.eqb data ""); [apply totals_le_refl|].
  change (_totals s) with (_totals (_log (LogOutput (Py.rstrip_char Py.LF data)) s)).
  generalize (_log (LogOutput (Py.rstrip_char Py.LF data)) s).
  induction (Py.splitlines data) as [|raw lines IH]; intros s'; simpl;
    [apply totals_le_refl|].
  eapply totals_le_trans; [apply (classify_totals_le env s' raw)|apply IH].
Qed.

Lemma finished_batch_totals env exit_code s :
  _totals (final (_finished_batch env exit_code s)) = finished_totals exit_code s.
Proof. by rewrite finished_batch_eq, run_next_batch_totals. Qed.

Lemma finished_totals_le exit_code s : totals_le (_totals s) (finished_totals exit_code s).
Proof.
  unfold finished_totals. destruct (negb _); [|apply totals_le_refl].
  unfold totals_le. simpl. lia.
Qed.

Lemma stop_run_totals env w s :
  _totals (final (stop_run env w s)) = _totals (stop_pre env w s).
Proof. by rewrite stop_run_eq. Qed.

Lemma totals_log m s : _totals (_log m s) = _totals s.
Proof. done. Qed.

Lemma handle_totals_le s ev :
  is_run ev = false → totals_le (_totals s) (_totals (handle s ev)).
Proof.
  destruct ev as [env [text|w|data|code]]; unfold handle, emit; cbn [fst snd];
    intros Hev; [done| | |].
  - rewrite stop_run_totals. unfold stop_pre.
    destruct (proc_running s); [|apply totals_le_refl].
    destruct w; [|apply totals_le_refl].
    rewrite totals_log. unfold emit.
    rewrite finished_batch_totals. apply finished_totals_le.
  - apply read_output_totals_le.
  - rewrite finished_batch_totals. apply finished_totals_le.
Qed.

(** X9.  The three counters never go down while a run lasts: no output,
    end of process or click on Stop lowers one of them.  A click on Run
    leaves them as they are or starts them again from zero. *)
Theorem totals_never_decrease (s : State) (evs : list (Env * Event)) (env : Env)
    (text : string) :
  (forallb (λ ev, negb (is_run ev)) evs = true →
     totals_le (_totals s) (_totals (run_events s evs))) ∧
  (_totals (handle s (env, Run text)) = _totals s ∨
   _totals (handle s (env, Run text)) = zero_totals).
Proof.
  split.
  - unfold run_events. revert s; induction evs as [|ev evs IH]; intros s Hev; simpl.
    + apply totals_le_refl.
    + simpl in Hev. apply andb_true_iff in Hev as [Hev1 Hev].
      apply negb_true_iff in Hev1.
      eapply totals_le_trans; [by apply handle_totals_le|by apply IH].
  - rewrite handle_run.
    destruct (start_run_cases env text s) as [(l & -> & _)|(out & n & _ & _ & _ & _ & ->)].
    + by left.
    + right. by rewrite run_next_batch_totals.
Qed.

Lemma totals_never_decrease_witness :
  totals_le (_totals Sample.one_batch_running)
    (_totals (run_events Sample.one_batch_running
                [(Sample.env, ReadyRead "403 Forbidden"); (Sample.env, Finished 1)])).
Proof.
  apply (proj1 (totals_never_decrease Sample.one_batch_running
                  [(Sample.env, ReadyRead "403 Forbidden"); (Sample.env, Finished 1)]
                  Sample.env "")).
  reflexivity.
Defined.

(** X10.  [stop_run] is safe to repeat: once it has left no process
    running, calling it again returns and changes nothing. *)
Theorem stop_again_changes_nothing (env env' : Env) (w w' : WaitResult) (s : State) :
  proc_running (final (stop_run env w s)) = false →
  stop_run env' w' (final (stop_run env w s)) = Ok () (final (stop_run env w s)).
Proof.
  rewrite (stop_run_eq env w s). cbn [final]. cbv zeta.
  generalize (stop_pre env w s). intros s1 Hidle.
  rewrite stop_run_eq. unfold stop_pre. rewrite Hidle. done.
Qed.

Lemma stop_again_changes_nothing_witness :
  proc_running Sample.one_batch_running = true ∧
  log (final (stop_run Sample.env (WaitFinished 0) Sample.one_batch_running))
    = log Sample.one_batch_running ++ [LogBatchDone 1 (mkTotals 0 0 0); LogAllDone; LogStopped] ∧
  stop_run Sample.env WaitTimedOut
      (final (stop_run Sample.env (WaitFinished 0) Sample.one_batch_running))
    = Ok () (final (stop_run Sample.env (WaitFinished 0) Sample.one_batch_running)).
Proof.
  split_and!.
  - vm_compute. reflexivity.
  - vm_compute. reflexivity.
  - apply (stop_again_changes_nothing Sample.env Sample.env (WaitFinished 0) WaitTimedOut
             Sample.one_batch_running).
    vm_compute. reflexivity.
Defined.

(** ** A run that nobody interrupts *)

Lemma handle_ready_read s env data : handle s (env, ReadyRead data) = _read_output env data s.
Proof. reflexivity. Qed.

Lemma handle_finished s env exit_code :
  handle s (env, Finished exit_code) = final (_finished_batch env exit_code s).
Proof. reflexivity. Qed.

Lemma run_events_cons s ev evs : run_events s (ev :: evs) = run_events (handle s ev) evs.
Proof. reflexivity. Qed.

Lemma read_output_running_plan bs q st0 env data s :
  running_plan bs q st0 s → running_plan bs q st0 (_read_output env data s).
Proof.
  intros (Hi & Hb & Hq & Hst & Hdone).
  pose proof (read_output_frame env data s) as H. injection H as Hp' Hq' Hi' Hb' Hst'.
  unfold running_plan. rewrite Hq', Hi', Hb', Hst'. split_and!; [done..|].
  intros Hall. destruct (Hdone Hall) as (Hp & ?).
  unfold _read_output. by rewrite Hp.
Qed.

Lemma finished_batch_running_plan bs q st0 env exit_code s :
  running_plan bs q st0 s →
  running_plan bs q st0 (final (_finished_batch env exit_code s)) ∧
  _batch_index (final (_finished_batch env exit_code s)) = _batch_index s + 1.
Proof.
  intros (Hi & Hb & Hq & Hst & Hdone).
  rewrite finished_batch_eq, run_next_batch_cases. cbn [_batches _batch_index finished_pre].
  rewrite Hb.
  destruct (llen bs <=? _batch_index s + 1) eqn:E.
  - apply Z.leb_le in E. unfold llen in E. split; [|done].
    split_and!; cbn; [lia|done|done| |by rewrite Hq].
    rewrite Hst. f_equal. rewrite !take_ge by lia. done.
  - apply Z.leb_gt in E. unfold llen in E.
    rewrite getitem_nonneg by lia.
    destruct (lookup_lt_is_Some_2 bs (Z.to_nat (_batch_index s + 1))) as [b Hlk]; [lia|].
    rewrite Hlk. split; [|done].
    split_and!; cbn; [lia|done|done| |unfold llen; lia].
    rewrite fmap_app, Hst, <- app_assoc. f_equal. simpl.
    replace (Z.to_nat (_batch_index s + 1 + 1)) with (S (Z.to_nat (_batch_index s + 1)))
      by lia.
    by rewrite (take_S_r _ _ b).
Qed.

Lemma progress_running_plan bs q st0 evs s :
  forallb is_progress evs = true →
  running_plan bs q st0 s →
  running_plan bs q st0 (run_events s evs) ∧
  _batch_index (run_events s evs)
    = _batch_index s + Z.of_nat (length (List.filter is_finished evs)).
Proof.
  unfold run_events.
  revert s; induction evs as [|[env ev] evs IH]; intros s Hev Hs; simpl; [split; [done|lia]|].
  simpl in Hev. apply andb_true_iff in Hev as [Hev1 Hev].
  destruct ev as [text|w|data|code]; try done.
  - rewrite handle_ready_read.
    destruct (IH (_read_output env data s) Hev) as [H1 H2].
    { by apply read_output_running_plan. }
    split; [exact H1|]. rewrite H2.
    pose proof (read_output_frame env data s) as H. injection H as _ _ Hi' _ _.
    rewrite Hi'. unfold is_finished at 2. simpl. lia.
  - rewrite handle_finished.
    destruct (finished_batch_running_plan bs q st0 env code s Hs) as [Hs' Hi'].
    destruct (IH _ Hev Hs') as [H1 H2].
    split; [exact H1|]. rewrite H2, Hi'. unfold is_finished at 2. simpl. lia.
Qed.

(** X11.  A run that nobody interrupts works through its plan in order.
    After a click on Run that goes ahead, and whatever output and however
    many ends of process follow, the batches of the processes started
    since the click are the first batches of the plan, in order, one more
    than processes have ended; and once as many processes have ended as
    there are batches, no process is left, the progress label shows all
    URLs done and the Run button is enabled again. *)
Theorem run_works_through_plan (env : Env) (text : string) (s : State)
    (out : list string) (nskipped : nat) (evs : list (Env * Event)) :
  bin_present env = true →
  proc_running s = false →
  clean_loop (urlparse env) (map Py.strip (Py.splitlines text)) [] 0 = Some (out, nskipped) →
  out ≠ [] →
  forallb is_progress evs = true →
  (started (run_events s ((env, Run text) :: evs))).*2
    = (started s).*2
      ++ take (S (length (List.filter is_finished evs)))
           (_build_batches (dedupe out) (Py.len (Py.join " " (_build_common_args env)))
              default_max_cmd_len) ∧
  ((length (_build_batches (dedupe out) (Py.len (Py.join " " (_build_common_args env)))
              default_max_cmd_len)
      ≤ length (List.filter is_finished evs))%nat →
   proc (run_events s ((env, Run text) :: evs)) = None ∧
   sum_progress (run_events s ((env, Run text) :: evs))
     = (llen (dedupe out), llen (dedupe out)) ∧
   run_btn (run_events s ((env, Run text) :: evs)) = true ∧
   stop_btn (run_events s ((env, Run text) :: evs)) = false).
Proof.
  intros Hbin Hrun Hclean Hout Hev.
  set (bs := _build_batches (dedupe out) (Py.len (Py.join " " (_build_common_args env)))
               default_max_cmd_len).
  rewrite run_events_cons, handle_run.
  destruct (start_run_ok env text s out nskipped) as (b & Hb & ->); [done..|].
  cbn [final].
  assert (Hplan : running_plan bs (dedupe out) (started s).*2
                    (launched env b (queued env out nskipped s))).
  { cbn [_batches queued] in Hb. cbv zeta in Hb. fold bs in Hb.
    split_and!; cbn; [lia|done|done| |].
    - rewrite fmap_app. f_equal. simpl. destruct bs as [|b0 bs']; [done|].
      simpl in *. by injection Hb as ->.
    - fold bs. intros Hall. destruct bs; [done|]. unfold llen in Hall. simpl in Hall. lia. }
  destruct (progress_running_plan bs (dedupe out) (started s).*2 evs _ Hev Hplan)
    as [(Hi & _ & _ & Hst & Hdone) Hidx].
  cbn [_batch_index launched queued] in Hidx.
  split.
  - rewrite Hst, Hidx. do 2 f_equal. lia.
  - intros Hall. apply Hdone. rewrite Hidx. unfold llen. lia.
Qed.

Lemma run_works_through_plan_witness :
  (started (run_events init
              ((Sample.env, Run Sample.scenario_a)
               :: [(Sample.env, ReadyRead "403 Forbidden"); (Sample.env, Finished 0)]))).*2
    = (started init).*2
      ++ take 2 (_build_batches (dedupe ["https://example.com/a"; "https://example.com/a"])
                   (Py.len (Py.join " " (_build_common_args Sample.env)))
                   default_max_cmd_len) ∧
  proc (run_events init
          ((Sample.env, Run Sample.scenario_a)
           :: [(Sample.env, ReadyRead "403 Forbidden"); (Sample.env, Finished 0)])) = None.
Proof.
  destruct (run_works_through_plan Sample.env Sample.scenario_a init
              ["https://example.com/a"; "https://example.com/a"] 1
              [(Sample.env, ReadyRead "403 Forbidden"); (Sample.env, Finished 0)])
    as [H1 H2];
    [reflexivity|reflexivity|vm_compute; reflexivity|discriminate|reflexivity|].
  split; [exact H1|].
  apply H2. vm_compute. lia.
Defined.

(** ** What a chunk adds to the counters *)

Lemma classify_counts env s raw :
  failed (_totals (classify env s raw))
    = (failed (_totals s)
       + (if is_error_line (Py.lower (Py.strip raw)) then 1 else 0))%nat ∧
  _error_lines (classify env s raw)
    = _error_lines s + (if is_error_line (Py.lower (Py.strip raw)) then 1 else 0) ∧
  (downloaded (_totals (classify env s raw)) + skipped (_totals (classify env s raw))
     + size (_seen_paths s)
   = downloaded (_totals s) + skipped (_totals s) + size (_seen_paths (classify env s raw)))%nat.
Proof.
  destruct (is_error_line (Py.lower (Py.strip raw))) eqn:E1.
  { rewrite classify_error by done. cbn. split_and!; lia. }
  destruct (FileRe.search (Py.strip raw)) as [path|] eqn:E2.
  2:{ rewrite classify_noise by done. split_and!; lia. }
  destruct (decide (path ∈ _seen_paths s)) as [Hin|Hnin].
  { rewrite (classify_seen env s raw path) by done. split_and!; lia. }
  rewrite (classify_new env s raw path) by done. cbn.
  rewrite size_union by set_solver. rewrite size_singleton.
  unfold probe_totals.
  destruct (os_stat env path) as [m| |]; [destruct (predates _ _)|..]; simpl;
    split_and!; lia.
Qed.

Lemma classify_all_counts env lines s :
  failed (_totals (foldl (classify env) s lines))
    = (failed (_totals s) + error_count lines)%nat ∧
  _error_lines (foldl (classify env) s lines)
    = _error_lines s + Z.of_nat (error_count lines) ∧
  (downloaded (_totals (foldl (classify env) s lines))
     + skipped (_totals (foldl (classify env) s lines)) + size (_seen_paths s)
   = downloaded (_totals s) + skipped (_totals s)
     + size (_seen_paths (foldl (classify env) s lines)))%nat.
Proof.
  revert s; induction lines as [|raw lines IH]; intros s.
  - unfold error_count. simpl. split_and!; lia.
  - cbn [foldl].
    destruct (IH (classify env s raw)) as (H1 & H2 & H3).
    destruct (classify_counts env s raw) as (K1 & K2 & K3).
    unfold error_count in *. cbn [List.filter].
    destruct (is_error_line (Py.lower (Py.strip raw))); cbn [length];
      split_and!; lia.
Qed.

(** X12.  A chunk of output adds to [failed] the number of its lines that
    hold an error needle, and to [downloaded] and [skipped] together the
    number of paths it adds to the set of seen paths: every counted file
    is a path seen for the first time in the batch. *)
Theorem chunk_counts_lines_and_paths (env : Env) (data : string) (s : State) :
  proc s ≠ None →
  failed (_totals (_read_output env data s))
    = (failed (_totals s) + error_count (Py.splitlines data))%nat ∧
  (downloaded (_totals (_read_output env data s))
     + skipped (_totals (_read_output env data s)) + size (_seen_paths s)
   = downloaded (_totals s) + skipped (_totals s)
     + size (_seen_paths (_read_output env data s)))%nat.
Proof.
  intros Hp. unfold _read_output. destruct (proc s); [|done].
  destruct (String.eqb data "") eqn:E.
  - apply String.eqb_eq in E as ->. unfold error_count. simpl. lia.
  - destruct (classify_all_counts env (Py.splitlines data)
                (_log (LogOutput (Py.rstrip_char Py.LF data)) s)) as (H1 & _ & H3).
    split; [exact H1|exact H3].
Qed.

Lemma chunk_counts_lines_and_paths_witness :
  failed (_totals (_read_output Sample.env
                     ("403 Forbidden" +:+ Sample.NL +:+ "Downloading /tmp/out/photo.jpg")
                     Sample.one_batch_running))
    = (failed (_totals Sample.one_batch_running) + 1)%nat.
Proof.
  apply (proj1 (chunk_counts_lines_and_paths Sample.env
                  ("403 Forbidden" +:+ Sample.NL +:+ "Downloading /tmp/out/photo.jpg")
                  Sample.one_batch_running ltac:(vm_compute; discriminate))).
Defined.

(** ** Version helpers *)

Lemma list_gt_irrefl (l : list Z) : PyMore.list_gt l l = false.
Proof. induction l as [|x l IH]; [done|]. cbn. by rewrite Z.eqb_refl. Qed.

Lemma list_gt_asym (a b : list Z) :
  PyMore.list_gt a b = true → PyMore.list_gt b a = false.
Proof.
  revert b; induction a as [|x a IH]; intros [|y b]; cbn; try done.
  rewrite (Z.eqb_sym y x). destruct (x =? y) eqn:E; [by apply IH|].
  intros H. apply Z.ltb_lt in H. apply Z.ltb_ge. lia.
Qed.

Lemma list_gt_trans (a b c : list Z) :
  PyMore.list_gt a b = true → PyMore.list_gt b c = true → PyMore.list_gt a c = true.
Proof.
  revert b c; induction a as [|x a IH]; intros [|y b] [|z c]; cbn; try done.
  destruct (x =? y) eqn:E1, (y =? z) eqn:E2, (x =? z) eqn:E3;
    rewrite ?Z.eqb_eq, ?Z.eqb_neq, ?Z.ltb_lt in *; try lia.
  apply IH.
Qed.

Lemma before_app (sep : ascii) (v w : string) :
  PyMore.before sep (v +:+ String sep w) = PyMore.before sep v.
Proof.
  induction v as [|c v IH]; simpl.
  - by rewrite Ascii.eqb_refl.
  - destruct (Ascii.eqb c sep); [done|]. by rewrite IH.
Qed.

Lemma ints_none (xs : list string) (x : string) :
  x ∈ xs → PyMore.int x = None → ints xs = None.
Proof.
  induction 1 as [x xs|x y xs Hin IH]; intros Hx; cbn.
  - by rewrite Hx.
  - destruct (PyMore.int y); [|done]. by rewrite IH.
Qed.

(** X13.  [is_newer] is a strict order on version texts: no version is
    newer than itself, two versions are never each newer than the other,
    and newer-than carries over a version in between. *)
Theorem is_newer_strict_order (a b c : string) :
  is_newer a a = false ∧
  (is_newer a b = true → is_newer b a = false) ∧
  (is_newer a b = true → is_newer b c = true → is_newer a c = true).
Proof.
  unfold is_newer.
  destruct (parts a) as [la|], (parts b) as [lb|], (parts c) as [lc|];
    split_and!; try done; try apply list_gt_irrefl; try apply list_gt_asym.
  all: intros H1 H2; by apply (list_gt_trans _ lb).
Qed.

Lemma is_newer_strict_order_witness :
  is_newer "1.30.2" "1.30.10" = true ∧ is_newer "1.30.10" "1.30.2" = false.
Proof.
  assert (H : is_newer "1.30.2" "1.30.10" = true) by (vm_compute; reflexivity).
  split; [exact H|].
  exact (proj1 (proj2 (is_newer_strict_order "1.30.2" "1.30.10" "")) H).
Defined.

Lemma before_idem (sep : ascii) (v : string) :
  PyMore.before sep (PyMore.before sep v) = PyMore.before sep v.
Proof.
  induction v as [|c v IH]; [done|]. cbn [PyMore.before].
  destruct (Ascii.eqb c sep) eqn:E; [done|]. cbn [PyMore.before]. by rewrite E, IH.
Qed.

(** X14.  [is_newer] compares what stands before the first hyphen of each
    version and nothing else: either version may be cut at its first
    hyphen, and a hyphen with any text after it may be put behind either
    version, the other left as it is, without a change of the answer. *)
Theorem is_newer_ignores_suffix (l r x : string) :
  is_newer l r = is_newer (PyMore.before "-" l) (PyMore.before "-" r) ∧
  is_newer (PyMore.before "-" l) r = is_newer l r ∧
  is_newer l (PyMore.before "-" r) = is_newer l r ∧
  is_newer (l +:+ String "-" x) r = is_newer l r ∧
  is_newer l (r +:+ String "-" x) = is_newer l r.
Proof.
  unfold is_newer, parts. by rewrite !before_app, !before_idem.
Qed.

(** X15.  A version with a component that [isdigit] keeps and [int]
    rejects (a superscript digit, or more than [max_str_digits] digits)
    is neither newer nor older than any version: the exception is
    answered with [False]. *)
Theorem unconvertible_part_never_newer (v w x : string) :
  x ∈ PyMore.split "." (PyMore.before "-" v) →
  PyMore.isdigit x = true →
  PyMore.int x = None →
  is_newer v w = false ∧ is_newer w v = false.
Proof.
  intros Hin Hd Hi.
  assert (Hp : parts v = None).
  { unfold parts. apply (ints_none _ x); [|done].
    apply list_elem_of_In, filter_In. split; [by apply list_elem_of_In|done]. }
  unfold is_newer. rewrite Hp. by destruct (parts w).
Qed.

Lemma unconvertible_part_never_newer_witness :
  is_newer ("1." +:+ String "178" "-x") "1.0" = false ∧
  is_newer "1.0" ("1." +:+ String "178" "-x") = false.
Proof.
  apply (unconvertible_part_never_newer
           ("1." +:+ String "178" "-x") "1.0" (String "178" "")).
  - vm_compute. apply list_elem_of_In. right. left. reflexivity.
  - vm_compute. reflexivity.
  - vm_compute. reflexivity.
Defined.

(** *** What [parse_version] returns *)

Lemma decimal_not_dot (c : ascii) : PyMore.decimal c = true → Ascii.eqb c "." = false.
Proof.
  intros H. destruct (Ascii.eqb c ".") eqn:E; [|done].
  apply Ascii.eqb_eq in E as ->. by vm_compute in H.
Qed.

Lemma decimal_not_hyphen (c : ascii) : PyMore.decimal c = true → Ascii.eqb c "-" = false.
Proof.
  intros H. destruct (Ascii.eqb c "-") eqn:E; [|done].
  apply Ascii.eqb_eq in E as ->. by vm_compute in H.
Qed.

Lemma substring_0_0 (s : string) : String.substring 0 0 s = EmptyString.
Proof. by destruct s. Qed.

Lemma scan_accepts (s : string) :
  ∀ ph best pos n,
    VerRe.scan s ph best pos = Some n →
    best = Some n ∨
    ∃ k, n = (pos + k)%nat ∧ (k ≤ String.length s)%nat ∧
         accepts ph (String.substring 0 k s) = true.
Proof.
  induction s as [|c s IH]; intros ph best pos n H.
  - simpl in H. destruct ph; auto.
    right. exists 0%nat. injection H as <-. split_and!; [lia|done|done].
  - cbn [VerRe.scan] in H.
    destruct ph.
    + destruct (PyMore.decimal c) eqn:Ed.
      * apply IH in H as [H|(k & -> & Hk & Ha)]; [by left|].
        right. exists (S k). split_and!; [lia|simpl; lia|]. simpl. by rewrite Ed.
      * destruct (Ascii.eqb c ".") eqn:Edot; [|done].
        apply IH in H as [H|(k & -> & Hk & Ha)]; [by left|].
        right. exists (S k). split_and!; [lia|simpl; lia|]. simpl. by rewrite Ed, Edot.
    + destruct (PyMore.decimal c) eqn:Ed; [|done].
      apply IH in H as [H|(k & -> & Hk & Ha)]; [by left|].
      right. exists (S k). split_and!; [lia|simpl; lia|]. simpl. by rewrite Ed.
    + destruct (PyMore.decimal c) eqn:Ed.
      * apply IH in H as [H|(k & -> & Hk & Ha)]; [by left|].
        right. exists (S k). split_and!; [lia|simpl; lia|]. simpl. by rewrite Ed.
      * destruct (Ascii.eqb c ".") eqn:Edot.
        -- apply IH in H as [H|(k & -> & Hk & Ha)].
           ++ injection H as <-. right. exists 0%nat.
              split_and!; [lia|lia|done].
           ++ right. exists (S k). split_and!; [lia|simpl; lia|].
              simpl. by rewrite Ed, Edot.
        -- destruct (FileRe.word_char c); [by left|].
           injection H as <-. right. exists 0%nat. split_and!; [lia|lia|done].
    + destruct (PyMore.decimal c) eqn:Ed; [|by left].
      apply IH in H as [H|(k & -> & Hk & Ha)]; [by left|].
      right. exists (S k). split_and!; [lia|simpl; lia|]. simpl. by rewrite Ed.
Qed.

Lemma match_here_accepts (s : string) (n : nat) :
  VerRe.match_here s = Some n →
  (n ≤ String.length s)%nat ∧
  ∃ c t, String.substring 0 n s = String c t ∧ PyMore.decimal c = true ∧
         accepts VerRe.First t = true.
Proof.
  unfold VerRe.match_here. destruct s as [|c s]; [done|].
  destruct (PyMore.decimal c) eqn:Ed; [|done].
  intros H. apply scan_accepts in H as [H|(k & -> & Hk & Ha)]; [done|].
  split; [done|]. destruct k as [|k]; [done|].
  exists c, (String.substring 0 k s). simpl in Ha. rewrite Ed in Ha. by simpl.
Qed.

Lemma substring_prefix (s : string) (n : nat) :
  (n ≤ String.length s)%nat →
  ∃ post, s = String.substring 0 n s +:+ post.
Proof.
  revert n; induction s as [|c s IH]; intros [|n] Hn; simpl in *; try lia.
  - by exists "".
  - by exists (String c s).
  - destruct (IH n) as [post Hp]; [lia|]. exists post.
    change (String c s = String c (String.substring 0 n s +:+ post)). by f_equal.
Qed.

Lemma search_from_found (s : string) :
  ∀ pw v, VerRe.search_from pw s = Some v →
    (∃ pre post, s = pre +:+ v +:+ post) ∧
    ∃ c t, v = String c t ∧ PyMore.decimal c = true ∧ accepts VerRe.First t = true.
Proof.
  induction s as [|c s IH]; intros pw v H; [done|].
  cbn [VerRe.search_from] in H.
  destruct (if pw then None else VerRe.match_here (String c s)) as [n|] eqn:E.
  - destruct pw; [done|]. injection H as <-.
    apply match_here_accepts in E as [Hn Hv]. split; [|done].
    destruct (substring_prefix (String c s) n Hn) as [post Hp].
    by exists "", post.
  - apply IH in H as [(pre & post & ->) Hv]. split; [|done].
    by exists (String c pre), post.
Qed.

Lemma all_chars_snoc (f : ascii → bool) (acc : string) (c : ascii) :
  PyMore.all_chars f (acc +:+ String c "") = PyMore.all_chars f acc && f c.
Proof.
  induction acc as [|a acc IH]; simpl.
  - by rewrite andb_true_r.
  - by rewrite IH, andb_assoc.
Qed.

Lemma digits_snoc (acc : string) (c : ascii) :
  PyMore.all_chars PyMore.decimal acc = true → PyMore.decimal c = true →
  digits (acc +:+ String c "") = true.
Proof.
  intros Ha Hc. unfold digits. rewrite all_chars_snoc, Ha, Hc.
  by destruct acc.
Qed.

Lemma accepts_split (t : string) :
  ∀ ph acc,
    accepts ph t = true →
    match ph with
    | VerRe.First | VerRe.Later => digits acc = true
    | VerRe.Dot1 | VerRe.DotN => acc = ""
    end →
    Forall (λ x, digits x = true) (PyMore.split_from "." acc t) ∧
    (match ph with VerRe.First | VerRe.Dot1 => 2 | _ => 1 end
       ≤ length (PyMore.split_from "." acc t) + match ph with VerRe.Dot1 => 1 | _ => 0 end)%nat.
Proof.
  induction t as [|c t IH]; intros ph acc Ha Hacc.
  - destruct ph; try done. simpl. split; [by constructor|lia].
  - cbn [accepts] in Ha. cbn [PyMore.split_from].
    assert (Hd : ∀ a, digits a = true → PyMore.all_chars PyMore.decimal a = true).
    { intros a H. unfold digits in H. by apply andb_true_iff in H as [_ H]. }
    destruct ph.
    + destruct (PyMore.decimal c) eqn:Ed.
      * rewrite (decimal_not_dot c Ed).
        apply (IH VerRe.First); [done|]. apply digits_snoc; auto.
      * apply andb_true_iff in Ha as [-> Ha].
        destruct (IH VerRe.Dot1 "" Ha eq_refl) as [H1 H2].
        split; [by constructor|]. simpl. lia.
    + apply andb_true_iff in Ha as [Ed Ha]. subst acc.
      rewrite (decimal_not_dot c Ed).
      destruct (IH VerRe.Later ("" +:+ String c "") Ha) as [H1 H2].
      { by apply digits_snoc. }
      split; [done|lia].
    + destruct (PyMore.decimal c) eqn:Ed.
      * rewrite (decimal_not_dot c Ed).
        apply (IH VerRe.Later); [done|]. apply digits_snoc; auto.
      * apply andb_true_iff in Ha as [-> Ha].
        destruct (IH VerRe.DotN "" Ha eq_refl) as [H1 H2].
        split; [by constructor|]. simpl. lia.
    + apply andb_true_iff in Ha as [Ed Ha]. subst acc.
      rewrite (decimal_not_dot c Ed).
      destruct (IH VerRe.Later ("" +:+ String c "") Ha) as [H1 H2].
      { by apply digits_snoc. }
      split; [done|lia].
Qed.

Lemma found_is_dotted (c : ascii) (t : string) :
  PyMore.decimal c = true → accepts VerRe.First t = true →
  Forall (λ x, digits x = true) (PyMore.split "." (String c t)) ∧
  (2 ≤ length (PyMore.split "." (String c t)))%nat.
Proof.
  intros Hc Ht. unfold PyMore.split. cbn [PyMore.split_from].
  rewrite (decimal_not_dot c Hc).
  destruct (accepts_split t VerRe.First ("" +:+ String c "") Ht) as [H1 H2].
  { by apply digits_snoc. }
  split; [done|lia].
Qed.

(** Every [string] is the text of code points below 256: what is proved
    of all strings is proved of all such texts. *)
Lemma latin1_text_onto (s : string) :
  ∃ cps, Latin1.in_range cps = true ∧ Latin1.text cps = s.
Proof.
  induction s as [|c s (cps & Hr & Ht)]; [by exists []|].
  exists (Py.ord c :: cps). split.
  - cbn [Latin1.in_range forallb]. fold (Latin1.in_range cps). rewrite Hr, andb_true_r.
    unfold Py.ord. pose proof (N_ascii_bounded c) as Hb.
    apply andb_true_iff. split; [apply Z.leb_le|apply Z.ltb_lt]; lia.
  - cbn [Latin1.text fold_right]. fold (Latin1.text cps). rewrite Ht. f_equal.
    unfold Py.chr, Py.ord. by rewrite N2Z.id, ascii_N_embedding.
Qed.

(** X16.  On a text whose code points are all below 256, what
    [parse_version] returns is a piece of the text made of two or more
    non-empty runs of the digits [0] to [9] with single dots between
    them. *)
Theorem parsed_version_is_dotted_numbers (cps : list Z) (v : string) :
  Latin1.in_range cps = true →
  parse_version (Some (Latin1.text cps)) = Some v →
  (∃ pre post, Latin1.text cps = pre +:+ v +:+ post) ∧
  (2 ≤ length (PyMore.split "." v))%nat ∧
  Forall (λ x, digits x = true) (PyMore.split "." v).
Proof.
  unfold parse_version, VerRe.search. intros _ H.
  apply search_from_found in H as [Hsub (c & t & -> & Hc & Ht)].
  split; [done|]. destruct (found_is_dotted c t Hc Ht). done.
Qed.

Lemma parsed_version_is_dotted_numbers_witness :
  Latin1.text 
    [103; 97; 108; 108; 101; 114; 121; 45; 100; 108; 32; 49; 46; 51; 48; 46; 50; 10] = "gallery-dl 1.30.2" +:+ Sample.NL ∧
  (∃ pre post, Latin1.text 
    [103; 97; 108; 108; 101; 114; 121; 45; 100; 108; 32; 49; 46; 51; 48; 46; 50; 10] = pre +:+ "1.30.2" +:+ post) ∧
  (2 ≤ length (PyMore.split "." "1.30.2"))%nat ∧
  Forall (λ x, digits x = true) (PyMore.split "." "1.30.2").
Proof.
  split; [vm_compute; reflexivity|].
  apply (parsed_version_is_dotted_numbers 
    [103; 97; 108; 108; 101; 114; 121; 45; 100; 108; 32; 49; 46; 51; 48; 46; 50; 10] "1.30.2").
  - vm_compute. reflexivity.
  - vm_compute. reflexivity.
Defined.

Lemma accepts_no_hyphen (t : string) :
  ∀ ph, accepts ph t = true → PyMore.before "-" t = t.
Proof.
  induction t as [|c t IH]; intros ph H; [done|].
  cbn [accepts] in H. cbn [PyMore.before].
  assert (Hc : Ascii.eqb c "-" = false ∧ ∃ ph', accepts ph' t = true).
  { destruct ph; destruct (PyMore.decimal c) eqn:Ed; cbn [andb] in H; try done;
      first [ split; [by apply decimal_not_hyphen|by eauto]
            | apply andb_true_iff in H as [E H]; apply Ascii.eqb_eq in E as ->;
              split; [done|by eauto] ]. }
  destruct Hc as [-> [ph' Hph]]. by rewrite (IH ph').
Qed.

Lemma split_from_length (sep : ascii) (s : string) :
  ∀ acc x, x ∈ PyMore.split_from sep acc s →
    (String.length x ≤ String.length acc + String.length s)%nat.
Proof.
  induction s as [|c s IH]; intros acc x Hx; cbn [PyMore.split_from] in Hx.
  - apply list_elem_of_singleton in Hx as ->. lia.
  - destruct (Ascii.eqb c sep).
    + apply elem_of_cons in Hx as [->|Hx]; [lia|].
      apply IH in Hx. simpl in *. lia.
    + apply IH in Hx. rewrite length_append in Hx. simpl in *. lia.
Qed.

Lemma int_from_some (x : string) :
  ∀ acc, PyMore.all_chars PyMore.decimal x = true → ∃ n, PyMore.int_from acc x = Some n.
Proof.
  induction x as [|c x IH]; intros acc H; simpl in *; [by eauto|].
  apply andb_true_iff in H as [-> H]. by apply IH.
Qed.

Lemma digits_isdigit (x : string) : digits x = true → PyMore.isdigit x = true.
Proof.
  unfold digits, PyMore.isdigit. intros H. apply andb_true_iff in H as [-> H].
  simpl. induction x as [|c x IH]; [done|]. simpl in *.
  apply andb_true_iff in H as [Hc H]. rewrite (IH H), andb_true_r.
  unfold PyMore.isdigit_char, PyMore.decimal in *. by rewrite Hc.
Qed.

Lemma filter_id {A} (f : A → bool) (l : list A) :
  Forall (λ x, f x = true) l → List.filter f l = l.
Proof.
  induction 1 as [|x l Hx _ IH]; [done|]. simpl. by rewrite Hx, IH.
Qed.

Lemma ints_some (xs : list string) :
  Forall (λ x, digits x = true ∧ Py.len x ≤ PyMore.max_str_digits) xs →
  ∃ l, ints xs = Some l ∧ length l = length xs.
Proof.
  induction 1 as [|x xs [Hd Hl] _ (l & IH & Hlen)]; [by exists []|].
  cbn [ints]. unfold PyMore.int.
  unfold digits in Hd. apply andb_true_iff in Hd as [Hne Hd].
  apply negb_true_iff in Hne. rewrite Hne.
  destruct (PyMore.max_str_digits <? Py.len x) eqn:E; [apply Z.ltb_lt in E; lia|].
  destruct (int_from_some x 0 Hd) as [n ->]. rewrite IH.
  exists (n :: l). split; [done|]. simpl. by rewrite Hlen.
Qed.

Lemma parts_of_parsed (text : option string) (v : string) :
  parse_version text = Some v →
  Py.len v ≤ PyMore.max_str_digits →
  ∃ l, parts v = Some l ∧ (2 ≤ length l)%nat.
Proof.
  unfold parse_version, VerRe.search. intros H Hlen.
  apply search_from_found in H as [_ (c & t & -> & Hc & Ht)].
  destruct (found_is_dotted c t Hc Ht) as [Hall H2].
  unfold parts.
  assert (Hb : PyMore.before "-" (String c t) = String c t).
  { cbn [PyMore.before]. rewrite (decimal_not_hyphen c Hc).
    by rewrite (accepts_no_hyphen t VerRe.First Ht). }
  rewrite Hb, filter_id.
  2:{ eapply Forall_impl; [exact Hall|]. intros x. apply digits_isdigit. }
  destruct (ints_some (PyMore.split "." (String c t))) as (l & Hl & Hn).
  { apply Forall_forall. intros x Hx. split.
    - by apply (proj1 (Forall_forall _ _) Hall).
    - apply split_from_length in Hx. unfold Py.len in *.
      cbn [String.length] in *. lia. }
  exists l. split; [done|lia].
Qed.

Lemma list_gt_total (a b : list Z) :
  a ≠ b → PyMore.list_gt a b = true ∨ PyMore.list_gt b a = true.
Proof.
  revert b; induction a as [|x a IH]; intros [|y b] Hne; cbn; try done; auto.
  rewrite (Z.eqb_sym y x). destruct (x =? y) eqn:E.
  - apply Z.eqb_eq in E as ->. apply IH. congruence.
  - apply Z.eqb_neq in E. rewrite !Z.ltb_lt. lia.
Qed.

(** X17.  Two versions read by [parse_version], of no more than
    [max_str_digits] characters each, always compare: both turn into
    lists of two or more numbers without an exception, and one of them is
    newer than the other unless their numbers are the same. *)
Theorem parsed_versions_compare (ta tb : option string) (a b : string) :
  parse_version ta = Some a →
  parse_version tb = Some b →
  Py.len a ≤ PyMore.max_str_digits →
  Py.len b ≤ PyMore.max_str_digits →
  ∃ la lb, parts a = Some la ∧ parts b = Some lb ∧
    (2 ≤ length la)%nat ∧ (2 ≤ length lb)%nat ∧
    (is_newer a b = true ∨ is_newer b a = true ∨ la = lb).
Proof.
  intros Ha Hb Hla Hlb.
  destruct (parts_of_parsed ta a Ha Hla) as (la & Hpa & H2a).
  destruct (parts_of_parsed tb b Hb Hlb) as (lb & Hpb & H2b).
  exists la, lb. split_and!; try done.
  unfold is_newer. rewrite Hpa, Hpb.
  destruct (decide (la = lb)) as [->|Hne]; [auto|].
  destruct (list_gt_total la lb Hne); auto.
Qed.

Lemma parsed_versions_compare_witness :
  ∃ la lb, parts "1.30.2" = Some la ∧ parts "1.30.10" = Some lb ∧
    (2 ≤ length la)%nat ∧ (2 ≤ length lb)%nat ∧
    (is_newer "1.30.2" "1.30.10" = true ∨ is_newer "1.30.10" "1.30.2" = true ∨ la = lb).
Proof.
  apply (parsed_versions_compare
           (Some ("gallery-dl 1.30.2" +:+ Sample.NL)) (Some "1.30.10")
           "1.30.2" "1.30.10").
  - reflexivity.
  - reflexivity.
  - vm_compute. discriminate.
  - vm_compute. discriminate.
Defined.

(** ** The options of a run *)

Lemma flatten_snoc (ps : list (string * string)) (f v : string) :
  Ui.flatten ps ++ [f; v] = Ui.flatten (ps ++ [(f, v)]).
Proof. unfold Ui.flatten. rewrite flat_map_app. simpl. done. Qed.

Lemma add_if_flatten (c : bool) (f v : string) (ps : list (string * string)) :
  Ui.add_if c f v (Ui.flatten ps) = Ui.flatten (ps ++ if c then [(f, v)] else []).
Proof.
  unfold Ui.add_if. destruct c; [apply flatten_snoc|by rewrite app_nil_r].
Qed.

(** X18.  The common arguments are options with their values: first
    [--user-agent] with a value that is not empty, then options out of
    [Ui.flags], in that order and each at most once, [-d] among them.  So
    the list is never empty. *)
Theorem common_args_are_option_pairs (downloads : string) (w : Ui.Options) :
  ∃ ua ps,
    (Ui._build_common_args downloads w).1.1 = Ui.flatten (("--user-agent", ua) :: ps) ∧
    ua ≠ "" ∧
    sublist ps.*1 (tail Ui.flags) ∧
    "-d" ∈ ps.*1.
Proof.
  destruct w as [ub ue ck od fc r t sl].
  unfold Ui._build_common_args.
  cbn [Ui.ua_use_browser Ui.ua_edit].
  assert (Hua : ∀ ua : string, ["--user-agent"; ua] = Ui.flatten [("--user-agent", ua)])
    by done.
  destruct ub; [|destruct (String.eqb (Py.strip ue) "") eqn:E];
    cbn [Ui.check_ua_use_browser Ui.ua_use_browser Ui.ua_edit Ui.cookies_file_edit
         Ui.output_dir_edit Ui.filter_combo Ui.retries_spin Ui.timeout_spin
         Ui.sleep_spin fst snd];
    rewrite Hua, add_if_flatten, flatten_snoc;
    destruct (String.eqb fc "Images"); [|destruct (String.eqb fc "Videos")| |
      destruct (String.eqb fc "Videos")| |destruct (String.eqb fc "Videos")];
    rewrite ?flatten_snoc, !add_if_flatten, <- !app_assoc; cbn [app];
    eexists _, _; (split_and!; [reflexivity| | |]);
    try done; try (by apply String.eqb_neq).
  all: try (destruct (String.eqb (Py.strip ck) ""), (r =? 0), (t =? 0), (sl =? 0);
      cbn [negb app fmap list_fmap fst tail Ui.flags];
      by repeat first [apply sublist_nil | apply sublist_skip | apply sublist_cons]).
  all: rewrite fmap_app; apply elem_of_app; right; cbn [fmap list_fmap fst app];
    apply list_elem_of_here.
Qed.

(** X19.  Building the common arguments again right away gives the same
    arguments without the warning box and leaves the widgets as the first
    call left them. *)
Theorem common_args_settle (downloads : string) (w : Ui.Options) :
  Ui._build_common_args downloads (Ui._build_common_args downloads w).2
  = ((Ui._build_common_args downloads w).1.1, false, (Ui._build_common_args downloads w).2).
Proof.
  destruct w as [ub ue ck od fc r t sl].
  unfold Ui._build_common_args.
  cbn [Ui.ua_use_browser Ui.ua_edit].
  destruct ub; [reflexivity|].
  destruct (String.eqb (Py.strip ue) "") eqn:E.
  - reflexivity.
  - cbn [Ui.ua_use_browser Ui.ua_edit snd fst]. rewrite E. reflexivity.
Qed.

(** ** Loading URLs into the box *)

Lemma lstrip_one_line (s : string) : one_line s = true → one_line (Py.lstrip s) = true.
Proof.
  induction s as [|c s IH]; [done|]. intros H. cbn [Py.lstrip].
  destruct (Py.isspace c); [|done]. apply IH.
  unfold one_line in *. simpl in H. by apply andb_true_iff in H as [_ H].
Qed.

Lemma rstrip_one_line (s : string) : one_line s = true → one_line (Py.rstrip s) = true.
Proof.
  induction s as [|c s IH]; [done|]. intros H. cbn [Py.rstrip].
  unfold one_line in *. simpl in H. apply andb_true_iff in H as [Hc H].
  specialize (IH H). destruct (Py.rstrip s) as [|d r].
  - destruct (Py.isspace c); [done|]. simpl. by rewrite Hc.
  - simpl in *. by rewrite Hc, IH.
Qed.

Lemma rstrip_idem (s : string) : Py.rstrip (Py.rstrip s) = Py.rstrip s.
Proof.
  induction s as [|c s IH]; [done|]. cbn [Py.rstrip].
  destruct (Py.rstrip s) as [|d r] eqn:E.
  - destruct (Py.isspace c) eqn:Ec; [done|]. simpl. by rewrite Ec.
  - cbn [Py.rstrip]. cbn [Py.rstrip] in IH. rewrite IH. done.
Qed.

Lemma lstrip_head (s : string) :
  Py.lstrip s = "" ∨ ∃ c r, Py.lstrip s = String c r ∧ Py.isspace c = false.
Proof.
  induction s as [|c s IH]; [by left|]. cbn [Py.lstrip].
  destruct (Py.isspace c) eqn:E; [done|]. right. by exists c, s.
Qed.

Lemma rstrip_head (c : ascii) (r : string) :
  Py.isspace c = false → ∃ r', Py.rstrip (String c r) = String c r'.
Proof.
  intros Hc. cbn [Py.rstrip]. destruct (Py.rstrip r); [|by eauto].
  rewrite Hc. by eauto.
Qed.

Lemma strip_idem (s : string) : Py.strip (Py.strip s) = Py.strip s.
Proof.
  unfold Py.strip. destruct (lstrip_head s) as [->|(c & r & -> & Hc)]; [done|].
  destruct (rstrip_head c r Hc) as [r' Hr]. rewrite Hr.
  cbn [Py.lstrip]. rewrite Hc, <- Hr. apply rstrip_idem.
Qed.

Lemma strip_one_line (s : string) : one_line s = true → one_line (Py.strip s) = true.
Proof. intros H. unfold Py.strip. by apply rstrip_one_line, lstrip_one_line. Qed.

Lemma append_assoc (a b c : string) : (a +:+ b) +:+ c = a +:+ (b +:+ c).
Proof.
  induction a as [|x a IH]; [done|].
  change (String x ((a +:+ b) +:+ c) = String x (a +:+ (b +:+ c))). by rewrite IH.
Qed.

Lemma splitlines_from_one_line (x rest : string) :
  ∀ acc, one_line x = true →
    Py.splitlines_from acc (x +:+ rest) = Py.splitlines_from (acc +:+ x) rest.
Proof.
  induction x as [|c x IH]; intros acc H.
  - by rewrite append_empty_r.
  - unfold one_line in H. simpl in H. apply andb_true_iff in H as [Hc H].
    apply negb_true_iff in Hc.
    change (String c x +:+ rest) with (String c (x +:+ rest)).
    cbn [Py.splitlines_from]. rewrite Hc. rewrite (IH _ H).
    by rewrite append_assoc.
Qed.

Lemma splitlines_join (M : list string) :
  Forall (λ x, Box.nonempty x = true ∧ one_line x = true) M →
  Py.splitlines (Py.join (String Py.LF "") M) = M.
Proof.
  induction 1 as [|x M [Hne Hx] HM IH]; [done|].
  unfold Py.splitlines in *.
  destruct M as [|y M].
  - cbn [Py.join].
    transitivity (Py.splitlines_from "" (x +:+ "")); [by rewrite append_empty_r|].
    rewrite (splitlines_from_one_line x "" "" Hx).
    change ("" +:+ x) with x. destruct x; [by vm_compute in Hne|done].
  - change (Py.join (String Py.LF "") (x :: y :: M))
      with (x +:+ String Py.LF (Py.join (String Py.LF "") (y :: M))).
    rewrite (splitlines_from_one_line x _ "" Hx).
    change ("" +:+ x) with x.
    cbn [Py.splitlines_from].
    change (Py.islinebreak Py.LF) with true. cbn match.
    change (Ascii.eqb Py.LF Py.CR) with false. cbn [andb].
    f_equal. by destruct (Py.join (String Py.LF "") (y :: M)).
Qed.

Lemma one_line_snoc (acc : string) (c : ascii) :
  one_line acc = true → Py.islinebreak c = false →
  one_line (acc +:+ String c "") = true.
Proof.
  intros Ha Hc. unfold one_line in *. by rewrite all_chars_snoc, Ha, Hc.
Qed.

Lemma splitlines_from_lines (n : nat) :
  ∀ s acc, (String.length s ≤ n)%nat → one_line acc = true →
    Forall (λ x, one_line x = true) (Py.splitlines_from acc s).
Proof.
  induction n as [|n IH]; intros s acc Hn Hacc.
  { destruct s; [|simpl in Hn; lia]. simpl. destruct acc; by repeat constructor. }
  destruct s as [|c [|d s]].
  - simpl. destruct acc; by repeat constructor.
  - cbn [Py.splitlines_from]. destruct (Py.islinebreak c) eqn:Ec.
    + by repeat constructor.
    + apply (IH "" (acc +:+ String c "")); [simpl; lia|by apply one_line_snoc].
  - rewrite splitlines_from_cons2. cbn [String.length] in Hn.
    destruct (Py.islinebreak c) eqn:Ec.
    + constructor; [done|].
      destruct (Ascii.eqb c Py.CR && Ascii.eqb d Py.LF); apply IH;
        cbn [String.length]; first [lia|done].
    + apply IH; [cbn [String.length]; lia|by apply one_line_snoc].
Qed.

Lemma stripped_elem (lines : list string) (x : string) :
  x ∈ Box.stripped lines ↔
  ∃ ln, ln ∈ lines ∧ x = Py.strip ln ∧ Box.nonempty (Py.strip ln) = true.
Proof.
  unfold Box.stripped. rewrite list_elem_of_In, in_map_iff. split.
  - intros (ln & <- & Hin). apply filter_In in Hin as [Hin Hne].
    exists ln. by rewrite list_elem_of_In.
  - intros (ln & Hin & -> & Hne). exists ln. split; [done|].
    apply filter_In. by rewrite <- list_elem_of_In.
Qed.

Lemma stripped_kept (lines : list string) :
  Forall (λ ln, one_line (Py.strip ln) = true) lines →
  Forall kept_line (Box.stripped lines).
Proof.
  intros H. apply Forall_forall. intros x Hx.
  apply stripped_elem in Hx as (ln & Hin & -> & Hne).
  split_and!; [done| |apply strip_idem].
  by apply (proj1 (Forall_forall _ _) H).
Qed.

Lemma stripped_splitlines_kept (text : string) :
  Forall kept_line (Box.stripped (Py.splitlines text)).
Proof.
  apply stripped_kept. eapply Forall_impl.
  - apply (splitlines_from_lines (String.length text)); [lia|done].
  - intros x. apply strip_one_line.
Qed.

Lemma stripped_id (M : list string) : Forall kept_line M → Box.stripped M = M.
Proof.
  unfold Box.stripped. induction 1 as [|x M (Hne & _ & Hs) _ IH]; [done|].
  simpl. rewrite Hs, Hne. simpl. by rewrite Hs, IH.
Qed.

Lemma stripped_join (M : list string) :
  Forall kept_line M →
  Box.stripped (Py.splitlines (Py.join (String Py.LF "") M)) = M.
Proof.
  intros H. rewrite splitlines_join; [by apply stripped_id|].
  eapply Forall_impl; [exact H|]. by intros x (? & ? & _).
Qed.

Lemma filter_none {A} (f : A → bool) (l : list A) :
  Forall (λ x, f x = false) l → List.filter f l = [].
Proof. induction 1 as [|x l Hx _ IH]; [done|]. simpl. by rewrite Hx. Qed.

Lemma filter_elem {A} (f : A → bool) (l : list A) (x : A) :
  x ∈ List.filter f l ↔ x ∈ l ∧ f x = true.
Proof. rewrite !list_elem_of_In. apply filter_In. Qed.

Lemma all_chars_app (f : ascii → bool) (a b : string) :
  PyMore.all_chars f (a +:+ b) = PyMore.all_chars f a && PyMore.all_chars f b.
Proof.
  induction a as [|c a IH]; [done|].
  change (f c && PyMore.all_chars f (a +:+ b)
          = f c && PyMore.all_chars f a && PyMore.all_chars f b).
  by rewrite IH, andb_assoc.
Qed.

Lemma lstrip_all (f : ascii → bool) (s : string) :
  PyMore.all_chars f s = true → PyMore.all_chars f (Py.lstrip s) = true.
Proof.
  induction s as [|c s IH]; [done|]. intros H. cbn [Py.lstrip].
  destruct (Py.isspace c); [|done]. apply IH.
  simpl in H. by apply andb_true_iff in H as [_ H].
Qed.

Lemma rstrip_all (f : ascii → bool) (s : string) :
  PyMore.all_chars f s = true → PyMore.all_chars f (Py.rstrip s) = true.
Proof.
  induction s as [|c s IH]; [done|]. intros H. cbn [Py.rstrip].
  simpl in H. apply andb_true_iff in H as [Hc H].
  specialize (IH H). destruct (Py.rstrip s) as [|d r].
  - destruct (Py.isspace c); [done|]. simpl. by rewrite Hc.
  - simpl in *. by rewrite Hc, IH.
Qed.

Lemma strip_plain (s : string) : plain s = true → plain (Py.strip s) = true.
Proof. intros H. unfold plain, Py.strip. by apply rstrip_all, lstrip_all. Qed.

Lemma splitlines_from_plain (n : nat) :
  ∀ s acc, (String.length s ≤ n)%nat → plain acc = true → plain s = true →
    Forall (λ x, plain x = true) (Py.splitlines_from acc s).
Proof.
  induction n as [|n IH]; intros s acc Hn Hacc Hs.
  { destruct s; [|simpl in Hn; lia]. simpl. destruct acc; by repeat constructor. }
  assert (Hsnoc : ∀ c, negb (Ascii.eqb c Box.NBSP) = true →
                       plain (acc +:+ String c "") = true).
  { intros c Hc. unfold plain in *. by rewrite all_chars_snoc, Hacc, Hc. }
  destruct s as [|c [|d s]].
  - simpl. destruct acc; by repeat constructor.
  - unfold plain in Hs. simpl in Hs. apply andb_true_iff in Hs as [Hc _].
    cbn [Py.splitlines_from]. destruct (Py.islinebreak c).
    + by repeat constructor.
    + apply (IH "" (acc +:+ String c "")); [simpl; lia|by apply Hsnoc|done].
  - rewrite splitlines_from_cons2. cbn [String.length] in Hn.
    unfold plain in Hs. simpl in Hs.
    apply andb_true_iff in Hs as [Hc Hs]. pose proof Hs as Hds.
    apply andb_true_iff in Hs as [Hd Hs].
    destruct (Py.islinebreak c).
    + constructor; [done|].
      destruct (Ascii.eqb c Py.CR && Ascii.eqb d Py.LF); apply IH;
        cbn [String.length]; first [lia|done].
    + apply IH; [cbn [String.length]; lia|by apply Hsnoc|done].
Qed.

Lemma toPlainText_plain (doc : string) : plain (Box.toPlainText doc) = true.
Proof.
  induction doc as [|c doc IH]; [done|].
  unfold plain in *. cbn [Box.toPlainText PyMore.all_chars]. rewrite IH, andb_true_r.
  by destruct (Ascii.eqb c Box.NBSP) eqn:E; [|rewrite E].
Qed.

Lemma toPlainText_id (s : string) : plain s = true → Box.toPlainText s = s.
Proof.
  induction s as [|c s IH]; [done|]. unfold plain in *. simpl. intros H.
  apply andb_true_iff in H as [Hc H]. apply negb_true_iff in Hc.
  by rewrite Hc, IH.
Qed.

Lemma toPlainText_app (a b : string) :
  Box.toPlainText (a +:+ b) = Box.toPlainText a +:+ Box.toPlainText b.
Proof.
  induction a as [|c a IH]; [done|].
  change (String (if Ascii.eqb c Box.NBSP then " "%char else c) (Box.toPlainText (a +:+ b))
          = String (if Ascii.eqb c Box.NBSP then " "%char else c)
                   (Box.toPlainText a +:+ Box.toPlainText b)).
  by rewrite IH.
Qed.

Lemma toPlainText_join (M : list string) :
  Box.toPlainText (Py.join (String Py.LF "") M)
  = Py.join (String Py.LF "") (map Box.toPlainText M).
Proof.
  induction M as [|x M IH]; [done|]. destruct M as [|y M]; [done|].
  change (Py.join (String Py.LF "") (x :: y :: M))
    with (x +:+ String Py.LF "" +:+ Py.join (String Py.LF "") (y :: M)).
  rewrite !toPlainText_app, IH. done.
Qed.

Lemma map_toPlainText_id (M : list string) :
  Forall (λ x, plain x = true) M → map Box.toPlainText M = M.
Proof.
  induction 1 as [|x M Hx _ IH]; [done|]. simpl. by rewrite toPlainText_id, IH.
Qed.

Lemma splitlines_join_app (E R : list string) :
  Forall (λ x, Box.nonempty x = true ∧ one_line x = true) E →
  Py.splitlines (Py.join (String Py.LF "") (E ++ R))
  = E ++ Py.splitlines (Py.join (String Py.LF "") R).
Proof.
  induction 1 as [|x E [Hne Hx] HE IH]; [done|].
  destruct (E ++ R) as [|y ER] eqn:EER.
  - apply app_eq_nil in EER as [-> ->]. cbn [app].
    rewrite (splitlines_join [x]); [done|by repeat constructor].
  - cbn [app]. rewrite EER.
    change (Py.join (String Py.LF "") (x :: y :: ER))
      with (x +:+ String Py.LF (Py.join (String Py.LF "") (y :: ER))).
    unfold Py.splitlines in *.
    rewrite (splitlines_from_one_line x _ "" Hx).
    change ("" +:+ x) with x.
    cbn [Py.splitlines_from].
    change (Py.islinebreak Py.LF) with true. cbn match.
    change (Ascii.eqb Py.LF Py.CR) with false. cbn [andb].
    f_equal. rewrite <- IH. by destruct (Py.join (String Py.LF "") (y :: ER)).
Qed.

Lemma stripped_app (a b : list string) :
  Box.stripped (a ++ b) = Box.stripped a ++ Box.stripped b.
Proof. unfold Box.stripped. by rewrite List.filter_app, map_app. Qed.

Lemma stripped_plain (lines : list string) :
  Forall (λ x, plain x = true) lines → Forall (λ x, plain x = true) (Box.stripped lines).
Proof.
  intros H. apply Forall_forall. intros x Hx.
  apply stripped_elem in Hx as (ln & Hin & -> & _).
  apply strip_plain. by apply (proj1 (Forall_forall _ _) H).
Qed.

(** The lines that the handlers read off the URL box come back from it as
    they are. *)
Lemma existing_stable (doc : string) :
  Forall stable_line (Box.stripped (Py.splitlines (Box.toPlainText doc))).
Proof.
  apply Forall_and. split; [apply stripped_splitlines_kept|].
  apply stripped_plain.
  apply (splitlines_from_plain (String.length (Box.toPlainText doc))); [lia|done|].
  apply toPlainText_plain.
Qed.

(** What the URL box gives back after [setPlainText] with the joined
    lines [E ++ A], when the lines [E] are stable: [E] in front. *)
Lemma read_back_prefix (E A : list string) :
  Forall stable_line E →
  E `prefix_of`
    Box.stripped (Py.splitlines (Box.toPlainText (Py.join (String Py.LF "") (E ++ A)))).
Proof.
  intros HE. apply Forall_and in HE as [Hk Hp].
  rewrite toPlainText_join, map_app, (map_toPlainText_id E Hp).
  rewrite splitlines_join_app.
  2:{ eapply Forall_impl; [exact Hk|]. by intros x (? & ? & _). }
  rewrite stripped_app, (stripped_id E Hk). by apply prefix_app_r.
Qed.

(** And when all the lines are stable, the box gives them back as they
    are. *)
Lemma read_back_stable (M : list string) :
  Forall stable_line M →
  Box.stripped (Py.splitlines (Box.toPlainText (Py.join (String Py.LF "") M))) = M.
Proof.
  intros HM. apply Forall_and in HM as [Hk Hp].
  rewrite toPlainText_join, (map_toPlainText_id M Hp). by apply stripped_join.
Qed.

Lemma stripped_stable (lines : list string) :
  Forall (λ ln, one_line (Py.strip ln) = true ∧ plain (Py.strip ln) = true) lines →
  Forall stable_line (Box.stripped lines).
Proof.
  intros H. apply Forall_forall. intros x Hx.
  apply stripped_elem in Hx as (ln & Hin & -> & Hne).
  destruct (proj1 (Forall_forall _ _) H ln Hin) as [H1 H2].
  split; [|done]. split_and!; [done|done|apply strip_idem].
Qed.

(** X20.  [load_txt] keeps the lines of the URL box in front and in their
    order, whatever the file holds.  And loading the same file once more
    changes nothing, as long as no stripped line of the file holds a line
    boundary of [splitlines] or a no-break space, which the box would not
    give back as it is. *)
Theorem load_txt_again (name : string) (lines : list string) (doc : string) :
  Box.stripped (Py.splitlines (Box.toPlainText doc))
    `prefix_of`
    Box.stripped (Py.splitlines
      (Box.toPlainText (Box.load_txt (Some (name, Some lines)) doc).1)) ∧
  (Forall (λ ln, one_line (Py.strip ln) = true ∧ plain (Py.strip ln) = true) lines →
   Box.load_txt (Some (name, Some lines)) (Box.load_txt (Some (name, Some lines)) doc).1
   = Box.load_txt (Some (name, Some lines)) doc).
Proof.
  cbn [Box.load_txt fst].
  set (E := Box.stripped (Py.splitlines (Box.toPlainText doc))).
  set (N := map Py.strip lines).
  set (A := List.filter (λ ln, Box.nonempty ln && negb (bool_decide (ln ∈ E))) N).
  pose proof (existing_stable doc) as HE. fold E in HE.
  split; [by apply read_back_prefix|].
  intros Hl.
  assert (HM : Forall stable_line (E ++ A)).
  { apply Forall_app. split; [done|].
    apply Forall_forall. intros x Hx. apply filter_elem in Hx as [Hx Hf].
    apply andb_true_iff in Hf as [Hne _].
    apply list_elem_of_In, in_map_iff in Hx as (ln & <- & Hin).
    apply list_elem_of_In in Hin.
    destruct (proj1 (Forall_forall _ _) Hl ln Hin) as [H1 H2].
    split; [|done]. split_and!; [done|done|apply strip_idem]. }
  rewrite (read_back_stable _ HM).
  f_equal. f_equal.
  rewrite filter_none; [by rewrite app_nil_r|].
  apply Forall_forall. intros x Hx.
  destruct (Box.nonempty x) eqn:Hne; [|done]. simpl.
  apply negb_false_iff, bool_decide_eq_true.
  destruct (decide (x ∈ E)) as [Hin|Hin]; [by apply elem_of_app; left|].
  apply elem_of_app. right. apply filter_elem. split; [done|].
  rewrite Hne. simpl. by apply negb_true_iff, bool_decide_eq_false.
Qed.

Lemma load_txt_again_witness :
  (Box.load_txt (Some ("urls.txt", Some ["https://a.example/1" +:+ Sample.NL; Sample.NL]))
     "https://b.example/2").1
  = "https://b.example/2" +:+ Sample.NL +:+ "https://a.example/1" ∧
  Box.load_txt (Some ("urls.txt", Some ["https://a.example/1" +:+ Sample.NL; Sample.NL]))
    (Box.load_txt (Some ("urls.txt", Some ["https://a.example/1" +:+ Sample.NL; Sample.NL]))
       "https://b.example/2").1
  = Box.load_txt (Some ("urls.txt", Some ["https://a.example/1" +:+ Sample.NL; Sample.NL]))
      "https://b.example/2".
Proof.
  split; [vm_compute; reflexivity|].
  apply (proj2 (load_txt_again "urls.txt" ["https://a.example/1" +:+ Sample.NL; Sample.NL]
                  "https://b.example/2")).
  repeat constructor.
Defined.

Lemma drop_step_stable (acc : list string * list Box.Notice) (u : Box.DroppedUrl) :
  (∀ lines, Box.content u = Some lines →
     Forall (λ ln, one_line (Py.strip ln) = true ∧ plain (Py.strip ln) = true) lines) →
  Forall stable_line acc.1 → Forall stable_line (Box.drop_step acc u).1.
Proof.
  intros Hu Hacc. destruct acc as [added notes]. unfold Box.drop_step.
  destruct (Box.isLocalFile u); [|done].
  destruct (Box.endswith _ _); [|done].
  destruct (Box.content u) as [lines|]; [|done].
  cbn [fst] in *. apply Forall_app. split; [done|]. by apply stripped_stable, Hu.
Qed.

Lemma drop_fold_stable (us : list Box.DroppedUrl) :
  ∀ acc,
    Forall (λ u, ∀ lines, Box.content u = Some lines →
       Forall (λ ln, one_line (Py.strip ln) = true ∧ plain (Py.strip ln) = true) lines) us →
    Forall stable_line acc.1 → Forall stable_line (foldl Box.drop_step acc us).1.
Proof.
  induction us as [|u us IH]; intros acc Hus Hacc; [done|].
  apply Forall_cons in Hus as [Hu Hus]. cbn [foldl].
  apply IH; [done|]. by apply drop_step_stable.
Qed.

(** X21.  [dropEvent] keeps the lines of the URL box in front and in their
    order, whatever is dropped.  And dropping the same data once more
    changes nothing, as long as no stripped line of a dropped file holds
    a line boundary of [splitlines] or a no-break space, and no stripped
    line of the dropped text a no-break space. *)
Theorem drop_again (md : Box.MimeData) (doc : string) :
  Box.stripped (Py.splitlines (Box.toPlainText doc))
    `prefix_of`
    Box.stripped (Py.splitlines (Box.toPlainText (Box.dropEvent md doc).1)) ∧
  (Forall (λ u, ∀ lines, Box.content u = Some lines →
      Forall (λ ln, one_line (Py.strip ln) = true ∧ plain (Py.strip ln) = true) lines)
     (Box.urls md) →
   (∀ t, Box.text md = Some t →
      Forall (λ x, plain x = true) (Box.stripped (Py.splitlines t))) →
   Box.dropEvent md (Box.dropEvent md doc).1 = Box.dropEvent md doc).
Proof.
  unfold Box.dropEvent.
  destruct (foldl Box.drop_step ([], []) (Box.urls md)) as [added0 notes] eqn:Efold.
  set (added := match Box.text md with
                | Some t => added0 ++ Box.stripped (Py.splitlines t)
                | None => added0
                end).
  set (E := Box.stripped (Py.splitlines (Box.toPlainText doc))).
  pose proof (existing_stable doc) as HE. fold E in HE.
  destruct added as [|a added'] eqn:Eadd; [done|]. rewrite <- Eadd in *.
  cbn [fst].
  set (D := List.filter (λ ln, negb (bool_decide (ln ∈ E))) added).
  split; [by apply read_back_prefix|].
  intros Hus Htext.
  assert (Ha : Forall stable_line added).
  { pose proof (drop_fold_stable (Box.urls md) ([], []) Hus (Forall_nil_2 _)) as Hk.
    rewrite Efold in Hk. cbn [fst] in Hk.
    unfold added. destruct (Box.text md) as [t|]; [|done].
    apply Forall_app. split; [done|].
    apply Forall_and. split; [apply stripped_splitlines_kept|by apply Htext]. }
  assert (HM : Forall stable_line (E ++ D)).
  { apply Forall_app. split; [done|].
    apply Forall_forall. intros x Hx. apply filter_elem in Hx as [Hx _].
    by apply (proj1 (Forall_forall _ _) Ha). }
  rewrite (read_back_stable _ HM).
  rewrite Eadd. rewrite <- Eadd. f_equal. f_equal.
  rewrite filter_none; [by rewrite app_nil_r|].
  apply Forall_forall. intros x Hx.
  apply negb_false_iff, bool_decide_eq_true.
  destruct (decide (x ∈ E)) as [Hin|Hin]; [by apply elem_of_app; left|].
  apply elem_of_app. right. apply filter_elem. split; [done|].
  by apply negb_true_iff, bool_decide_eq_false.
Qed.

Lemma drop_again_witness :
  (Box.dropEvent
     (Box.mkMimeData [Box.mkDroppedUrl true "/home/u/More.TXT"
                        (Some ["https://a.example/1" +:+ Sample.NL])]
                     (Some "https://b.example/2"))
     "https://b.example/2").1
  = "https://b.example/2" +:+ Sample.NL +:+ "https://a.example/1" ∧
  Box.dropEvent
    (Box.mkMimeData [Box.mkDroppedUrl true "/home/u/More.TXT"
                       (Some ["https://a.example/1" +:+ Sample.NL])]
                    (Some "https://b.example/2"))
    (Box.dropEvent
       (Box.mkMimeData [Box.mkDroppedUrl true "/home/u/More.TXT"
                          (Some ["https://a.example/1" +:+ Sample.NL])]
                       (Some "https://b.example/2"))
       "https://b.example/2").1
  = Box.dropEvent
      (Box.mkMimeData [Box.mkDroppedUrl true "/home/u/More.TXT"
                         (Some ["https://a.example/1" +:+ Sample.NL])]
                      (Some "https://b.example/2"))
      "https://b.example/2".
Proof.
  split; [vm_compute; reflexivity|].
  apply (proj2 (drop_again
           (Box.mkMimeData [Box.mkDroppedUrl true "/home/u/More.TXT"
                              (Some ["https://a.example/1" +:+ Sample.NL])]
                           (Some "https://b.example/2"))
           "https://b.example/2")).
  - constructor; [|constructor].
    intros lines [= <-]. repeat constructor.
  - intros t [= <-]. repeat constructor.
Defined.

(** ** The pattern [file_re] *)

Lemma ext_at_inv (s : string) (n : nat) :
  FileRe.ext_at s = Some n →
  ∃ s' e, s = String "." s' ∧ e ∈ FileRe.extensions ∧
    FileRe.literal_ci e s' = true ∧
    FileRe.boundary (FileRe.drop_chars (String.length e) s') = true ∧
    n = S (String.length e).
Proof.
  destruct s as [|c s']; [done|].
  destruct c as [[] [] [] [] [] [] [] []]; try done.
  unfold FileRe.ext_at. intros H.
  destruct (find _ _) as [e|] eqn:E; [|done].
  apply find_some in E as [Hin Hf]. apply andb_true_iff in Hf as [H1 H2].
  injection H as <-. exists s', e. split_and!; try done. by apply list_elem_of_In.
Qed.

Lemma colon_backslash_inv {T} (t : string) (X : string → option T) (r : T) :
  match t with
  | String ":" (String "\" s'') => X s''
  | _ => None
  end = Some r →
  ∃ s'', t = String ":" (String "\" s'') ∧ X s'' = Some r.
Proof.
  destruct t as [|d t]; [done|].
  destruct d as [[] [] [] [] [] [] [] []]; try done.
  destruct t as [|e t]; [done|].
  destruct e as [[] [] [] [] [] [] [] []]; try done.
  intros H. by exists t.
Qed.

Lemma match_here_inv (s : string) (n : nat) :
  FileRe.match_here s = Some n →
  (∃ s' m, s = String "/" s' ∧ FileRe.body s' = Some m ∧ n = S m) ∨
  (∃ c s' m, s = String c (String ":" (String "\" s')) ∧ FileRe.drive_letter c = true ∧
             FileRe.body s' = Some m ∧ n = (3 + m)%nat).
Proof.
  destruct s as [|c t]; [done|]. unfold FileRe.match_here.
  destruct c as [b0 b1 b2 b3 b4 b5 b6 b7].
  set (X := fun s'' : string =>
              if FileRe.drive_letter (Ascii b0 b1 b2 b3 b4 b5 b6 b7)
              then (fun n => 3 + n)%nat <$> FileRe.body s'' else None).
  assert (HX : ∀ r, (∃ s'', t = String ":" (String "\" s'') ∧ X s'' = Some r) →
     ∃ c s' m, String (Ascii b0 b1 b2 b3 b4 b5 b6 b7) t = String c (String ":" (String "\" s')) ∧
       FileRe.drive_letter c = true ∧ FileRe.body s' = Some m ∧ r = (3 + m)%nat).
  { intros r (s'' & -> & Hr). unfold X in Hr.
    destruct (FileRe.drive_letter _) eqn:Ed; [|done].
    destruct (FileRe.body s'') as [m|] eqn:Eb; [|done]. injection Hr as <-.
    by exists (Ascii b0 b1 b2 b3 b4 b5 b6 b7), s'', m. }
  destruct b0, b1, b2, b3, b4, b5, b6, b7;
    try (intros H; right; apply HX; by apply (colon_backslash_inv t X n)).
  intros H. left. destruct (FileRe.body t) as [m|] eqn:Eb; [|done].
  injection H as <-. by exists t, m.
Qed.

Lemma literal_ci_split (e : string) :
  ∀ s, FileRe.literal_ci e s = true →
    ∃ x rest, s = x +:+ rest ∧ Py.lower x = e ∧
      String.length x = String.length e ∧
      rest = FileRe.drop_chars (String.length e) s.
Proof.
  induction e as [|a e IH]; intros s H.
  - exists "", s. split_and!; try done; by destruct s.
  - destruct s as [|b s]; [done|]. cbn [FileRe.literal_ci] in H.
    apply andb_true_iff in H as [Hab H]. apply Ascii.eqb_eq in Hab.
    destruct (IH s H) as (x & rest & -> & Hl & Hlen & Hr).
    exists (String b x), rest. split_and!; try done.
    + cbn [Py.lower]. by rewrite Hl, Hab.
    + cbn [String.length]. by rewrite Hlen.
Qed.

Lemma body_inv (s : string) :
  ∀ n, FileRe.body s = Some n →
    ∃ stem ext rest,
      s = stem +:+ String "." ext +:+ rest ∧
      n = (String.length stem + S (String.length ext))%nat ∧
      stem ≠ "" ∧ PyMore.all_chars FileRe.path_char stem = true ∧
      Py.lower ext ∈ FileRe.extensions ∧ FileRe.boundary rest = true.
Proof.
  induction s as [|c s IH]; intros n H; [done|].
  cbn [FileRe.body] in H. destruct (FileRe.path_char c) eqn:Ec; [|done].
  destruct (FileRe.body s) as [m|] eqn:Eb.
  - injection H as <-.
    destruct (IH m eq_refl) as (stem & ext & rest & -> & -> & _ & Hp & He & Hb).
    exists (String c stem), ext, rest. split_and!; try done.
    cbn [PyMore.all_chars]. by rewrite Ec, Hp.
  - destruct (FileRe.ext_at s) as [k|] eqn:Ee; [|done]. injection H as <-.
    apply ext_at_inv in Ee as (s' & e & -> & Hin & Hlit & Hb & ->).
    apply literal_ci_split in Hlit as (x & rest & -> & Hl & Hlen & Hr).
    exists (String c ""), x, rest. split_and!; try done.
    + cbn [String.length]. by rewrite Hlen.
    + cbn [PyMore.all_chars]. by rewrite Ec.
    + by rewrite Hl.
    + by rewrite Hr.
Qed.

Lemma substring_app_exact (a b : string) :
  String.substring 0 (String.length a) (a +:+ b) = a.
Proof.
  induction a as [|c a IH]; [apply substring_0_0|].
  change (String c (String.substring 0 (String.length a) (a +:+ b)) = String c a).
  by rewrite IH.
Qed.

Lemma match_here_path (s : string) (n : nat) :
  FileRe.match_here s = Some n →
  ∃ post, s = String.substring 0 n s +:+ post ∧ FileRe.boundary post = true ∧
          media_path (String.substring 0 n s).
Proof.
  intros H. apply match_here_inv in H as [(s' & m & -> & Hb & ->)|(c & s' & m & -> & Hc & Hb & ->)];
    apply body_inv in Hb as (stem & ext & rest & -> & -> & Hne & Hp & He & Hbd).
  - assert (Hs : String.substring 0 (S (String.length stem + S (String.length ext)))
                   (String "/" (stem +:+ String "." ext +:+ rest))
                 = String "/" (stem +:+ String "." ext)).
    { cbn [String.substring]. f_equal.
      rewrite <- (append_assoc stem (String "." ext) rest).
      replace (String.length stem + S (String.length ext))%nat
        with (String.length (stem +:+ String "." ext))
        by (rewrite length_append; done).
      apply substring_app_exact. }
    rewrite Hs. exists rest. split_and!; [|done|].
    + change (String "/" (stem +:+ String "." ext +:+ rest)
              = String "/" ((stem +:+ String "." ext) +:+ rest)).
      by rewrite append_assoc.
    + exists "/", stem, ext. split_and!; try done. by left.
  - assert (Hs : String.substring 0 (3 + (String.length stem + S (String.length ext)))
                   (String c (String ":" (String "\" (stem +:+ String "." ext +:+ rest))))
                 = String c (String ":" (String "\" (stem +:+ String "." ext)))).
    { cbn [String.substring Nat.add]. do 3 f_equal.
      rewrite <- (append_assoc stem (String "." ext) rest).
      replace (String.length stem + S (String.length ext))%nat
        with (String.length (stem +:+ String "." ext))
        by (rewrite length_append; done).
      apply substring_app_exact. }
    rewrite Hs. exists rest. split_and!; [|done|].
    + change (String c (String ":" (String "\" (stem +:+ String "." ext +:+ rest)))
              = String c (String ":" (String "\" ((stem +:+ String "." ext) +:+ rest)))).
      by rewrite append_assoc.
    + exists (String c ":\"), stem, ext. split_and!; try done. right. by exists c.
Qed.

Lemma search_path (line p : string) :
  FileRe.search line = Some p →
  ∃ pre post, line = pre +:+ p +:+ post ∧ FileRe.boundary post = true ∧ media_path p.
Proof.
  revert p; induction line as [|c line IH]; intros p H.
  - by vm_compute in H.
  - cbn [FileRe.search] in H.
    destruct (FileRe.match_here (String c line)) as [n|] eqn:E.
    + injection H as <-. apply match_here_path in E as (post & Hs & Hb & Hm).
      by exists "", post.
    + apply IH in H as (pre & post & -> & Hb & Hm).
      by exists (String c pre), post.
Qed.

(** X22.  On a line whose code points are all below 256, what [file_re]
    finds is a piece of the line that is an absolute path: a slash or a
    drive letter with a colon and a backslash, a stem that is not empty,
    a dot and one of the known extensions in any case; what follows it in
    the line does not begin with a word character. *)
Theorem found_path_is_media_path (cps : list Z) (p : string) :
  Latin1.in_range cps = true →
  FileRe.search (Latin1.text cps) = Some p →
  ∃ pre post, Latin1.text cps = pre +:+ p +:+ post ∧
    FileRe.boundary post = true ∧ media_path p.
Proof. intros _. apply search_path. Qed.

Lemma found_path_is_media_path_witness :
  Latin1.text 
    [68; 111; 119; 110; 108; 111; 97; 100; 105; 110; 103; 32; 47; 116; 109; 112; 47; 111; 117; 116; 47; 80; 104; 111; 116; 111; 46; 74; 80; 71; 32; 40; 50; 32; 77; 66; 41] = "Downloading /tmp/out/Photo.JPG (2 MB)" ∧
  ∃ pre post, Latin1.text 
    [68; 111; 119; 110; 108; 111; 97; 100; 105; 110; 103; 32; 47; 116; 109; 112; 47; 111; 117; 116; 47; 80; 104; 111; 116; 111; 46; 74; 80; 71; 32; 40; 50; 32; 77; 66; 41] = pre +:+ "/tmp/out/Photo.JPG" +:+ post ∧
    FileRe.boundary post = true ∧ media_path "/tmp/out/Photo.JPG".
Proof.
  split; [vm_compute; reflexivity|].
  apply (found_path_is_media_path 
    [68; 111; 119; 110; 108; 111; 97; 100; 105; 110; 103; 32; 47; 116; 109; 112; 47; 111; 117; 116; 47; 80; 104; 111; 116; 111; 46; 74; 80; 71; 32; 40; 50; 32; 77; 66; 41] "/tmp/out/Photo.JPG").
  - vm_compute. reflexivity.
  - vm_compute. reflexivity.
Defined.

(** ** The summary labels *)

Lemma classify_labels env s raw : labels_fresh s → labels_fresh (classify env s raw).
Proof.
  intros (H1 & H2).
  destruct (is_error_line (Py.lower (Py.strip raw))) eqn:E1.
  { rewrite classify_error by done. by split. }
  destruct (FileRe.search (Py.strip raw)) as [path|] eqn:E2.
  2:{ by rewrite classify_noise. }
  destruct (decide (path ∈ _seen_paths s)) as [Hin|Hnin].
  { by rewrite (classify_seen env s raw path). }
  rewrite (classify_new env s raw path) by done. by split.
Qed.

Lemma read_output_labels env data s : labels_fresh s → labels_fresh (_read_output env data s).
Proof.
  intros H. unfold _read_output. destruct (proc s); [|done].
  destruct (String.eqb data ""); [done|].
  generalize (Py.splitlines data). intros lines.
  assert (H' : labels_fresh (_log (LogOutput (Py.rstrip_char Py.LF data)) s)) by done.
  revert H'. generalize (_log (LogOutput (Py.rstrip_char Py.LF data)) s).
  induction lines as [|raw lines IH]; intros s' H'; simpl; [done|].
  by apply IH, classify_labels.
Qed.

Lemma run_next_batch_labels env s :
  labels_fresh s → labels_fresh (final (_run_next_batch env s)).
Proof.
  intros (H1 & H2). rewrite run_next_batch_cases.
  destruct (_ <=? _); [by split|]. by destruct (Py.getitem _ _).
Qed.

Lemma finished_batch_labels env exit_code s :
  labels_fresh s → labels_fresh (final (_finished_batch env exit_code s)).
Proof.
  intros (H1 & H2). rewrite finished_batch_eq.
  apply run_next_batch_labels. by split.
Qed.

Lemma start_run_labels env text s :
  labels_fresh s → labels_fresh (final (start_run env text s)).
Proof.
  intros H.
  destruct (start_run_cases env text s) as [(l & -> & _)|(out & n & _ & _ & _ & _ & ->)];
    [done|].
  apply run_next_batch_labels. by split.
Qed.

Lemma handle_labels s ev : labels_fresh s → labels_fresh (handle s ev).
Proof.
  intros H. destruct ev as [env [text|w|data|code]]; unfold handle, emit; cbn [fst snd].
  - by apply start_run_labels.
  - rewrite stop_run_eq. by split.
  - by apply read_output_labels.
  - by apply finished_batch_labels.
Qed.

(** X23.  After every event the labels are up to date: the three counters
    on screen are the totals of the run, and the total of the progress
    label is the length of the queue. *)
Theorem labels_never_stale (evs : list (Env * Event)) :
  labels_fresh (run_events init evs).
Proof.
  assert (H : ∀ s, labels_fresh s → labels_fresh (run_events s evs)).
  { induction evs as [|ev evs IH]; intros s Hs; [done|].
    rewrite run_events_cons. by apply IH, handle_labels. }
  by apply H.
Qed.
